(** * Product-creation protocol of produzione_main: a shallow embedding

  The Python sources embedded here are
  - [core/api_client.py], [core/file_manager.py], [core/product_builder.py]
    (the "clean" builder),
  - [modules/product_creator/api_client.py], [.../product_builder.py],
    [.../batch_processor.py] (the "modular" builder),
  - [config/placements.py], [config/products.py], [placement_config.py].

  Python lists are Rocq lists, dictionaries with string keys are [gmap
  string _] (or association lists where they are JSON documents),
  exceptions are a sum type, and the effects of the builders (vendor API
  calls, asset uploads, the file system, the object store) are threaded
  through an explicit state. *)

From Stdlib Require Import ZArith List String Ascii Lia Bool.
From Stdlib Require QArith.
From stdpp Require Import gmap strings list pretty.

Import ListNotations.
Local Open Scope string_scope.
Local Open Scope nat_scope.


(* ===================================================================== *)
(** * Python preliminaries *)
(* ===================================================================== *)

Module Py.

(** [l[a:b]] for non-negative indices: both ends are clamped to the
    length of the list, and an empty slice results when [b <= a]. *)
Definition slice {A} (l : list A) (a b : nat) : list A :=
  firstn (b - a) (skipn a l).

(** [l[:k]] and [l[k:]]. *)
Definition slice_to {A} (l : list A) (k : nat) : list A := firstn k l.
Definition slice_from {A} (l : list A) (k : nat) : list A := skipn k l.

(** [range(start, stop, step)] for a positive step.  The iteration is
    bounded by [stop] steps, which is enough whenever [step >= 1]. *)
Fixpoint range_from (fuel start stop step : nat) : list nat :=
  match fuel with
  | 0 => []
  | S fuel' =>
      if start <? stop
      then start :: range_from fuel' (start + step) stop step
      else []
  end.

Definition range3 (start stop step : nat) : list nat :=
  range_from stop start stop step.

(** [range(n)]. *)
Definition range (n : nat) : list nat := seq 0 n.

(** Truthiness of an optional string ([None] and the empty string are falsy). *)
Definition truthy (u : option string) : bool :=
  match u with
  | Some s => negb (String.eqb s EmptyString)
  | None => false
  end.

(** ** Exceptions and results *)

(** The exception classes the embedded code raises or meets.  The text of
    an [Exception] is the fixed part of the message of the source (the
    interpolated response or path is dropped). *)
Inductive exn : Type :=
| KeyError (key : string)
| TypeError
| AttributeError (attr : string)
| ValueError (msg : string)
| NameError (name : string)
| FileNotFoundError (path : string)
| Exception (msg : string).

(** The outcome of evaluating an expression or a call. *)
Inductive result (A : Type) : Type :=
| Ok (a : A)
| Raise (e : exn).

Arguments Ok {A} a.
Arguments Raise {A} e.

Definition is_ok {A} (r : result A) : bool :=
  match r with Ok _ => true | Raise _ => false end.

Definition result_bind {A B} (r : result A) (k : A -> result B) : result B :=
  match r with
  | Ok a => k a
  | Raise e => Raise e
  end.

(** [[f(x) for x in xs]] for a fallible [f]: the first exception wins. *)
Fixpoint result_map {A B} (f : A -> result B) (xs : list A) : result (list B) :=
  match xs with
  | [] => Ok []
  | x :: xs' =>
      result_bind (f x) (fun y =>
      result_bind (result_map f xs') (fun ys => Ok (y :: ys)))
  end.

(** ** JSON documents

    The value of [response.json()]: a Python object built from [None],
    booleans, integers, strings, lists and dictionaries with string keys
    (kept in document order). *)
#[warnings="-register-all"]
Inductive json : Type :=
| JNull
| JBool (b : bool)
| JInt (n : Z)
| JStr (s : string)
| JList (items : list json)
| JDict (fields : list (string * json)).

Fixpoint assoc {V} (k : string) (kv : list (string * V)) : option V :=
  match kv with
  | [] => None
  | (k', v) :: kv' => if String.eqb k k' then Some v else assoc k kv'
  end.

(** [d[k]]: [KeyError] on a dictionary without the key, [TypeError] on a
    value that is not subscriptable by a string. *)
Definition subscript (d : json) (k : string) : result json :=
  match d with
  | JDict kv =>
      match assoc k kv with
      | Some v => Ok v
      | None => Raise (KeyError k)
      end
  | _ => Raise TypeError
  end.

(** [d.get(k, default)]; only dictionaries have a [get] attribute. *)
Definition get_default (d : json) (k : string) (default : json) : result json :=
  match d with
  | JDict kv =>
      match assoc k kv with
      | Some v => Ok v
      | None => Ok default
      end
  | _ => Raise (AttributeError "get")
  end.

(** [d.get(k)]. *)
Definition get (d : json) (k : string) : result json :=
  get_default d k JNull.

(** [k in d] for a dictionary [d]. *)
Definition has_key (d : json) (k : string) : result bool :=
  match d with
  | JDict kv => Ok (match assoc k kv with Some _ => true | None => false end)
  | _ => Raise TypeError
  end.

(** A string is held as its UTF-8 bytes; a character of the Python string
    is a byte that is not a continuation byte ([10xxxxxx]) together with
    the continuation bytes that follow it. *)
Definition is_continuation (c : ascii) : bool :=
  (128 <=? nat_of_ascii c) && (nat_of_ascii c <? 192).

(** The continuation bytes a string starts with, and the characters after
    them. *)
Fixpoint code_points (s : string) : string * list string :=
  match s with
  | EmptyString => (EmptyString, [])
  | String c rest =>
      let '(continuation, characters) := code_points rest in
      if is_continuation c
      then (String c continuation, characters)
      else (EmptyString, String c continuation :: characters)
  end.

Definition chars (s : string) : list json :=
  let '(continuation, characters) := code_points s in
  map JStr (match continuation with
            | EmptyString => characters
            | _ => continuation :: characters
            end).

(** The items a [for] loop or a comprehension draws from a value. *)
Definition iter (v : json) : result (list json) :=
  match v with
  | JList items => Ok items
  | JDict kv => Ok (map (fun p => JStr (fst p)) kv)
  | JStr s => Ok (chars s)
  | _ => Raise TypeError
  end.

(** [len(v)]. *)
Definition len (v : json) : result nat :=
  match v with
  | JList items => Ok (length items)
  | JDict kv => Ok (length kv)
  | JStr s => Ok (length (chars s))
  | _ => Raise TypeError
  end.

(** [c in [200, 201]]. *)
Definition in_200_201 (c : json) : bool :=
  match c with
  | JInt n => (n =? 200)%Z || (n =? 201)%Z
  | _ => false
  end.

(** Truthiness of a JSON value ([if not product_id]). *)
Definition json_truthy (v : json) : bool :=
  match v with
  | JNull => false
  | JBool b => b
  | JInt n => negb (n =? 0)%Z
  | JStr s => negb (String.eqb s EmptyString)
  | JList items => match items with [] => false | _ => true end
  | JDict kv => match kv with [] => false | _ => true end
  end.

(** ** Paths

    [os.path.basename] and the root part of [os.path.splitext] on POSIX
    paths. *)
Fixpoint basename_chars (cs acc : list ascii) : list ascii :=
  match cs with
  | [] => acc
  | c :: cs' =>
      if Ascii.eqb c "/"%char then basename_chars cs' []
      else basename_chars cs' (acc ++ [c])%list
  end.

Definition basename (p : string) : string :=
  string_of_list_ascii (basename_chars (list_ascii_of_string p) []).

(** Position of the last dot of [cs] (counted from [i]). *)
Fixpoint last_dot (cs : list ascii) (i : nat) (found : option nat) : option nat :=
  match cs with
  | [] => found
  | c :: cs' =>
      last_dot cs' (S i) (if Ascii.eqb c "."%char then Some i else found)
  end.

Fixpoint leading_dots (cs : list ascii) : nat :=
  match cs with
  | c :: cs' => if Ascii.eqb c "."%char then S (leading_dots cs') else 0
  | [] => 0
  end.

(** [os.path.splitext(name)] for a name without directory part: the
    extension starts at the last dot, unless that dot is one of the
    leading dots of the name. *)
Definition splitext_name (name : string) : string * string :=
  let cs := list_ascii_of_string name in
  match last_dot cs 0 None with
  | Some i =>
      if i <? leading_dots cs
      then (name, EmptyString)
      else (string_of_list_ascii (firstn i cs),
            string_of_list_ascii (skipn i cs))
  | None => (name, EmptyString)
  end.

(** [os.path.splitext(path)]: the directory part stays with the root. *)
Definition splitext (path : string) : string * string :=
  let name := basename path in
  let dir_len := String.length path - String.length name in
  let dir := string_of_list_ascii (firstn dir_len (list_ascii_of_string path)) in
  let '(root, ext) := splitext_name name in
  (String.append dir root, ext).

(** [os.path.splitext(os.path.basename(design_file))[0]]. *)
Definition design_name_of (design_file : string) : string :=
  fst (splitext_name (basename design_file)).

End Py.

Export Py (exn(..), result(..), json(..)).

(* ===================================================================== *)
(** * Variant batch planner *)
(* ===================================================================== *)

Module Planner.

(** Append batch size used by both builders ([batch_size = 10]). *)
Definition batch_size : nat := 10.

Section Plan.
Context {A : Type}.

  (** ** Clean builder: [core/product_builder.py], [_create_product]

      [initial_batch = variants[:8]], [remaining = variants[8:]], and
      [for i in range(0, len(remaining), batch_size):
           batch = remaining[i:i + batch_size]]. *)
Definition core_initial_batch (variants : list A) : list A :=
    Py.slice_to variants 8.

Definition core_remaining (variants : list A) : list A :=
    Py.slice_from variants 8.

Definition core_batches_of (remaining : list A) : list (list A) :=
    map (fun i => Py.slice remaining i (i + batch_size))
        (Py.range3 0 (length remaining) batch_size).

Definition core_append_batches (variants : list A) : list (list A) :=
    core_batches_of (core_remaining variants).

  (** ** Modular builder: [modules/product_creator/product_builder.py]

      [max_initial = 20], [initial_variants = variants[:max_initial]],
      [remaining_variants = variants[max_initial:]] in
      [build_single_product]; in [_add_remaining_variants_batch]
      [total_batches = (len(remaining) + batch_size - 1) // batch_size]
      and, for [batch_num in range(total_batches)],
      [start_idx = batch_num * batch_size],
      [end_idx = min(start_idx + batch_size, len(remaining))],
      [batch = remaining[start_idx:end_idx]]. *)
Definition max_initial : nat := 20.

Definition modular_initial_batch (variants : list A) : list A :=
    Py.slice_to variants max_initial.

Definition modular_remaining (variants : list A) : list A :=
    Py.slice_from variants max_initial.

Definition total_batches (remaining : list A) : nat :=
    (length remaining + batch_size - 1) / batch_size.

Definition modular_batch (remaining : list A) (batch_num : nat) : list A :=
    let start_idx := batch_num * batch_size in
    let end_idx := Nat.min (start_idx + batch_size) (length remaining) in
    Py.slice remaining start_idx end_idx.

Definition modular_batches_of (remaining : list A) : list (list A) :=
    map (modular_batch remaining) (Py.range (total_batches remaining)).

Definition modular_append_batches (variants : list A) : list (list A) :=
    modular_batches_of (modular_remaining variants).

(** The chunk of ten cut from [l] at offset [10 * k] (used to state what
    the two loops above have in common). *)
Definition chunk (l : list A) (k : nat) : list A :=
  firstn 10 (skipn (k * 10) l).

End Plan.

(** [ceil(n / 10)] on natural numbers. *)
Definition ceil_div10 (n : nat) : nat := (n + 9) / 10.

End Planner.

(* ===================================================================== *)
(** * Placement catalogs and the object store *)
(* ===================================================================== *)

Module Placements.

(** ** Position dictionaries

    A position box is a Python dictionary from field names to floats and
    one boolean.  The float literals of the source all have one decimal
    digit; [tenths 95] stands for [9.5]. *)
Inductive pyval : Type :=
| PFloat (q : QArith_base.Q)
| PBool (b : bool).

Definition tenths (z : Z) : pyval := PFloat (QArith_base.Qmake z 10).

Definition position_dict
  (area_width area_height width height top left : Z) (limit : bool)
  : gmap string pyval :=
  list_to_map
    [("area_width", tenths area_width); ("area_height", tenths area_height);
     ("width", tenths width); ("height", tenths height);
     ("top", tenths top); ("left", tenths left);
     ("limit_to_print_area", PBool limit)].

(** ** The object store

    The dictionaries of the catalogs are objects: a table maps a placement
    type to a reference, and the store maps references to the current
    contents of the dictionaries. *)
Definition loc : Type := positive.

Definition alloc (d : gmap string pyval) (h : gmap loc (gmap string pyval))
  : loc * gmap loc (gmap string pyval) :=
  let l := fresh (dom h) in (l, <[l := d]> h).

(** [d[k] = v] on the object at [l]. *)
Definition setitem (l : loc) (k : string) (v : pyval)
  (h : gmap loc (gmap string pyval)) : gmap loc (gmap string pyval) :=
  alter (fun d => <[k := v]> d) l h.

(** Allocation of the dictionaries of a literal table, in source order. *)
Fixpoint alloc_table (entries : list (string * gmap string pyval))
  (h : gmap loc (gmap string pyval))
  : list (string * loc) * gmap loc (gmap string pyval) :=
  match entries with
  | [] => ([], h)
  | (k, d) :: rest =>
      let '(l, h1) := alloc d h in
      let '(refs, h2) := alloc_table rest h1 in
      ((k, l) :: refs, h2)
  end.

(** ** [config/placements.py] *)

Definition HAT_PLACEMENTS_literal : list (string * gmap string pyval) :=
  [("embroidery_front", position_dict 120 80 50 40 25 15 true);
   ("embroidery_left", position_dict 80 60 30 25 15 25 true);
   ("embroidery_right", position_dict 80 60 30 25 15 25 true)].

Definition SLEEVE_PLACEMENTS_literal : list (string * gmap string pyval) :=
  [("embroidery_sleeve_left_top", position_dict 100 150 30 30 95 35 false);
   ("embroidery_sleeve_right_top", position_dict 100 150 30 30 95 35 false);
   ("embroidery_wrist_left", position_dict 80 120 24 24 76 28 false);
   ("embroidery_wrist_right", position_dict 80 120 24 24 76 28 false)].

Definition CHEST_PLACEMENTS_literal : list (string * gmap string pyval) :=
  [("embroidery_chest_left", position_dict 180 240 20 20 30 40 true);
   ("embroidery_chest_right", position_dict 180 240 40 40 30 100 true);
   ("embroidery_chest_center", position_dict 180 240 50 50 40 65 true)].

(** The module's tables after import: [ALL_PLACEMENTS] is
    [{**HAT_PLACEMENTS, **SLEEVE_PLACEMENTS, **CHEST_PLACEMENTS}], so it
    holds the very objects of the three tables (later tables win). *)
Record placements_module : Type := {
  HAT_PLACEMENTS : gmap string loc;
  SLEEVE_PLACEMENTS : gmap string loc;
  CHEST_PLACEMENTS : gmap string loc;
  ALL_PLACEMENTS : gmap string loc
}.

Definition import_placements (h : gmap loc (gmap string pyval))
  : placements_module * gmap loc (gmap string pyval) :=
  let '(hat, h1) := alloc_table HAT_PLACEMENTS_literal h in
  let '(sleeve, h2) := alloc_table SLEEVE_PLACEMENTS_literal h1 in
  let '(chest, h3) := alloc_table CHEST_PLACEMENTS_literal h2 in
  let hat_m : gmap string loc := list_to_map hat in
  let sleeve_m : gmap string loc := list_to_map sleeve in
  let chest_m : gmap string loc := list_to_map chest in
  ({| HAT_PLACEMENTS := hat_m;
      SLEEVE_PLACEMENTS := sleeve_m;
      CHEST_PLACEMENTS := chest_m;
      ALL_PLACEMENTS := chest_m ∪ (sleeve_m ∪ hat_m) |}, h3).

(** ** [placement_config.py]: the universal offsets *)

Definition UNIVERSAL_SLEEVE_OFFSET_literal : list (string * gmap string pyval) :=
  [("embroidery_sleeve_left_top", position_dict 100 150 30 30 95 35 false);
   ("embroidery_sleeve_right_top", position_dict 100 150 30 30 95 35 false);
   ("embroidery_wrist_left", position_dict 80 120 24 24 76 28 false);
   ("embroidery_wrist_right", position_dict 80 120 24 24 76 28 false)].

Definition UNIVERSAL_CHEST_OFFSET_literal : list (string * gmap string pyval) :=
  [("embroidery_chest_left", position_dict 180 240 20 20 30 40 true);
   ("embroidery_chest_right", position_dict 180 240 40 40 30 100 true);
   ("embroidery_chest_center", position_dict 180 240 50 50 40 65 true)].

Record placement_config_module : Type := {
  UNIVERSAL_SLEEVE_OFFSET : gmap string loc;
  UNIVERSAL_CHEST_OFFSET : gmap string loc
}.

Definition import_placement_config (h : gmap loc (gmap string pyval))
  : placement_config_module * gmap loc (gmap string pyval) :=
  let '(sleeve, h1) := alloc_table UNIVERSAL_SLEEVE_OFFSET_literal h in
  let '(chest, h2) := alloc_table UNIVERSAL_CHEST_OFFSET_literal h1 in
  ({| UNIVERSAL_SLEEVE_OFFSET := list_to_map sleeve;
      UNIVERSAL_CHEST_OFFSET := list_to_map chest |}, h2).

(** ** Placement slots and product tables *)

Record placement : Type := {
  p_type : string;
  p_description : string;
  p_design_type : string
}.

Record product : Type := {
  prod_name : string;
  prod_placements : list placement
}.

Definition slot (t d dt : string) : placement :=
  {| p_type := t; p_description := d; p_design_type := dt |}.

Definition shirt_slots (second : string) (second_description : string)
  : list placement :=
  [slot "embroidery_chest_left" "Ricamo petto sinistro" "embroidery";
   slot second second_description "embroidery";
   slot "back" "Stampa DTG retro" "dtg"].

Definition hat_slots : list placement :=
  [slot "embroidery_front" "Ricamo frontale" "embroidery";
   slot "embroidery_left" "Ricamo lato sinistro" "embroidery"].

(** [PRODUCTS] of [config/products.py] (the [category] and [order] fields
    are not read by the builders). *)
Definition PRODUCTS : list (string * product) :=
  [("gildan_5000",
    {| prod_name := "Gildan 5000 - T-shirt";
       prod_placements :=
         shirt_slots "embroidery_sleeve_left_top" "Ricamo manica sinistra" |});
   ("gildan_18000",
    {| prod_name := "Gildan 18000 - Felpa";
       prod_placements :=
         shirt_slots "embroidery_wrist_left" "Ricamo polso sinistro" |});
   ("gildan_18500",
    {| prod_name := "Gildan 18500 - Felpa con Cappuccio";
       prod_placements :=
         shirt_slots "embroidery_wrist_left" "Ricamo polso sinistro" |});
   ("as_colour_1120",
    {| prod_name := "AS Colour 1120 - Beanie";
       prod_placements :=
         [slot "embroidery_front" "Ricamo frontale" "embroidery"] |});
   ("yupoong_6089m",
    {| prod_name := "Yupoong 6089M - Cappello";
       prod_placements := hat_slots |})].

(** [PRODUCT_PLACEMENTS] of [placement_config.py]. *)
Definition PRODUCT_PLACEMENTS : list (string * product) :=
  [("gildan_5000",
    {| prod_name := "Gildan 5000 - T-shirt";
       prod_placements :=
         shirt_slots "embroidery_sleeve_left_top" "Ricamo manica sinistra" |});
   ("gildan_18000",
    {| prod_name := "Gildan 18000 - Felpa";
       prod_placements :=
         shirt_slots "embroidery_wrist_left" "Ricamo polso sinistro" |});
   ("gildan_18500",
    {| prod_name := "Gildan 18500 - Felpa con Cappuccio";
       prod_placements :=
         shirt_slots "embroidery_wrist_left" "Ricamo polso sinistro" |});
   ("as_colour_1120",
    {| prod_name := "AS Colour 1120 - T-shirt";
       prod_placements :=
         shirt_slots "embroidery_sleeve_left_top" "Ricamo manica sinistra" |});
   ("yupoong_6089m",
    {| prod_name := "Yupoong 6089M - Cappello";
       prod_placements := hat_slots |})].

(** [get_product_placements]: [ValueError] for an unconfigured product
    type (both modules). *)
Definition get_product_placements (table : list (string * product))
  (product_type : string) : result (list placement) :=
  match Py.assoc product_type table with
  | Some p => Py.Ok (prod_placements p)
  | None => Py.Raise (Py.ValueError "Prodotto non configurato")
  end.

(** [get_product_name] of [config/products.py]. *)
Definition get_product_name (table : list (string * product))
  (product_type : string) : result string :=
  match Py.assoc product_type table with
  | Some p => Py.Ok (prod_name p)
  | None => Py.Raise (Py.ValueError "Prodotto non configurato")
  end.

(** ** File configurations *)

Record option_entry : Type := { opt_id : string; opt_value : bool }.

(** The dictionary attached to a variant for one placement; [fc_options]
    and [fc_position] are [None] when the key is absent.  The position is
    a reference into the object store. *)
Record file_config : Type := {
  fc_type : string;
  fc_url : string;
  fc_options : option (list option_entry);
  fc_position : option loc
}.

Definition set_position (fc : file_config) (l : loc) : file_config :=
  {| fc_type := fc_type fc; fc_url := fc_url fc;
     fc_options := fc_options fc; fc_position := Some l |}.

(** Truthiness of a dictionary: empty dictionaries are falsy. *)
Definition dict_truthy (d : gmap string pyval) : bool :=
  negb (bool_decide (d = ∅)).

(** [position.copy()]: a new object with the same items. *)
Definition dict_copy (l : loc) (h : gmap loc (gmap string pyval))
  : option (loc * gmap loc (gmap string pyval)) :=
  match h !! l with
  | Some d => Some (alloc d h)
  | None => None
  end.

(** [apply_position] of [config/placements.py]:
    [position = ALL_PLACEMENTS.get(placement_type)];
    [if position: file_config["position"] = position.copy()]. *)
Definition apply_position (all_placements : gmap string loc)
  (placement_type : string) (fc : file_config)
  (h : gmap loc (gmap string pyval))
  : file_config * gmap loc (gmap string pyval) :=
  match all_placements !! placement_type with
  | Some l =>
      match h !! l with
      | Some d =>
          if dict_truthy d
          then let '(l', h') := alloc d h in (set_position fc l', h')
          else (fc, h)
      | None => (fc, h)
      end
  | None => (fc, h)
  end.

(** The keys read by the log lines of [apply_universal_positioning] after
    the copy has been attached; a missing key is a [KeyError]. *)
Definition sleeve_log_keys : list string :=
  ["area_width"; "area_height"; "left"; "top"; "width"; "height";
   "limit_to_print_area"].

Definition chest_log_keys : list string := ["left"; "top"; "width"; "height"].

Fixpoint read_keys (d : gmap string pyval) (keys : list string) : result unit :=
  match keys with
  | [] => Py.Ok tt
  | k :: keys' =>
      match d !! k with
      | Some _ => read_keys d keys'
      | None => Py.Raise (Py.KeyError k)
      end
  end.

(** [placement_type in TABLE] followed by [TABLE[placement_type].copy()],
    the assignment [file_config["position"] = position_config] and the
    log lines.  A reference without object does not occur: the tables only
    hold references of allocated dictionaries. *)
Definition attach_copy (l : loc) (log_keys : list string) (fc : file_config)
  (h : gmap loc (gmap string pyval))
  : result file_config * gmap loc (gmap string pyval) :=
  match h !! l with
  | Some d =>
      let '(l', h') := alloc d h in
      match read_keys d log_keys with
      | Py.Ok _ => (Py.Ok (set_position fc l'), h')
      | Py.Raise e => (Py.Raise e, h')
      end
  | None => (Py.Raise Py.TypeError, h)
  end.

(** [apply_universal_positioning] of [placement_config.py]: the sleeve
    table is consulted first, then the chest table; other placement types
    keep the configuration as it is. *)
Definition apply_universal_positioning (m : placement_config_module)
  (placement_type : string) (fc : file_config)
  (h : gmap loc (gmap string pyval))
  : result file_config * gmap loc (gmap string pyval) :=
  match UNIVERSAL_SLEEVE_OFFSET m !! placement_type with
  | Some l => attach_copy l sleeve_log_keys fc h
  | None =>
      match UNIVERSAL_CHEST_OFFSET m !! placement_type with
      | Some l => attach_copy l chest_log_keys fc h
      | None => (Py.Ok fc, h)
      end
  end.

(** What it means for [fc'] to be [fc] with a copy of the object at [l]
    attached, in the store [h']: the copy is another object with the same
    items, and assigning to any of its keys leaves the object at [l] as
    it is. *)
Definition copy_attached (fc fc' : file_config) (l : loc)
  (d : gmap string pyval) (h' : gmap loc (gmap string pyval)) : Prop :=
  exists l',
    fc' = set_position fc l'
    /\ l' <> l
    /\ h' !! l' = Some d
    /\ h' !! l = Some d
    /\ (forall k v, setitem l' k v h' !! l = Some d)
    /\ (forall k v, setitem l' k v h' !! l' = Some (<[k := v]> d)).

(** A store [h'] extends [h] when the objects of [h] are still there,
    unchanged. *)
Definition extends (h' h : gmap loc (gmap string pyval)) : Prop :=
  forall l d, h !! l = Some d -> h' !! l = Some d.

(** ** Well-formed catalogs

    Every reference of the tables of [placement_config.py] denotes an
    object of the store that has the keys read by the log lines.  This
    holds after import and is kept by every allocation. *)
Definition table_ok (table : gmap string loc) (keys : list string)
  (h : gmap loc (gmap string pyval)) : Prop :=
  forall k l, table !! k = Some l ->
    exists d, h !! l = Some d /\ read_keys d keys = Ok tt.

Definition catalog_ok (m : placement_config_module)
  (h : gmap loc (gmap string pyval)) : Prop :=
  table_ok (UNIVERSAL_SLEEVE_OFFSET m) sleeve_log_keys h
  /\ table_ok (UNIVERSAL_CHEST_OFFSET m) chest_log_keys h.

(** The same as a test. *)
Definition table_okb (table : gmap string loc) (keys : list string)
  (h : gmap loc (gmap string pyval)) : bool :=
  forallb (fun kl : string * loc =>
             match h !! snd kl with
             | Some d => Py.is_ok (read_keys d keys)
             | None => false
             end)
          (map_to_list table).

Definition catalog_okb (m : placement_config_module)
  (h : gmap loc (gmap string pyval)) : bool :=
  table_okb (UNIVERSAL_SLEEVE_OFFSET m) sleeve_log_keys h
  && table_okb (UNIVERSAL_CHEST_OFFSET m) chest_log_keys h.

(** The modules and the store after both imports into an empty store. *)
Definition loaded
  : placements_module * placement_config_module
    * gmap loc (gmap string pyval) :=
  let '(pm, h1) := import_placements ∅ in
  let '(pcm, h2) := import_placement_config h1 in
  (pm, pcm, h2).

Definition loaded_pm : placements_module := fst (fst loaded).
Definition loaded_pcm : placement_config_module := snd (fst loaded).
Definition loaded_objs : gmap loc (gmap string pyval) := snd loaded.

(** ** Placement resolution *)

(** The [urls] dictionary of the builders.  [design_url] is always the
    string returned by the uploader; the other entries may be [None]
    (or absent, for [logo_black_url]). *)
Record urls : Type := {
  design_url : string;
  logo_url : option string;
  upscaled_url : option string;
  logo_black_url : option string
}.

(** [u] if it is truthy, as the URL to use. *)
Definition truthy_url (u : option string) : option string :=
  if Py.truthy u then u else None.

(** [a or b]. *)
Definition py_or (a b : option string) : option string :=
  if Py.truthy a then a else b.

Definition auto_thread_color : option_entry :=
  {| opt_id := "auto_thread_color"; opt_value := true |}.

(** [file_config = {"type": placement_type, "url": url}], with the
    embroidery options added when [design_type == "embroidery"]. *)
Definition base_config (pl : placement) (url : string) : file_config :=
  {| fc_type := p_type pl;
     fc_url := url;
     fc_options :=
       if String.eqb (p_design_type pl) "embroidery"
       then Some [auto_thread_color] else None;
     fc_position := None |}.

(** The URL chosen for the placement at index [i] in
    [_build_files_config] of [core/product_builder.py]; [None] stands for
    [continue]. *)
Definition core_select_url (product_type : string) (i : nat)
  (pl : placement) (u : urls) : option string :=
  if String.eqb product_type "yupoong_6089m" then
    if String.eqb (p_type pl) "embroidery_front" then Some (design_url u)
    else if String.eqb (p_type pl) "embroidery_left" then
      truthy_url (py_or (logo_black_url u) (logo_url u))
    else None
  else if String.eqb product_type "as_colour_1120" then
    if String.eqb (p_type pl) "embroidery_front" then Some (design_url u)
    else None
  else
    if i =? 0 then Some (design_url u)
    else if (i =? 1) && Py.truthy (logo_url u) then logo_url u
    else if String.eqb (p_type pl) "back" && Py.truthy (upscaled_url u)
    then upscaled_url u
    else None.

Fixpoint core_files_loop (all_placements : gmap string loc)
  (product_type : string) (u : urls) (i : nat) (pls : list placement)
  (h : gmap loc (gmap string pyval))
  : list file_config * gmap loc (gmap string pyval) :=
  match pls with
  | [] => ([], h)
  | pl :: rest =>
      match core_select_url product_type i pl u with
      | None => core_files_loop all_placements product_type u (S i) rest h
      | Some url =>
          let '(fc, h1) :=
            apply_position all_placements (p_type pl) (base_config pl url) h in
          let '(fcs, h2) :=
            core_files_loop all_placements product_type u (S i) rest h1 in
          (fc :: fcs, h2)
      end
  end.

(** [ProductBuilder._build_files_config] of [core/product_builder.py]. *)
Definition _build_files_config (products : list (string * product))
  (all_placements : gmap string loc) (product_type : string) (u : urls)
  (h : gmap loc (gmap string pyval))
  : result (list file_config) * gmap loc (gmap string pyval) :=
  match get_product_placements products product_type with
  | Py.Raise e => (Py.Raise e, h)
  | Py.Ok pls =>
      let '(fcs, h') :=
        core_files_loop all_placements product_type u 0 pls h in
      (Py.Ok fcs, h')
  end.

(** The URL chosen in [create_variant_files_config] of
    [placement_config.py]. *)
Definition modular_select_url (i : nat) (pl : placement)
  (design : string) (logo upscaled : option string) : option string :=
  if i =? 0 then Some design
  else if (i =? 1) && Py.truthy logo then logo
  else if String.eqb (p_type pl) "back" && Py.truthy upscaled then upscaled
  else None.

Fixpoint modular_files_loop (m : placement_config_module)
  (design : string) (logo upscaled : option string)
  (i : nat) (pls : list placement) (h : gmap loc (gmap string pyval))
  : result (list file_config) * gmap loc (gmap string pyval) :=
  match pls with
  | [] => (Py.Ok [], h)
  | pl :: rest =>
      match modular_select_url i pl design logo upscaled with
      | None => modular_files_loop m design logo upscaled (S i) rest h
      | Some url =>
          match apply_universal_positioning m (p_type pl)
                  (base_config pl url) h with
          | (Py.Raise e, h1) => (Py.Raise e, h1)
          | (Py.Ok fc, h1) =>
              match modular_files_loop m design logo upscaled (S i) rest h1 with
              | (Py.Raise e, h2) => (Py.Raise e, h2)
              | (Py.Ok fcs, h2) => (Py.Ok (fc :: fcs), h2)
              end
          end
      end
  end.

(** [create_variant_files_config] of [placement_config.py].  The closing
    loop of the source only prints. *)
Definition create_variant_files_config (products : list (string * product))
  (m : placement_config_module) (product_type : string)
  (design : string) (logo upscaled : option string)
  (h : gmap loc (gmap string pyval))
  : result (list file_config) * gmap loc (gmap string pyval) :=
  match get_product_placements products product_type with
  | Py.Raise e => (Py.Raise e, h)
  | Py.Ok pls => modular_files_loop m design logo upscaled 0 pls h
  end.

(** What a slot and a file configuration show of each other: the
    placement type, and the embroidery options of an embroidery slot. *)
Definition slot_view (pl : placement) : string * option (list option_entry) :=
  (p_type pl,
   if String.eqb (p_design_type pl) "embroidery"
   then Some [auto_thread_color] else None).

Definition file_view (fc : file_config)
  : string * option (list option_entry) :=
  (fc_type fc, fc_options fc).

(** [validate_product_compatibility]: only its ["compatible"] entry is
    read by the builder; it is false exactly when
    [get_product_placements] raises [ValueError]. *)
Definition validate_product_compatibility (products : list (string * product))
  (product_type : string) : bool :=
  Py.is_ok (get_product_placements products product_type).

(** ** [config/placements.py]: the helpers *)

(** [get_placement_config]: [ALL_PLACEMENTS.get(placement_type)], the
    object itself and not a copy; [has_custom_position]. *)
Definition get_placement_config (pm : placements_module)
  (placement_type : string) : option loc :=
  ALL_PLACEMENTS pm !! placement_type.

Definition has_custom_position (pm : placements_module)
  (placement_type : string) : bool :=
  match ALL_PLACEMENTS pm !! placement_type with
  | Some _ => true
  | None => false
  end.

(** [if v is not None: HAT_PLACEMENTS[placement][key] = v;
    ALL_PLACEMENTS[placement][key] = v].  A key missing from a table is a
    [KeyError]. *)
Definition write_both (pm : placements_module) (placement key : string)
  (v : option QArith_base.Q) (h : gmap loc (gmap string pyval))
  : result unit * gmap loc (gmap string pyval) :=
  match v with
  | None => (Py.Ok tt, h)
  | Some q =>
      match HAT_PLACEMENTS pm !! placement with
      | None => (Py.Raise (Py.KeyError placement), h)
      | Some lh =>
          let h1 := setitem lh key (PFloat q) h in
          match ALL_PLACEMENTS pm !! placement with
          | None => (Py.Raise (Py.KeyError placement), h1)
          | Some la => (Py.Ok tt, setitem la key (PFloat q) h1)
          end
      end
  end.

(** [update_hat_position(placement, top=None, left=None)]. *)
Definition update_hat_position (pm : placements_module) (placement : string)
  (top left : option QArith_base.Q) (h : gmap loc (gmap string pyval))
  : result unit * gmap loc (gmap string pyval) :=
  match HAT_PLACEMENTS pm !! placement with
  | None =>
      (Py.Raise (Py.ValueError
                   (String.append "Placement "
                      (String.append placement
                         " non è un placement cappello"))), h)
  | Some _ =>
      match write_both pm placement "top" top h with
      | (Py.Raise e, h1) => (Py.Raise e, h1)
      | (Py.Ok _, h1) => write_both pm placement "left" left h1
      end
  end.

(** The box [d] with [key] set to [v], when [v] is given. *)
Definition updated (key : string) (v : option QArith_base.Q)
  (d : gmap string pyval) : gmap string pyval :=
  match v with
  | Some q => <[key := PFloat q]> d
  | None => d
  end.

End Placements.

(* ===================================================================== *)
(** * Processes: state, collaborators and effects *)
(* ===================================================================== *)

Module Sys.
Import Placements.

(** ** Variants and payloads *)

(** A variant of the variant catalog, as standardised by the loader. *)
Record variant : Type := {
  variant_id : Z;
  price : QArith_base.Q
}.

(** One entry of ["sync_variants"] as built in memory: a reference to an
    existing remote variant, [{"id": ...}], or a new variant. *)
Inductive sync_entry : Type :=
| ExistingRef (id : json)
| NewVariant (retail_price : string) (vid : Z) (files : list file_config).

(** The same data as sent on the wire: positions are serialised from the
    object store. *)
Record sent_file : Type := {
  sf_type : string;
  sf_url : string;
  sf_options : option (list option_entry);
  sf_position : option (gmap string pyval)
}.

Inductive sent_entry : Type :=
| SentRef (id : json)
| SentNew (retail_price : string) (vid : Z) (files : list sent_file).

(** [{"sync_product": {"name": ..., "thumbnail": ...}, "sync_variants": ...}] *)
Record body : Type := {
  b_name : string;
  b_thumbnail : string;
  b_variants : list sent_entry
}.

Definition serialize_file (h : gmap loc (gmap string pyval))
  (fc : file_config) : sent_file :=
  {| sf_type := fc_type fc;
     sf_url := fc_url fc;
     sf_options := fc_options fc;
     sf_position :=
       match fc_position fc with
       | Some l => h !! l
       | None => None
       end |}.

Definition serialize_entry (h : gmap loc (gmap string pyval))
  (e : sync_entry) : sent_entry :=
  match e with
  | ExistingRef id => SentRef id
  | NewVariant rp vid files => SentNew rp vid (map (serialize_file h) files)
  end.

(** ** Requests and events *)

(** [/store/products] and [/store/products/{product_id}]. *)
Inductive endpoint : Type :=
| StoreProducts
| StoreProduct (product_id : json).

Inductive request : Type :=
| GET (e : endpoint)
| POST (e : endpoint) (data : body)
| PUT (e : endpoint) (data : body).

(** What a process does to the outside, in order.  [Api] records one
    call of a method of the API client ([get], [post], [put] of the clean
    gateway, [make_request] of the modular one) with what the call
    returned or raised; the HTTP requests the client sends inside one
    call, up to [retries] of them, are the matter of [Gateway]. *)
Inductive event : Type :=
| Api (req : request) (resp : result json)
| Upload (path : string) (resp : result string)
| UploadTransparent (path : string) (resp : result string)
| ImageWrite (path : string)
| ImageRemove (path : string)
| Sleep (seconds : nat).

Definition is_api (e : event) : bool :=
  match e with Api _ _ => true | _ => false end.

Definition is_post (e : event) : bool :=
  match e with Api (POST _ _) _ => true | _ => false end.

Definition is_put (e : event) : bool :=
  match e with Api (PUT _ _) _ => true | _ => false end.

Definition is_upload (e : event) : bool :=
  match e with Upload _ _ | UploadTransparent _ _ => true | _ => false end.

(** The answer to [POST /store/products] as the interface description
    has it: [{"code": c, "result": {"sync_product": {"id": pid},
    "sync_variants": sv}}]. *)
Definition creation_response (c pid sv : json) : json :=
  JDict [("code", c);
         ("result", JDict [("sync_product", JDict [("id", pid)]);
                           ("sync_variants", sv)])].

(** A short view of a trace: the calls made to the outside, with the
    number of references to existing variants and of new variants sent. *)
Inductive call : Type :=
| CallUpload (path : string)
| CallGet
| CallPost (new : nat)
| CallPut (refs new : nat).

Definition is_ref (e : sent_entry) : bool :=
  match e with SentRef _ => true | SentNew _ _ _ => false end.

Definition count_refs (b : body) : nat :=
  length (List.filter is_ref (b_variants b)).

Definition count_new (b : body) : nat :=
  length (List.filter (fun e => negb (is_ref e)) (b_variants b)).

Definition call_of (e : event) : list call :=
  match e with
  | Api (GET _) _ => [CallGet]
  | Api (POST _ b) _ => [CallPost (count_new b)]
  | Api (PUT _ b) _ => [CallPut (count_refs b) (count_new b)]
  | Upload path _ => [CallUpload path]
  | UploadTransparent path _ => [CallUpload path]
  | _ => []
  end.

Definition calls (tr : list event) : list call := flat_map call_of tr.

(** The gateway calls of a trace. *)
Definition api_events (tr : list event) : list event := List.filter is_api tr.

(** The final read of a build failed: the gateway call raised, or the
    answer has no readable code, or a code outside [200, 201]. *)
Definition verification_failed (r : result json) : bool :=
  match r with
  | Raise _ => true
  | Ok info =>
      match Py.get info "code" with
      | Ok c => negb (Py.in_200_201 c)
      | Raise _ => true
      end
  end.

(** ** Collaborators

    The vendor API gateway, the asset store, the image library and the
    variant catalog are injected objects.  Each is an oracle on a state
    [X] of the outside world; [vendor] is a whole gateway call
    ([make_request] or [request]), which returns the parsed response or
    raises. *)
Class World (X : Type) : Type := {
  vendor : request -> X -> result json * X;
  upload_image : string -> X -> result string * X;
  upload_image_with_transparency : string -> X -> result string * X;
  image_open : string -> X -> result unit;
  load_product_variants : string -> X -> result (list variant);
  get_product_info : string -> X -> option string;
  get_available_products : X -> list string;
  format_price : QArith_base.Q -> string
}.

(** ** Process state *)
Record process (X : Type) : Type := {
  ext : X;
  fs : gset string;
  objs : gmap loc (gmap string pyval);
  cache : gmap string string;
  trace : list event
}.

Arguments ext {X} _.
Arguments fs {X} _.
Arguments objs {X} _.
Arguments cache {X} _.
Arguments trace {X} _.

Section Monad.
Context {X : Type}.

Definition M (A : Type) : Type := process X -> result A * process X.

Definition ret {A} (a : A) : M A := fun p => (Py.Ok a, p).

Definition raise {A} (e : exn) : M A := fun p => (Py.Raise e, p).

Definition bind {A B} (c : M A) (k : A -> M B) : M B :=
  fun p =>
    match c p with
    | (Py.Ok a, p') => k a p'
    | (Py.Raise e, p') => (Py.Raise e, p')
    end.

(** [try: c except Exception as e: handler(e)]. *)
Definition try_except {A} (c : M A) (handler : exn -> M A) : M A :=
  fun p =>
    match c p with
    | (Py.Ok a, p') => (Py.Ok a, p')
    | (Py.Raise e, p') => handler e p'
    end.

Definition lift {A} (r : result A) : M A := fun p => (r, p).

Definition log (e : event) : M unit :=
  fun p =>
    (Py.Ok tt,
     {| ext := ext p; fs := fs p; objs := objs p; cache := cache p;
        trace := (trace p ++ [e])%list |}).

(** [time.sleep(seconds)]. *)
Definition sleep (seconds : nat) : M unit := log (Sleep seconds).

(** [os.path.exists(path)]. *)
Definition path_exists (path : string) : M bool :=
  fun p => (Py.Ok (bool_decide (path ∈ fs p)), p).

Definition with_objs {A}
  (f : gmap loc (gmap string pyval) -> A * gmap loc (gmap string pyval))
  : M A :=
  fun p =>
    let '(a, h) := f (objs p) in
    (Py.Ok a,
     {| ext := ext p; fs := fs p; objs := h; cache := cache p;
        trace := trace p |}).

Definition get_objs : M (gmap loc (gmap string pyval)) :=
  fun p => (Py.Ok (objs p), p).

Definition with_ext {A} (f : X -> A * X) : M A :=
  fun p =>
    let '(a, x) := f (ext p) in
    (Py.Ok a,
     {| ext := x; fs := fs p; objs := objs p; cache := cache p;
        trace := trace p |}).

Definition read_ext {A} (f : X -> A) : M A :=
  fun p => (Py.Ok (f (ext p)), p).

End Monad.

Arguments M X A : clear implicits.

Declare Scope proc_scope.
Delimit Scope proc_scope with proc.
Notation "x <- c ;; k" := (bind c (fun x => k))
  (at level 100, c at next level, right associativity) : proc_scope.
Notation "c ;;; k" := (bind c (fun _ => k))
  (at level 100, right associativity) : proc_scope.

Local Open Scope proc_scope.

Section Lifting.
Context {X : Type} `{World X}.

(** A fallible computation on the object store. *)
Definition store_op {A}
  (f : gmap loc (gmap string pyval)
       -> result A * gmap loc (gmap string pyval)) : M X A :=
  r <- with_objs f ;; lift r.

(** [for x in xs: state = body(x, state)]. *)
Fixpoint for_each {A S} (xs : list A) (body : A -> S -> M X S) (s : S)
  : M X S :=
  match xs with
  | [] => ret s
  | x :: xs' => s' <- body x s ;; for_each xs' body s'
  end.

(** [[f(x) for x in xs]] with effects. *)
Fixpoint map_m {A B} (f : A -> M X B) (xs : list A) : M X (list B) :=
  match xs with
  | [] => ret []
  | x :: xs' => y <- f x ;; ys <- map_m f xs' ;; ret (y :: ys)
  end.

(** A gateway call; it is recorded with the serialised body and with what
    it returned or raised. *)
Definition api_call (req : request) : M X json :=
  r <- with_ext (vendor req) ;;
  log (Api req r) ;;;
  lift r.

(** [uploader.upload_image(path)]. *)
Definition uploader_upload_image (path : string) : M X string :=
  r <- with_ext (upload_image path) ;;
  log (Upload path r) ;;;
  lift r.

(** [uploader.upload_image_with_transparency(path)]. *)
Definition uploader_upload_image_with_transparency (path : string)
  : M X string :=
  r <- with_ext (upload_image_with_transparency path) ;;
  log (UploadTransparent path r) ;;;
  lift r.

(** Saving an image creates the file, [os.remove] deletes it. *)
Definition image_save (path : string) : M X unit :=
  fun p =>
    (Py.Ok tt,
     {| ext := ext p; fs := {[path]} ∪ fs p; objs := objs p;
        cache := cache p; trace := (trace p ++ [ImageWrite path])%list |}).

Definition os_remove (path : string) : M X unit :=
  fun p =>
    if bool_decide (path ∈ fs p)
    then (Py.Ok tt,
          {| ext := ext p; fs := fs p ∖ {[path]}; objs := objs p;
             cache := cache p;
             trace := (trace p ++ [ImageRemove path])%list |})
    else (Py.Raise (Py.FileNotFoundError path), p).

End Lifting.

(** [p'] has the files of [p] and the gateway calls of [p]; a
    computation is quiet when it always ends in such a state. *)
Definition quiet {X} (p p' : process X) : Prop :=
  fs p' = fs p /\ api_events (trace p') = api_events (trace p).

Definition quiet_run {X A} (c : M X A) : Prop :=
  forall p, quiet p (snd (c p)).

(** The state [p] after an interaction with the outside that left the
    world in [x] and is recorded as [e]. *)
Definition logged {X} (p : process X) (x : X) (e : event) : process X :=
  {| ext := x; fs := fs p; objs := objs p; cache := cache p;
     trace := (trace p ++ [e])%list |}.

(** The state after a computation that only touched the object store. *)
Definition same_outside {X} (p p' : process X) : Prop :=
  ext p' = ext p /\ trace p' = trace p /\ extends (objs p') (objs p).

Definition is_new (e : sync_entry) : Prop :=
  match e with NewVariant _ _ _ => True | ExistingRef _ => False end.

(** The body sent for [entries] from the state [p]. *)
Definition body_of {X} (name thumbnail : string) (entries : list sync_entry)
  (p : process X) : body :=
  {| b_name := name; b_thumbnail := thumbnail;
     b_variants := map (serialize_entry (objs p)) entries |}.

(** The catalog identifiers and the prices of the new variants of a
    body, in the order sent. *)
Definition sent_variant_ids (b : body) : list Z :=
  flat_map (fun e => match e with
                     | SentNew _ vid _ => [vid]
                     | SentRef _ => []
                     end) (b_variants b).

Definition sent_prices (b : body) : list string :=
  flat_map (fun e => match e with
                     | SentNew rp _ _ => [rp]
                     | SentRef _ => []
                     end) (b_variants b).

(** The gateway calls [l] that take a trace from [p] to [p'], and the
    computations all of whose gateway calls satisfy [Q]. *)
Definition api_suffix {X} (p p' : process X) (l : list event) : Prop :=
  api_events (trace p') = (api_events (trace p) ++ l)%list.

Definition emits_only {X A} (Q : event -> bool) (c : M X A) : Prop :=
  forall p, exists l, api_suffix p (snd (c p)) l /\ forallb Q l = true.

Definition emits {X A} (P : list event -> Prop) (c : M X A) : Prop :=
  forall p, exists l, api_suffix p (snd (c p)) l /\ P l.

Definition no_call (e : event) : bool := false.

Definition is_get_or_put (e : event) : bool :=
  match e with
  | Api (GET _) _ | Api (PUT _ _) _ => true
  | _ => false
  end.

Definition is_get (e : event) : bool :=
  match e with Api (GET _) _ => true | _ => false end.

(** A step that makes the creation request and nothing else, or fails
    before it; a step that starts with one read of the product. *)
Definition creates {X A} (c : M X A) : Prop :=
  forall p, exists l,
    api_suffix p (snd (c p)) l
    /\ ((l = [] /\ Py.is_ok (fst (c p)) = false)
        \/ exists b r, l = [Api (POST StoreProducts b) r]).

Definition creates_at {X A} (c : M X A) (p : process X) : Prop :=
  exists l,
    api_suffix p (snd (c p)) l
    /\ ((l = [] /\ Py.is_ok (fst (c p)) = false)
        \/ exists b r, l = [Api (POST StoreProducts b) r]).

Definition reads {X A} (c : M X A) : Prop :=
  forall p, exists id r,
    api_suffix p (snd (c p)) [Api (GET (StoreProduct id)) r].

(** A step that fails before any gateway call, or whose gateway calls
    start with the creation request and go on with reads and updates
    only. *)
Definition starts_with_creation {X A} (c : M X A) : Prop :=
  forall p, exists l,
    api_suffix p (snd (c p)) l
    /\ ((l = [] /\ Py.is_ok (fst (c p)) = false)
        \/ exists b r rest,
             l = Api (POST StoreProducts b) r :: rest
             /\ forallb is_get_or_put rest = true).

(** The gateway calls of a build start with the creation request, and
    what follows are reads and updates only. *)
Definition creation_first (l : list event) : Prop :=
  l = []
  \/ exists b r rest,
       l = Api (POST StoreProducts b) r :: rest
       /\ forallb is_get_or_put rest = true.

(** The gateway calls of a build without append phase: the creation
    request and the final read. *)
Definition creation_and_read (l : list event) : Prop :=
  l = []
  \/ (exists b r, l = [Api (POST StoreProducts b) r])
  \/ (exists b r id r',
        l = [Api (POST StoreProducts b) r; Api (GET (StoreProduct id)) r']).

End Sys.

(* ===================================================================== *)
(** * [core/file_manager.py] *)
(* ===================================================================== *)

Module FileManager.
Import Placements Sys.
Local Open Scope proc_scope.

Section FileManager.
Context {X : Type} `{World X}.

Definition cache_store (file_path url : string) : M X unit :=
  fun p =>
    (Py.Ok tt,
     {| ext := ext p; fs := fs p; objs := objs p;
        cache := <[file_path := url]> (cache p); trace := trace p |}).

(** [FileManager._upload_with_cache]:
    [if file_path in self._cache: return self._cache[file_path]];
    otherwise upload, store the URL in the cache and return it. *)
Definition _upload_with_cache (file_path : string) : M X string :=
  fun p =>
    match cache p !! file_path with
    | Some url => (Py.Ok url, p)
    | None =>
        (url <- uploader_upload_image file_path ;;
         cache_store file_path url ;;;
         ret url) p
    end.

(** [FileManager.clear_cache]. *)
Definition clear_cache : M X unit :=
  fun p =>
    (Py.Ok tt,
     {| ext := ext p; fs := fs p; objs := objs p; cache := ∅;
        trace := trace p |}).

(** [FileManager.prepare_urls]: the design is mandatory, the logo and the
    upscaled design are uploaded when the files exist. *)
Definition prepare_urls (design_file : string) : M X urls :=
  design <- _upload_with_cache design_file ;;
  let logo_path := "generate/universal_logo.png" in
  has_logo <- path_exists logo_path ;;
  logo <- (if has_logo : bool
           then u <- _upload_with_cache logo_path ;; ret (Some u)
           else ret None) ;;
  let design_name := Py.design_name_of design_file in
  let upscaled_path := String.append "upscaled/" (String.append design_name ".png") in
  has_upscaled <- path_exists upscaled_path ;;
  upscaled <- (if has_upscaled : bool
               then u <- _upload_with_cache upscaled_path ;; ret (Some u)
               else ret None) ;;
  ret {| design_url := design; logo_url := logo;
         upscaled_url := upscaled; logo_black_url := None |}.

(** A session: the upload requests made one after the other, each with
    its outcome (an exception of one request does not stop the next). *)
Fixpoint session (paths : list string) (p : process X)
  : list (result string) * process X :=
  match paths with
  | [] => ([], p)
  | path :: rest =>
      let '(r, p1) := _upload_with_cache path p in
      let '(rs, p2) := session rest p1 in
      (r :: rs, p2)
  end.

End FileManager.

(** The cache holds exactly what the uploader returned: a path is cached
    with a URL when, and only when, an upload of that path returned that
    URL. *)
Definition cache_exact {X : Type} (p : process X) : Prop :=
  forall path url,
    cache p !! path = Some url <-> In (Upload path (Ok url)) (trace p).

(** The uploader invocations for [path] found in a trace, and those among
    them that returned a URL. *)
Definition is_upload_of (path : string) (e : event) : bool :=
  match e with
  | Upload q _ => String.eqb q path
  | _ => false
  end.

Definition is_successful_upload_of (path : string) (e : event) : bool :=
  match e with
  | Upload q (Ok _) => String.eqb q path
  | _ => false
  end.

Definition uploads (path : string) (tr : list event) : list event :=
  List.filter (is_upload_of path) tr.

Definition successful_uploads (path : string) (tr : list event) : nat :=
  length (List.filter (is_successful_upload_of path) tr).

End FileManager.

(* ===================================================================== *)
(** * A scripted outside world *)
(* ===================================================================== *)

(** A test double for the collaborators: the gateway and the asset store
    answer with the replies of a script, in order, and the variant catalog
    is a table. *)
Module Script.
Import Sys.

Record script : Type := {
  api_replies : list (result json);
  upload_replies : list (result string);
  unreadable_images : list string;
  variant_table : list (string * (string * list variant))
}.

Definition next_api (req : request) (x : script) : result json * script :=
  match api_replies x with
  | r :: rest =>
      (r, {| api_replies := rest; upload_replies := upload_replies x;
             unreadable_images := unreadable_images x;
             variant_table := variant_table x |})
  | [] => (Raise (Exception "connection refused"), x)
  end.

Definition next_upload (path : string) (x : script) : result string * script :=
  match upload_replies x with
  | r :: rest =>
      (r, {| api_replies := api_replies x; upload_replies := rest;
             unreadable_images := unreadable_images x;
             variant_table := variant_table x |})
  | [] => (Raise (Exception "Errore rete Cloudinary"), x)
  end.

(** [f"{price:.2f}"] for a price given as a rational: the sign, then the
    absolute value rounded to the nearest cent, a tie going to the even
    cent. *)
Definition two_decimals (q : QArith_base.Q) : string :=
  let n := QArith_base.Qnum q in
  let d := Z.pos (QArith_base.Qden q) in
  let hundredths := (Z.abs n * 100)%Z in
  let floor := (hundredths / d)%Z in
  let twice := (2 * (hundredths mod d))%Z in
  let cents :=
    if (twice <? d)%Z then floor
    else if (d <? twice)%Z then (floor + 1)%Z
    else if Z.even floor then floor else (floor + 1)%Z in
  let frac := (cents mod 100)%Z in
  String.append (if (n <? 0)%Z then "-" else EmptyString)
    (String.append (pretty (cents / 100)%Z)
       (String.append "."
          (String.append (if (frac <? 10)%Z then "0" else EmptyString)
                         (pretty frac)))).

#[export] Instance scripted : World script := {
  vendor := next_api;
  upload_image := next_upload;
  upload_image_with_transparency := next_upload;
  image_open path x :=
    if existsb (String.eqb path) (unreadable_images x)
    then Raise (Exception "cannot identify image file")
    else Ok tt;
  load_product_variants product_type x :=
    match Py.assoc product_type (variant_table x) with
    | Some (_, vs) => Ok vs
    | None => Raise (ValueError "Prodotto non trovato")
    end;
  get_product_info product_type x :=
    match Py.assoc product_type (variant_table x) with
    | Some (name, _) => Some name
    | None => None
    end;
  get_available_products x := map fst (variant_table x);
  format_price := two_decimals
}.

(** A process at the start of a session: nothing cached, nothing done
    yet, the catalogs loaded. *)
Definition start (x : script) (files : list string) : process script :=
  {| ext := x; fs := list_to_set files; objs := Placements.loaded_objs;
     cache := ∅; trace := [] |}.

(** ** Fixtures *)

(** Variants numbered from 1, at 25.00 each. *)
Definition sample_variant (n : nat) : variant :=
  {| variant_id := Z.of_nat n; price := QArith_base.Qmake 2500 100 |}.

Definition sample_variants (k : nat) : list variant :=
  map sample_variant (seq 1 k).

(** The documented answer to the creation call, for product 42. *)
Definition created_42 : json :=
  creation_response (JInt 200) (JInt 42) (JList []).

(** An answer to the creation call with the identifier at
    [result.id] as well. *)
Definition created_42_flat : json :=
  JDict [("code", JInt 200);
         ("result", JDict [("id", JInt 42);
                           ("sync_product", JDict [("id", JInt 42)]);
                           ("sync_variants", JList [])])].

(** The answer to a read of product 42 holding the remote variants
    [1 .. k], and an error answer. *)
Definition product_42 (k : nat) : json :=
  JDict [("code", JInt 200);
         ("result",
          JDict [("sync_product", JDict [("id", JInt 42)]);
                 ("sync_variants",
                  JList (map (fun i => JDict [("id", JInt (Z.of_nat i))])
                             (seq 1 k)))])].

Definition error_500 : json :=
  JDict [("code", JInt 500); ("result", JStr "Internal error")].

Definition shirts (k : nat) : list (string * (string * list variant)) :=
  [("gildan_5000", ("Gildan 5000", sample_variants k))].

Definition beanies (k : nat) : list (string * (string * list variant)) :=
  [("as_colour_1120", ("AS Colour 1120", sample_variants k))].

Definition world (api : list (result json)) (uploads : list (result string))
  (table : list (string * (string * list variant))) : script :=
  {| api_replies := api; upload_replies := uploads;
     unreadable_images := []; variant_table := table |}.

End Script.

(* ===================================================================== *)
(** * [core/product_builder.py]: the clean builder *)
(* ===================================================================== *)

Module CoreBuilder.
Import Placements Sys FileManager.
Local Open Scope proc_scope.

(** The dictionary returned by [build]. *)
Inductive build_result : Type :=
| Built (product_id : json) (product_name product_type : string)
        (variants_count : nat) (final : json)
| Failed (error : exn) (product_type : string).

Definition success (r : build_result) : bool :=
  match r with Built _ _ _ _ _ => true | Failed _ _ => false end.

Section Builder.
Context {X : Type} `{World X}.
(** The tables of [config/placements.py] after import. *)
Variable pm : placements_module.

(** [create_left_aligned_image] of [core/image_processor.py], as far as
    files are concerned: the source is opened and the composed image is
    saved next to it as [{base}_hat_left{ext}]. *)
Definition create_left_aligned_image (image_path : string) : M X string :=
  r <- read_ext (image_open image_path) ;;
  lift r ;;;
  let '(base, ext) := Py.splitext image_path in
  let temp_path := String.append base (String.append "_hat_left" ext) in
  image_save temp_path ;;;
  ret temp_path.

Definition set_design_url (u : urls) (url : string) : urls :=
  {| design_url := url; logo_url := logo_url u;
     upscaled_url := upscaled_url u; logo_black_url := logo_black_url u |}.

Definition set_logo_black_url (u : urls) (url : string) : urls :=
  {| design_url := design_url u; logo_url := logo_url u;
     upscaled_url := upscaled_url u; logo_black_url := Some url |}.

Definition ricami_path (design_name : string) : string :=
  String.append "ricami/" (String.append design_name ".png").

(** [ProductBuilder._prepare_urls_for_product].  [urls] is a dictionary
    updated in place: an assignment made inside a [try] block survives an
    exception raised later in the block. *)
Definition _prepare_urls_for_product (design_file product_type : string)
  : M X urls :=
  urls0 <- prepare_urls design_file ;;
  let design_name := Py.design_name_of design_file in
  if String.eqb product_type "yupoong_6089m" then
    let hat_optimized_path := ricami_path design_name in
    optimized <- path_exists hat_optimized_path ;;
    let source_file :=
      if optimized : bool then hat_optimized_path else design_file in
    urls1 <- try_except
      (left_aligned_path <- create_left_aligned_image source_file ;;
       url <- _upload_with_cache left_aligned_path ;;
       let urls1 := set_design_url urls0 url in
       try_except (os_remove left_aligned_path ;;; ret urls1)
                  (fun _ => ret urls1))
      (fun _ => ret urls0) ;;
    let logo_black_path := "generate/logo_black.png" in
    has_black <- path_exists logo_black_path ;;
    if has_black : bool
    then url <- _upload_with_cache logo_black_path ;;
         ret (set_logo_black_url urls1 url)
    else ret urls1
  else if String.eqb product_type "as_colour_1120" then
    let source_file := ricami_path design_name in
    present <- path_exists source_file ;;
    if negb present
    then raise (Py.Exception "File ottimizzato per beanie non trovato")
    else
      r <- read_ext (image_open source_file) ;;
      lift r ;;;
      let temp_path :=
        String.append "ricami/" (String.append design_name "_beanie_scaled.png") in
      image_save temp_path ;;;
      url <- _upload_with_cache temp_path ;;
      os_remove temp_path ;;;
      ret (set_design_url urls0 url)
  else ret urls0.

(** [ProductBuilder._build_variants_payload]. *)
Definition _build_variants_payload (product_type : string)
  (variants : list variant) (u : urls) : M X (list sync_entry) :=
  map_m (fun v =>
           files_config <-
             store_op (_build_files_config PRODUCTS (ALL_PLACEMENTS pm)
                         product_type u) ;;
           ret (NewVariant (format_price (price v)) (variant_id v)
                           files_config))
        variants.

(** The JSON body of a POST or PUT, serialised when it is sent. *)
Definition send (mk : body -> request) (name thumbnail : string)
  (entries : list sync_entry) : M X json :=
  h <- get_objs ;;
  api_call (mk {| b_name := name; b_thumbnail := thumbnail;
                  b_variants := map (serialize_entry h) entries |}).

(** [[{"id": v["id"]} for v in current["result"]["sync_variants"]]]. *)
Definition existing_of (current : json) : result (list sync_entry) :=
  Py.result_bind (Py.subscript current "result") (fun res =>
  Py.result_bind (Py.subscript res "sync_variants") (fun sv =>
  Py.result_bind (Py.iter sv) (fun items =>
  Py.result_map (fun v =>
    Py.result_bind (Py.subscript v "id") (fun id => Py.Ok (ExistingRef id)))
    items))).

(** [ProductBuilder._add_variants_batch]: read the product, replay the
    existing variants followed by the new ones; the answer of the PUT is
    not inspected. *)
Definition _add_variants_batch (product_id : json)
  (product_name product_type : string) (batch : list variant) (u : urls)
  : M X unit :=
  current <- api_call (GET (StoreProduct product_id)) ;;
  existing <- lift (existing_of current) ;;
  new_variants <- _build_variants_payload product_type batch u ;;
  send (PUT (StoreProduct product_id)) product_name (design_url u)
       (existing ++ new_variants)%list ;;;
  ret tt.

(** [response["result"]["id"]]. *)
Definition product_id_of (response : json) : result json :=
  Py.result_bind (Py.subscript response "result") (fun res =>
  Py.subscript res "id").

(** Phase 1 of [_create_product]: the POST of the initial batch and the
    product identifier read from [response["result"]["id"]]. *)
Definition create_initial (product_name product_type : string)
  (variants : list variant) (u : urls) : M X json :=
  let initial_batch := Planner.core_initial_batch variants in
  initial <- _build_variants_payload product_type initial_batch u ;;
  response <- send (POST StoreProducts) product_name (design_url u) initial ;;
  code <- lift (Py.get response "code") ;;
  if negb (Py.in_200_201 code)
  then raise (Py.Exception "Creazione fallita")
  else lift (product_id_of response).

(** Phase 2 of [_create_product]: one [_add_variants_batch] and a pause
    of two seconds per append batch. *)
Definition append_remaining (product_id : json)
  (product_name product_type : string) (variants : list variant) (u : urls)
  : M X unit :=
  for_each (Planner.core_append_batches variants)
    (fun batch _ =>
       _add_variants_batch product_id product_name product_type batch u ;;;
       sleep 2)
    tt.

(** [ProductBuilder._create_product]. *)
Definition _create_product (product_name product_type : string)
  (variants : list variant) (u : urls) : M X json :=
  product_id <- create_initial product_name product_type variants u ;;
  append_remaining product_id product_name product_type variants u ;;;
  ret product_id.

(** The final read-back of [build] and the dictionary it returns. *)
Definition verify (product_id : json) (product_name product_type : string)
  : M X build_result :=
  final_product <- api_call (GET (StoreProduct product_id)) ;;
  res <- lift (Py.subscript final_product "result") ;;
  sv <- lift (Py.subscript res "sync_variants") ;;
  n <- lift (Py.len sv) ;;
  ret (Built product_id product_name product_type n res).

(** The body of the [try] block of [build] up to the creation. *)
Definition create (design_file product_type : string)
  : M X (json * string) :=
  let design_name := Py.design_name_of design_file in
  name <- lift (get_product_name PRODUCTS product_type) ;;
  let product_name := String.append design_name (String.append " - " name) in
  r <- read_ext (load_product_variants product_type) ;;
  variant_list <- lift r ;;
  u <- _prepare_urls_for_product design_file product_type ;;
  product_id <- _create_product product_name product_type variant_list u ;;
  ret (product_id, product_name).

(** [ProductBuilder.build]. *)
Definition build (design_file product_type : string) : M X build_result :=
  try_except
    (created <- create design_file product_type ;;
     verify (fst created) (snd created) product_type)
    (fun e => ret (Failed e product_type)).

End Builder.

(** [[v["id"] for v in current["result"]["sync_variants"]]]: the
    identifiers that [existing_of] wraps. *)
Definition current_ids (current : json) : result (list json) :=
  Py.result_bind (Py.subscript current "result") (fun res =>
  Py.result_bind (Py.subscript res "sync_variants") (fun sv =>
  Py.result_bind (Py.iter sv) (fun items =>
  Py.result_map (fun v => Py.subscript v "id") items))).

(** The references to existing variants sent in a body. *)
Definition sent_refs (b : body) : list json :=
  flat_map (fun e => match e with SentRef id => [id] | SentNew _ _ _ => [] end)
           (b_variants b).

(** The exchanges of the append phase of the clean builder for product
    [id]: reads of the product, each followed by an update of the product
    that carries, as references, the identifiers of the variants just
    read; only the last read may be left without its update. *)
Fixpoint read_then_update (id : json) (l : list event) : Prop :=
  match l with
  | [] => True
  | Api (GET (StoreProduct i)) r :: rest =>
      i = id
      /\ match rest with
         | [] => True
         | Api (PUT (StoreProduct j) b) _ :: rest' =>
             j = id
             /\ (exists cur, r = Ok cur /\ current_ids cur = Ok (sent_refs b))
             /\ read_then_update id rest'
         | _ => False
         end
  | _ => False
  end.

End CoreBuilder.

(* ===================================================================== *)
(** * [modules/product_creator/product_builder.py]: the modular builder *)
(* ===================================================================== *)

Module ModularBuilder.
Import Placements Sys.
Local Open Scope proc_scope.

(** The dictionaries returned by [build_single_product]: the success
    record, the two early failure records and the record built by the
    exception handler. *)
Inductive build_result : Type :=
| Built (product_id sync_product sync_variants : json)
        (product_type design_file : string)
        (total_variants_requested total_variants_created : nat) (u : urls)
| Incompatible
| FinalStateError (final_info : json) (product_type : string)
| Failed (error : exn) (product_type design_file : string).

Definition success (r : build_result) : bool :=
  match r with Built _ _ _ _ _ _ _ _ => true | _ => false end.

Section Builder.
Context {X : Type} `{World X}.
(** The tables of [placement_config.py] after import. *)
Variable pcm : placement_config_module.

(** [ProductBuilder._prepare_product_urls]: the design upload is
    mandatory; failures of the two optional uploads are only printed. *)
Definition _prepare_product_urls (design_file : string) : M X urls :=
  design <- try_except (uploader_upload_image design_file)
              (fun _ => raise (Py.Exception "Errore upload design")) ;;
  let design_name := Py.design_name_of design_file in
  let logo_file := "generate/universal_logo.png" in
  has_logo <- path_exists logo_file ;;
  logo <- (if has_logo : bool
           then try_except (u <- uploader_upload_image logo_file ;; ret (Some u))
                           (fun _ => ret None)
           else ret None) ;;
  let upscaled_file :=
    String.append "upscaled/" (String.append design_name ".png") in
  has_upscaled <- path_exists upscaled_file ;;
  upscaled <- (if has_upscaled : bool
               then try_except
                      (u <- uploader_upload_image_with_transparency upscaled_file ;;
                       ret (Some u))
                      (fun _ => ret None)
               else ret None) ;;
  ret {| design_url := design; logo_url := logo;
         upscaled_url := upscaled; logo_black_url := None |}.

(** [ProductBuilder._create_variant_payload]. *)
Definition _create_variant_payload (v : variant) (product_type : string)
  (u : urls) : M X sync_entry :=
  files_config <-
    store_op (create_variant_files_config PRODUCT_PLACEMENTS pcm product_type
                (design_url u) (logo_url u) (upscaled_url u)) ;;
  ret (NewVariant (format_price (price v)) (variant_id v) files_config).

Definition send (mk : body -> request) (name thumbnail : string)
  (entries : list sync_entry) : M X json :=
  h <- get_objs ;;
  api_call (mk {| b_name := name; b_thumbnail := thumbnail;
                  b_variants := map (serialize_entry h) entries |}).

(** [ProductBuilder._create_initial_product]. *)
Definition _create_initial_product (product_name design : string)
  (initial_variants : list variant) (product_type : string) (u : urls)
  : M X json :=
  sync_variants <-
    map_m (fun v => _create_variant_payload v product_type u)
          initial_variants ;;
  response <- send (POST StoreProducts) product_name design sync_variants ;;
  code <- lift (Py.get response "code") ;;
  if negb (Py.in_200_201 code)
  then raise (Py.Exception "Errore creazione prodotto")
  else ret response.

(** [[{"id": v.get("id")} for v in current_variants]]. *)
Definition existing_refs (current_variants : json)
  : result (list sync_entry) :=
  Py.result_bind (Py.iter current_variants) (fun items =>
  Py.result_map (fun v =>
    Py.result_bind (Py.get v "id") (fun id => Py.Ok (ExistingRef id)))
    items).

(** [info["result"].get("sync_variants", [])]. *)
Definition sync_variants_of (info : json) : result json :=
  Py.result_bind (Py.subscript info "result") (fun res =>
  Py.get_default res "sync_variants" (JList [])).

(** One iteration of the loop of [_add_remaining_variants_batch]; the
    loop variable [current_variants] is passed in and returned. *)
Definition append_batch (product_id : json) (remaining : list variant)
  (product_type : string) (u : urls) (product_name design : string)
  (batch_num : nat) (current_variants : json) : M X json :=
  let batch_variants := Planner.modular_batch remaining batch_num in
  batch_sync_variants <-
    map_m (fun v => _create_variant_payload v product_type u)
          batch_variants ;;
  existing <- lift (existing_refs current_variants) ;;
  batch_response <-
    send (PUT (StoreProduct product_id)) product_name design
         (existing ++ batch_sync_variants)%list ;;
  code <- lift (Py.get batch_response "code") ;;
  if negb (Py.in_200_201 code)
  then ret current_variants
  else
    updated_info <- api_call (GET (StoreProduct product_id)) ;;
    code' <- lift (Py.get updated_info "code") ;;
    current' <- (if Py.in_200_201 code'
                 then lift (sync_variants_of updated_info)
                 else ret current_variants) ;;
    (if batch_num <? Planner.total_batches remaining - 1
     then sleep 2 else ret tt) ;;;
    ret current'.

(** [ProductBuilder._add_remaining_variants_batch]. *)
Definition _add_remaining_variants_batch (product_id : json)
  (remaining : list variant) (product_type : string) (u : urls)
  (product_name design : string) : M X json :=
  match remaining with
  | [] => ret (JList [])
  | _ :: _ =>
      current_info <- api_call (GET (StoreProduct product_id)) ;;
      code <- lift (Py.get current_info "code") ;;
      if negb (Py.in_200_201 code)
      then raise (Py.Exception "Errore recupero prodotto")
      else
        current_variants <- lift (sync_variants_of current_info) ;;
        for_each (Py.range (Planner.total_batches remaining))
          (append_batch product_id remaining product_type u product_name
                        design)
          current_variants
  end.

(** [creation_response["result"]["sync_product"]["id"]]. *)
Definition product_id_of (creation_response : json) : result json :=
  Py.result_bind (Py.subscript creation_response "result") (fun res =>
  Py.result_bind (Py.subscript res "sync_product") (fun sp =>
  Py.subscript sp "id")).

(** Step 6 of [build_single_product]: the creation call and the product
    identifier read from
    [creation_response["result"]["sync_product"]["id"]]. *)
Definition create_initial (product_name product_type : string)
  (variants : list variant) (u : urls) : M X json :=
  let initial_variants := Planner.modular_initial_batch variants in
  creation_response <-
    _create_initial_product product_name (design_url u) initial_variants
                            product_type u ;;
  lift (product_id_of creation_response).

(** Step 7: the append phase, entered only [if remaining_variants]. *)
Definition append_remaining (product_id : json) (product_name product_type : string)
  (variants : list variant) (u : urls) : M X unit :=
  let remaining_variants := Planner.modular_remaining variants in
  match remaining_variants with
  | [] => ret tt
  | _ :: _ =>
      _add_remaining_variants_batch product_id remaining_variants
        product_type u product_name (design_url u) ;;;
      ret tt
  end.

(** Step 8: the final read-back and the dictionary returned. *)
Definition verify (product_id : json) (design_file product_type : string)
  (variants : list variant) (u : urls) : M X build_result :=
  final_info <- api_call (GET (StoreProduct product_id)) ;;
  code <- lift (Py.get final_info "code") ;;
  if negb (Py.in_200_201 code)
  then ret (FinalStateError final_info product_type)
  else
    final_product_info <- lift (Py.subscript final_info "result") ;;
    sync_product <-
      lift (Py.get_default final_product_info "sync_product" (JDict [])) ;;
    sync_variants <-
      lift (Py.get_default final_product_info "sync_variants" (JList [])) ;;
    created <- lift (Py.len sync_variants) ;;
    ret (Built product_id sync_product sync_variants product_type design_file
               (length variants) created u).

(** Steps 5 to 7: naming, creation and appends. *)
Definition create (design_file product_type : string)
  (variants : list variant) (product_info : option string) (u : urls)
  : M X json :=
  let design_name := Py.design_name_of design_file in
  info_name <- (match product_info with
                | Some n => ret n
                | None => raise Py.TypeError
                end) ;;
  let product_name :=
    String.append design_name (String.append " - " info_name) in
  product_id <- create_initial product_name product_type variants u ;;
  append_remaining product_id product_name product_type variants u ;;;
  ret product_id.

(** [ProductBuilder.build_single_product]. *)
Definition build_single_product (design_file product_type : string)
  : M X build_result :=
  try_except
    (r <- read_ext (load_product_variants product_type) ;;
     variants <- lift r ;;
     product_info <- read_ext (get_product_info product_type) ;;
     if negb (validate_product_compatibility PRODUCT_PLACEMENTS product_type)
     then ret Incompatible
     else
       u <- _prepare_product_urls design_file ;;
       product_id <- create design_file product_type variants product_info u ;;
       verify product_id design_file product_type variants u)
    (fun e => ret (Failed e product_type design_file)).

End Builder.

(** ** Reading the append protocol off a trace *)

(** [[v.get("id") for v in current_variants]]: the identifiers that
    [existing_refs] wraps. *)
Definition ref_ids_of (current_variants : json) : result (list json) :=
  Py.result_bind (Py.iter current_variants) (fun items =>
  Py.result_map (fun v => Py.get v "id") items).

(** The variant list an answer to a read confirms: the answer must carry
    a code in [200, 201], as the loop requires before it replaces
    [current_variants]. *)
Definition confirmed_by (resp : result json) : option json :=
  match resp with
  | Ok info =>
      match Py.get info "code" with
      | Ok c =>
          if Py.in_200_201 c
          then match sync_variants_of info with
               | Ok sv => Some sv
               | Raise _ => None
               end
          else None
      | Raise _ => None
      end
  | Raise _ => None
  end.

Definition confirm (current : option json) (e : event) : option json :=
  match e with
  | Api (GET _) resp =>
      match confirmed_by resp with
      | Some sv => Some sv
      | None => current
      end
  | _ => current
  end.

(** The last successfully confirmed remote variant list of a trace. *)
Definition last_confirmed (tr : list event) : option json :=
  fold_left confirm tr None.

(** The references to existing variants sent in a body, and the bodies of
    the PUT requests of a trace. *)
Definition sent_refs (b : body) : list json :=
  flat_map (fun e => match e with SentRef id => [id] | SentNew _ _ _ => [] end)
           (b_variants b).

Definition put_bodies (tr : list event) : list body :=
  flat_map (fun e => match e with Api (PUT _ b) _ => [b] | _ => [] end) tr.

(** Every PUT of [evs] carries, as references, the identifiers of the
    list last confirmed by the reads made before it ([before] holds the
    events that precede [evs]). *)
Fixpoint puts_use_confirmed (before evs : list event) : Prop :=
  match evs with
  | [] => True
  | e :: evs' =>
      match e with
      | Api (PUT _ b) _ =>
          exists cv, last_confirmed before = Some cv
                     /\ ref_ids_of cv = Ok (sent_refs b)
      | _ => True
      end
      /\ puts_use_confirmed (before ++ [e]) evs'
  end.

(** ** A cooperative vendor

    The gateway never raises; every answer is a dictionary with a
    readable code, and an answer to a read with a code in [200, 201]
    carries a variant list whose items have a readable [id]. *)
Definition answer_ok (req : request) (resp : result json) : Prop :=
  match resp with
  | Raise _ => False
  | Ok info =>
      exists c, Py.get info "code" = Ok c
        /\ match req with
           | GET _ =>
               Py.in_200_201 c = true ->
               exists sv ids, sync_variants_of info = Ok sv
                              /\ ref_ids_of sv = Ok ids
           | _ => True
           end
  end.

Definition cooperative (X : Type) `{World X} : Prop :=
  forall req x, answer_ok req (fst (vendor req x)).

(** What the append loop keeps from one iteration to the next: the
    catalog is well formed, and [current_variants] is the list last
    confirmed by a read, with readable identifiers. *)
Definition loop_inv {X} (pcm : placement_config_module) (p : process X)
  (cv : json) : Prop :=
  catalog_ok pcm (objs p)
  /\ last_confirmed (trace p) = Some cv
  /\ exists ids, ref_ids_of cv = Ok ids.

End ModularBuilder.

(* ===================================================================== *)
(** * A simulated vendor *)
(* ===================================================================== *)

(** A vendor that keeps product 42: a read answers with the remote
    variants, a creation or an update replaces them by what is sent,
    unless the next entry of [outages] tells the update to fail with
    code 500. *)
Module Vendor.
Import Sys.

Record server : Type := {
  remote : nat;
  outages : list bool
}.

Definition answer_read (s : server) : json :=
  JDict [("code", JInt 200);
         ("result",
          JDict [("sync_product", JDict [("id", JInt 42)]);
                 ("sync_variants",
                  JList (map (fun i => JDict [("id", JInt (Z.of_nat i))])
                             (seq 1 (remote s))))])].

Definition answer_error : json :=
  JDict [("code", JInt 500); ("result", JStr "Internal error")].

Definition serve (req : request) (s : server) : result json * server :=
  match req with
  | GET _ => (Ok (answer_read s), s)
  | POST _ b =>
      (Ok (creation_response (JInt 200) (JInt 42) (JList [])),
       {| remote := length (b_variants b); outages := outages s |})
  | PUT _ b =>
      match outages s with
      | true :: rest =>
          (Ok answer_error, {| remote := remote s; outages := rest |})
      | false :: rest =>
          (Ok (answer_read {| remote := length (b_variants b);
                              outages := rest |}),
           {| remote := length (b_variants b); outages := rest |})
      | [] =>
          (Ok (answer_read {| remote := length (b_variants b);
                              outages := [] |}),
           {| remote := length (b_variants b); outages := [] |})
      end
  end.

#[export] Instance simulated : World server := {
  vendor := serve;
  upload_image path s := (Ok (String.append "https://img/" path), s);
  upload_image_with_transparency path s :=
    (Ok (String.append "https://img/" path), s);
  image_open path s := Ok tt;
  load_product_variants product_type s :=
    Ok (map (fun n => {| variant_id := Z.of_nat n;
                         price := QArith_base.Qmake 2500 100 |})
            (seq 1 45));
  get_product_info product_type s := Some product_type;
  get_available_products s := ["gildan_5000"];
  format_price := Script.two_decimals
}.

Definition start (s : server) : process server :=
  {| ext := s; fs := ∅; objs := Placements.loaded_objs;
     cache := ∅; trace := [] |}.

End Vendor.

(* ===================================================================== *)
(** * The vendor API gateways *)
(* ===================================================================== *)

Module Gateway.

(** The [Retry-After] header of a response, as
    [int(response.headers.get('Retry-After', 60))] sees it: the header is
    absent (the default 60 is used), it is a string that [int] converts
    to an integer (which may be negative), or it is a string for which
    [int] raises [ValueError] (an HTTP date, a decimal number). *)
Inductive retry_after_header : Type :=
| Absent
| Integer (seconds : Z)
| Malformed.

(** What one HTTP exchange of the [requests] library ends in: a timeout,
    another transport failure, or a response with its status code, its
    [Retry-After] header and its body parsed as JSON ([None] when the
    body is not JSON). *)
Inductive outcome : Type :=
| Timeout
| ConnectionError
| Response (status : Z) (retry_after : retry_after_header)
           (parsed : option json).

(** [int(response.headers.get('Retry-After', 60))]. *)
Definition wait_time_of (retry_after : retry_after_header) : result Z :=
  match retry_after with
  | Absent => Ok 60%Z
  | Integer seconds => Ok seconds
  | Malformed => Raise (ValueError "invalid literal for int() with base 10")
  end.

(** What a gateway call does, in order. *)
Inductive step : Type :=
| Exchange (attempt : nat)
| Wait (seconds : nat)
| RateLimitWait.

Definition is_exchange (s : step) : bool :=
  match s with Exchange _ => true | _ => false end.

Definition exchanges (steps : list step) : nat :=
  length (List.filter is_exchange steps).

Definition supported (method : string) : bool :=
  String.eqb method "GET" || String.eqb method "POST"
  || String.eqb method "PUT" || String.eqb method "DELETE".

Definition after (s : list step) (r : result json * list step)
  : result json * list step :=
  (fst r, (s ++ snd r)%list).

(** [response.raise_for_status()] raises [HTTPError], a
    [RequestException], for the client and server error codes. *)
Definition is_http_error (status : Z) : bool :=
  (400 <=? status)%Z && (status <? 600)%Z.

Section Calls.
(** The outcome of the exchange made in the attempt of a given index. *)
Variable net : nat -> outcome.
Variable method : string.
Variable retries : nat.

(** ** [core/api_client.py]: [PrintfulAPIClient.request]

    The iterations of [for attempt in range(retries)].  An unsupported
    method raises [ValueError], which no handler of the loop catches.  On
    a 429 the [Retry-After] header is converted with [int] whatever the
    attempt, and the [ValueError] of a header that is not an integer
    leaves the loop as well; while attempts remain the 429 is waited out
    with [time.sleep(wait_time)], which raises [ValueError] for a
    negative number.  [raise_for_status] turns every 4xx/5xx status into
    a [RequestException], handled like a connection error: retried after
    [2 ** attempt] seconds, and raised as [Exception] on the last
    attempt.  The [JSONDecodeError] of [response.json()] is a
    [RequestException] as well. *)
Fixpoint core_attempts (todo : list nat) : result json * list step :=
  match todo with
  | [] => (Raise (Exception "Tutti i tentativi falliti"), [])
  | attempt :: rest =>
      if negb (supported method)
      then (Raise (ValueError "Metodo HTTP non supportato"), [])
      else
        let retry_or_raise (e : exn) : result json * list step :=
          if attempt <? retries - 1
          then after [Exchange attempt; Wait (2 ^ attempt)] (core_attempts rest)
          else (Raise e, [Exchange attempt]) in
        match net attempt with
        | Timeout => retry_or_raise (Exception "Timeout")
        | ConnectionError => retry_or_raise (Exception "Errore richiesta")
        | Response status retry_after parsed =>
            let checked : result json * list step :=
              if is_http_error status
              then retry_or_raise (Exception "Errore richiesta")
              else
                match parsed with
                | Some j => (Ok j, [Exchange attempt])
                | None => retry_or_raise (Exception "Errore richiesta")
                end in
            if (status =? 429)%Z
            then
              match wait_time_of retry_after with
              | Raise e => (Raise e, [Exchange attempt])
              | Ok wait_time =>
                  if attempt <? retries - 1
                  then
                    if (wait_time <? 0)%Z
                    then (Raise (ValueError
                                   "sleep length must be non-negative"),
                          [Exchange attempt])
                    else after [Exchange attempt; Wait (Z.to_nat wait_time)]
                               (core_attempts rest)
                  else checked
              end
            else checked
        end
  end.

Definition request : result json * list step :=
  core_attempts (Py.range retries).

(** ** [modules/product_creator/api_client.py]: [make_request]

    Every attempt starts with [_wait_for_rate_limit].  [_validate_response]
    returns the parsed body whatever the status code (a status outside
    [200, 201] is only printed) and raises [Exception] when the body is
    not JSON; that exception and the [ValueError] of an unsupported method
    meet the generic handler, which waits one second and retries, and
    re-raises on the last attempt. *)
Fixpoint modular_attempts (todo : list nat) : result json * list step :=
  match todo with
  | [] => (Raise (Exception "Tutti i tentativi falliti"), [])
  | attempt :: rest =>
      let backoff := (attempt + 1) * 2 in
      if negb (supported method)
      then
        if attempt <? retries - 1
        then after [RateLimitWait; Wait 1] (modular_attempts rest)
        else (Raise (ValueError "Metodo HTTP non supportato"), [RateLimitWait])
      else
        match net attempt with
        | Timeout =>
            if attempt <? retries - 1
            then after [RateLimitWait; Exchange attempt; Wait backoff]
                       (modular_attempts rest)
            else (Raise (Exception "Timeout definitivo"),
                  [RateLimitWait; Exchange attempt])
        | ConnectionError =>
            if attempt <? retries - 1
            then after [RateLimitWait; Exchange attempt; Wait backoff]
                       (modular_attempts rest)
            else (Raise (Exception "Errore rete"),
                  [RateLimitWait; Exchange attempt])
        | Response status retry_after parsed =>
            match parsed with
            | Some j => (Ok j, [RateLimitWait; Exchange attempt])
            | None =>
                if attempt <? retries - 1
                then after [RateLimitWait; Exchange attempt; Wait 1]
                           (modular_attempts rest)
                else (Raise (Exception "Risposta non JSON"),
                      [RateLimitWait; Exchange attempt])
            end
        end
  end.

Definition make_request : result json * list step :=
  modular_attempts (Py.range retries).

End Calls.

(** The outcomes after which [make_request] tries again. *)
Definition transient (o : outcome) : bool :=
  match o with
  | Timeout | ConnectionError => true
  | Response _ _ None => true
  | Response _ _ (Some _) => false
  end.

(** The seconds slept during a call, in order, and their sum. *)
Definition waits (steps : list step) : list nat :=
  flat_map (fun s => match s with Wait n => [n] | _ => [] end) steps.

Definition total_wait (steps : list step) : nat := list_sum (waits steps).

(** The failures of the transport itself. *)
Definition transport_failure (o : outcome) : bool :=
  match o with
  | Timeout | ConnectionError => true
  | Response _ _ _ => false
  end.

(** A rate-limit answer. *)
Definition is_rate_limited (o : outcome) : bool :=
  match o with
  | Response status _ _ => (status =? 429)%Z
  | _ => false
  end.

(** The [ValueError] with which a rate-limit answer ends the call of the
    clean gateway: that of [int] on a header that is not an integer, at
    any attempt, and that of [time.sleep] on a negative number, at an
    attempt that is not the last. *)
Definition rate_limit_error (last : bool) (o : outcome) : option exn :=
  match o with
  | Response status retry_after _ =>
      if (status =? 429)%Z
      then
        match wait_time_of retry_after with
        | Raise e => Some e
        | Ok wait_time =>
            if negb last && (wait_time <? 0)%Z
            then Some (ValueError "sleep length must be non-negative")
            else None
        end
      else None
  | _ => None
  end.

(** The outcomes that make an attempt of [request] fail in a way its
    handlers deal with: transport failures, every 4xx/5xx status whose
    rate-limit header raises no [ValueError], and bodies that are not
    JSON.  After such an outcome the clean gateway tries again, or gives
    up with [Exception] when the attempt is its last. *)
Definition core_failed (last : bool) (o : outcome) : bool :=
  match o with
  | Timeout | ConnectionError => true
  | Response status _ parsed =>
      match rate_limit_error last o with
      | Some _ => false
      | None =>
          is_http_error status
          || match parsed with Some _ => false | None => true end
      end
  end.

(** The same for an attempt that is not the last, and for the last. *)
Definition core_retryable (o : outcome) : bool := core_failed false o.

Definition core_gives_up (o : outcome) : bool := core_failed true o.

(** The pause a rate-limit answer asks for: the seconds of [Retry-After],
    60 when the header is absent. *)
Definition retry_after_of (o : outcome) : nat :=
  match o with
  | Response _ (Integer seconds) _ => Z.to_nat seconds
  | _ => 60
  end.

(** A rate-limit answer the clean gateway can wait out: its header is
    absent or a non-negative integer. *)
Definition waitable (o : outcome) : bool :=
  match o with
  | Response _ Absent _ => true
  | Response _ (Integer seconds) _ => (0 <=? seconds)%Z
  | _ => false
  end.

(** The pause each gateway makes after a failed attempt that is not its
    last: the clean gateway waits out a 429 and otherwise sleeps
    [2 ** attempt]; the modular one sleeps [(attempt + 1) * 2] after a
    transport failure and one second after a body that is not JSON. *)
Definition core_pause (attempt : nat) (o : outcome) : nat :=
  if is_rate_limited o then retry_after_of o else 2 ^ attempt.

Definition modular_pause (attempt : nat) (o : outcome) : nat :=
  if transport_failure o then (attempt + 1) * 2 else 1.

(** The exception each gateway raises when its last attempt fails. *)
Definition core_error (o : outcome) : exn :=
  match o with
  | Timeout => Exception "Timeout"
  | _ => Exception "Errore richiesta"
  end.

Definition modular_error (o : outcome) : exn :=
  match o with
  | Timeout => Exception "Timeout definitivo"
  | ConnectionError => Exception "Errore rete"
  | Response _ _ _ => Exception "Risposta non JSON"
  end.

(** The steps of the failed attempts [a], ..., [k - 1]. *)
Definition core_retries (net : nat -> outcome) (a k : nat) : list step :=
  flat_map (fun j => [Exchange j; Wait (core_pause j (net j))])
           (seq a (k - a)).

Definition modular_retries (net : nat -> outcome) (a k : nat) : list step :=
  flat_map (fun j => [RateLimitWait; Exchange j;
                      Wait (modular_pause j (net j))])
           (seq a (k - a)).

(** The helper methods of the clean gateway ([get], [post], [put],
    [delete]): [request] with the default of three attempts. *)
Definition get (net : nat -> outcome) : result json * list step :=
  request net "GET" 3.

Definition post (net : nat -> outcome) : result json * list step :=
  request net "POST" 3.

Definition put (net : nat -> outcome) : result json * list step :=
  request net "PUT" 3.

Definition delete (net : nat -> outcome) : result json * list step :=
  request net "DELETE" 3.

(** [test_connection] of the modular gateway:
    [try: return make_request("GET", "/store").get("code") in [200, 201]]
    [except: return False]. *)
Definition test_connection (net : nat -> outcome) : bool :=
  match fst (make_request net "GET" 3) with
  | Ok response =>
      match Py.get response "code" with
      | Ok c => Py.in_200_201 c
      | Raise _ => false
      end
  | Raise _ => false
  end.

(** A network whose first [k] exchanges end in [bad] and the later ones
    in [good]. *)
Definition failing_until (k : nat) (bad good : outcome) (attempt : nat)
  : outcome :=
  if attempt <? k then bad else good.

Definition ok_200 : outcome :=
  Response 200 Absent (Some (JDict [("code", JInt 200)])).

(** A vendor that answers every exchange with status 500 and the JSON
    body [{"code": 500}]. *)
Definition always_500 (attempt : nat) : outcome :=
  Response 500 Absent (Some (JDict [("code", JInt 500)])).

End Gateway.

(* ===================================================================== *)
(** * [modules/product_creator/batch_processor.py] *)
(* ===================================================================== *)

Module Batch.
Import Placements Sys.
Local Open Scope proc_scope.

(** The names bound at module level by [batch_processor.py]:
    [import time], [from typing import Dict, List],
    [from .product_builder import ProductBuilder] and the class
    statement. *)
Definition module_globals : list string :=
  ["time"; "Dict"; "List"; "ProductBuilder"; "BatchProcessor"].

(** The built-in names used by [process_all_products]. *)
Definition builtins : list string :=
  ["print"; "len"; "enumerate"; "Exception"].

(** Evaluation of a name that is not a local variable of the function:
    the module globals, then the built-ins, else [NameError]. *)
Definition global_name (name : string) : result unit :=
  if existsb (String.eqb name) module_globals then Ok tt
  else if existsb (String.eqb name) builtins then Ok tt
  else Raise (NameError name).

(** The value stored under a product type in ["results"]: the dictionary of
    the builder, or the one made by the handler of the loop. *)
Inductive outcome : Type :=
| Returned (r : ModularBuilder.build_result)
| Unexpected (e : exn).

(** The aggregate dictionary (the clock readings are left out). *)
Record results : Type := {
  r_success : bool;
  r_design_file : string;
  r_design_name : string;
  r_total_products : nat;
  r_products_created : nat;
  r_total_variants : nat;
  r_results : list (string * outcome);
  r_errors : list (string * outcome)
}.

(** [results["results"][product_type] = o]. *)
Fixpoint dict_set (k : string) (o : outcome) (d : list (string * outcome))
  : list (string * outcome) :=
  match d with
  | [] => [(k, o)]
  | (k', o') :: d' =>
      if String.eqb k k' then (k, o) :: d' else (k', o') :: dict_set k o d'
  end.

Definition record (acc : results) (product_type : string) (o : outcome)
  : results :=
  match o with
  | Returned (ModularBuilder.Built _ _ _ _ _ _ created _) =>
      {| r_success := r_success acc;
         r_design_file := r_design_file acc;
         r_design_name := r_design_name acc;
         r_total_products := r_total_products acc;
         r_products_created := r_products_created acc + 1;
         r_total_variants := r_total_variants acc + created;
         r_results := dict_set product_type o (r_results acc);
         r_errors := r_errors acc |}
  | _ =>
      {| r_success := r_success acc;
         r_design_file := r_design_file acc;
         r_design_name := r_design_name acc;
         r_total_products := r_total_products acc;
         r_products_created := r_products_created acc;
         r_total_variants := r_total_variants acc;
         r_results := dict_set product_type o (r_results acc);
         r_errors := (r_errors acc ++ [(product_type, o)])%list |}
  end.

Definition finish (acc : results) : results :=
  {| r_success := 0 <? r_products_created acc;
     r_design_file := r_design_file acc;
     r_design_name := r_design_name acc;
     r_total_products := r_total_products acc;
     r_products_created := r_products_created acc;
     r_total_variants := r_total_variants acc;
     r_results := r_results acc;
     r_errors := r_errors acc |}.

Definition default_batch_delay : nat := 3.

Section Batch.
Context {X : Type} `{World X}.
Variable pcm : placement_config_module.

(** The body of the loop over [enumerate(available_products, 1)]. *)
Definition process_product (design_file : string) (total : nat)
  (item : nat * string) (acc : results) : M X results :=
  let '(i, product_type) := item in
  o <- try_except
         (product_info <- read_ext (get_product_info product_type) ;;
          (match product_info with
           | Some _ => ret tt
           | None => raise TypeError
           end) ;;;
          r <- ModularBuilder.build_single_product pcm design_file
                 product_type ;;
          ret (Returned r))
         (fun e => ret (Unexpected e)) ;;
  (if i <? total then sleep default_batch_delay else ret tt) ;;;
  ret (record acc product_type o).

(** [BatchProcessor.process_all_products]. *)
Definition process_all_products (design_file : string) : M X results :=
  available_products <- read_ext get_available_products ;;
  lift (global_name "os") ;;;
  let design_filename := Py.basename design_file in
  lift (global_name "os") ;;;
  let design_name := fst (Py.splitext_name design_filename) in
  lift (global_name "print") ;;;
  lift (global_name "len") ;;;
  lift (global_name "time") ;;;
  let total := length available_products in
  let results0 :=
    {| r_success := true; r_design_file := design_file;
       r_design_name := design_name; r_total_products := total;
       r_products_created := 0; r_total_variants := 0;
       r_results := []; r_errors := [] |} in
  acc <- for_each (combine (seq 1 total) available_products)
           (process_product design_file total) results0 ;;
  ret (finish acc).

End Batch.

End Batch.

(* ===================================================================== *)
(** * Facts about the variant batch planner *)
(* ===================================================================== *)

Module PlannerFacts.
Import Planner.

Lemma ceil_div10_step (n : nat) : 0 < n -> ceil_div10 n = S (ceil_div10 (n - 10)).
Proof.
  intros Hn. unfold ceil_div10.
  destruct (Nat.le_gt_cases 10 n) as [Hge|Hlt].
  - replace (n + 9) with ((n - 10 + 9) + 1 * 10) by lia.
    rewrite Nat.div_add by lia. lia.
  - replace (n - 10 + 9) with 9 by lia.
    rewrite (Nat.div_small 9 10) by lia.
    symmetry. apply Nat.div_unique with (r := n - 1); lia.
Qed.

Lemma ceil_div10_0 : ceil_div10 0 = 0.
Proof. reflexivity. Qed.

(** [range(start, stop, 10)] enumerates [start], [start + 10], ...: there
    are [ceil((stop - start) / 10)] of them. *)
Lemma range_from_10 (fuel start stop : nat) :
  stop - start <= fuel ->
  Py.range_from fuel start stop 10 =
  map (fun k => start + k * 10) (seq 0 (ceil_div10 (stop - start))).
Proof.
  revert start. induction fuel as [|fuel IH]; intros start Hfuel.
  - replace (stop - start) with 0 by lia. reflexivity.
  - simpl. destruct (Nat.ltb_spec start stop) as [Hlt|Hge].
    + rewrite ceil_div10_step by lia. simpl seq. simpl map.
      rewrite Nat.add_0_r. f_equal.
      rewrite IH by lia.
      rewrite <- seq_shift, map_map.
      replace (stop - (start + 10)) with (stop - start - 10) by lia.
      apply map_ext. intros k. lia.
    + replace (stop - start) with 0 by lia. reflexivity.
Qed.

Lemma range3_10 (n : nat) :
  Py.range3 0 n 10 = map (fun k => k * 10) (seq 0 (ceil_div10 n)).
Proof.
  unfold Py.range3. rewrite range_from_10 by lia.
  rewrite Nat.sub_0_r. reflexivity.
Qed.

Section Chunks.
Context {A : Type}.
Implicit Types l remaining variants : list A.

Lemma chunk_succ l k : chunk l (S k) = chunk (skipn 10 l) k.
Proof.
  unfold chunk. rewrite skipn_skipn. f_equal. f_equal. lia.
Qed.

Lemma concat_chunks (m : nat) : forall l,
  length l <= m * 10 -> concat (map (chunk l) (seq 0 m)) = l.
Proof.
  induction m as [|m IH]; intros l Hl.
  - destruct l; [reflexivity | simpl in Hl; lia].
  - simpl seq. simpl map. simpl concat.
    rewrite <- seq_shift, map_map.
    rewrite (map_ext _ (chunk (skipn 10 l))) by (intros; apply chunk_succ).
    rewrite IH by (rewrite length_skipn; lia).
    unfold chunk. simpl skipn. apply firstn_skipn.
Qed.

Lemma ceil_div10_bound (n : nat) : n <= ceil_div10 n * 10.
Proof.
  unfold ceil_div10.
  pose proof (Nat.div_mod_eq (n + 9) 10) as E.
  pose proof (Nat.mod_upper_bound (n + 9) 10 ltac:(lia)) as B. lia.
Qed.

Lemma core_batch_is_chunk remaining k :
  Py.slice remaining (k * 10) (k * 10 + batch_size) = chunk remaining k.
Proof.
  unfold Py.slice, chunk, batch_size. f_equal. lia.
Qed.

Lemma core_batches_chunks remaining :
  core_batches_of remaining =
  map (chunk remaining) (seq 0 (ceil_div10 (length remaining))).
Proof.
  unfold core_batches_of, batch_size. rewrite range3_10, map_map.
  apply map_ext. intros k. apply core_batch_is_chunk.
Qed.

Lemma modular_batch_is_chunk remaining k :
  modular_batch remaining k = chunk remaining k.
Proof.
  unfold modular_batch, Py.slice, chunk, batch_size.
  set (s := k * 10). set (n := length remaining).
  destruct (Nat.le_gt_cases (s + 10) n) as [H|H].
  - rewrite Nat.min_l by lia. f_equal. lia.
  - rewrite Nat.min_r by lia.
    rewrite !firstn_all2; [reflexivity | |]; rewrite length_skipn; fold n; lia.
Qed.

Lemma total_batches_ceil remaining :
  total_batches remaining = ceil_div10 (length remaining).
Proof.
  unfold total_batches, ceil_div10, batch_size. f_equal. lia.
Qed.

Lemma modular_batches_chunks remaining :
  modular_batches_of remaining =
  map (chunk remaining) (seq 0 (ceil_div10 (length remaining))).
Proof.
  unfold modular_batches_of, Py.range. rewrite total_batches_ceil.
  apply map_ext. intros k. apply modular_batch_is_chunk.
Qed.

(** The append batches of the modular builder, in order, are the list
    they were cut from. *)
Lemma modular_batches_concat remaining :
  concat (modular_batches_of remaining) = remaining.
Proof.
  rewrite modular_batches_chunks. apply concat_chunks.
  apply ceil_div10_bound.
Qed.

Lemma chunk_length l k : length (chunk l k) = Nat.min 10 (length l - k * 10).
Proof. unfold chunk. rewrite length_firstn, length_skipn. reflexivity. Qed.

Lemma chunks_length l :
  length (map (chunk l) (seq 0 (ceil_div10 (length l)))) = ceil_div10 (length l).
Proof. rewrite length_map, length_seq. reflexivity. Qed.

Lemma chunks_bounded l m :
  Forall (fun b => length b <= 10) (map (chunk l) (seq 0 m)).
Proof.
  apply List.Forall_forall. intros b Hb. apply in_map_iff in Hb as [k [<- _]].
  rewrite chunk_length. lia.
Qed.

Lemma chunks_sizes l :
  map (@length A) (map (chunk l) (seq 0 (ceil_div10 (length l)))) =
  map (fun k => Nat.min 10 (length l - k * 10)) (seq 0 (ceil_div10 (length l))).
Proof. rewrite map_map. apply map_ext. intros k. apply chunk_length. Qed.

(** [ceil_div10 n] is the least [m] with [n <= 10 * m]. *)
Lemma ceil_div10_spec (n : nat) :
  n <= 10 * ceil_div10 n /\ 10 * ceil_div10 n < n + 10.
Proof.
  unfold ceil_div10.
  pose proof (Nat.div_mod_eq (n + 9) 10) as E.
  pose proof (Nat.mod_upper_bound (n + 9) 10 ltac:(lia)) as B. lia.
Qed.

Lemma split_at_concat l k (batches : list (list A)) :
  concat batches = skipn k l -> (firstn k l ++ concat batches)%list = l.
Proof. intros ->. apply firstn_skipn. Qed.

Lemma firstn_min l k : firstn k l = firstn (Nat.min (length l) k) l.
Proof.
  destruct (Nat.le_gt_cases k (length l)) as [H|H].
  - rewrite Nat.min_r by lia. reflexivity.
  - rewrite Nat.min_l by lia. rewrite !firstn_all2 by lia. reflexivity.
Qed.

(** C2.  For every variant list of length [N] the planner of either
    builder yields an initial batch made of the first [min N K] variants
    ([K = 8] in the clean builder, [K = 20] in the modular one), followed by
    [ceil((N - K) / 10)] append batches of at most ten variants each, where
    [N - K] counts the variants left after the initial batch (none when
    [N <= K]); the initial batch followed by the append batches, in order,
    is the original list.  With 45 variants and [K = 8] the append batches
    have sizes 10, 10, 10 and 7. *)
Theorem C2_batch_plan (variants : list A) :
  let N := length variants in
  (core_initial_batch variants = firstn (Nat.min N 8) variants
   /\ length (core_initial_batch variants) = Nat.min N 8
   /\ length (core_append_batches variants) = ceil_div10 (N - 8)
   /\ Forall (fun b => length b <= 10) (core_append_batches variants)
   /\ (core_initial_batch variants ++ concat (core_append_batches variants))%list
      = variants)
  /\
  (modular_initial_batch variants = firstn (Nat.min N 20) variants
   /\ length (modular_initial_batch variants) = Nat.min N 20
   /\ length (modular_append_batches variants) = ceil_div10 (N - 20)
   /\ Forall (fun b => length b <= 10) (modular_append_batches variants)
   /\ (modular_initial_batch variants
       ++ concat (modular_append_batches variants))%list = variants)
  /\
  (N = 45 ->
   length (core_initial_batch variants) = 8
   /\ map (@length A) (core_append_batches variants) = [10; 10; 10; 7]).
Proof.
  intros N. split; [|split].
  - unfold core_append_batches, core_initial_batch, core_remaining,
      Py.slice_to, Py.slice_from.
    rewrite core_batches_chunks, length_skipn. fold N.
    repeat split.
    + apply firstn_min.
    + rewrite length_firstn. fold N. lia.
    + rewrite length_map, length_seq. reflexivity.
    + apply chunks_bounded.
    + apply split_at_concat. apply concat_chunks.
      rewrite length_skipn. fold N. pose proof (ceil_div10_bound (N - 8)). lia.
  - unfold modular_append_batches, modular_initial_batch, modular_remaining,
      Py.slice_to, Py.slice_from, max_initial.
    rewrite modular_batches_chunks, length_skipn. fold N.
    repeat split.
    + apply firstn_min.
    + rewrite length_firstn. fold N. lia.
    + rewrite length_map, length_seq. reflexivity.
    + apply chunks_bounded.
    + apply split_at_concat. apply concat_chunks.
      rewrite length_skipn. fold N. pose proof (ceil_div10_bound (N - 20)). lia.
  - intros HN. unfold core_append_batches, core_initial_batch, core_remaining,
      Py.slice_to, Py.slice_from.
    split.
    + rewrite length_firstn. fold N. lia.
    + rewrite core_batches_chunks.
      pose proof (chunks_sizes (skipn 8 variants)) as S.
      rewrite length_skipn in S. fold N in S. rewrite HN in S.
      rewrite length_skipn. fold N. rewrite HN. exact S.
Qed.

End Chunks.

(** The 45-variant scenario on the list [0; ...; 44]. *)
Lemma C2_batch_plan_witness :
  length (seq 0 45) = 45 /\
  map (@length nat) (core_append_batches (seq 0 45)) = [10; 10; 10; 7].
Proof.
  split; [reflexivity|].
  apply (C2_batch_plan (seq 0 45)). reflexivity.
Defined.

End PlannerFacts.

(* ===================================================================== *)
(** * Facts about the fleet entry point *)
(* ===================================================================== *)

Module BatchFacts.
Import Placements Sys Batch.

Lemma os_is_unbound : global_name "os" = Raise (NameError "os").
Proof. reflexivity. Qed.

(** C10.  Whatever the design file, the collaborators and the state of
    the process, [process_all_products] raises [NameError] for the name
    [os], which the module never binds; the state of the process is the
    one it started from, so no product build was attempted (no upload, no
    gateway call), and no aggregate is returned. *)
Theorem C10_process_all_products_raises_NameError
  {X : Type} `{World X} (pcm : placement_config_module)
  (design_file : string) (p : process X) :
  existsb (String.eqb "os") module_globals = false /\
  process_all_products pcm design_file p = (Raise (NameError "os"), p).
Proof.
  split; [reflexivity|].
  unfold process_all_products, bind, read_ext, lift.
  rewrite os_is_unbound. reflexivity.
Qed.

End BatchFacts.

(* ===================================================================== *)
(** * Facts about the object store and placement resolution *)
(* ===================================================================== *)

Module PlacementFacts.
Import Placements.

Implicit Types h : gmap loc (gmap string pyval).
Implicit Types d : gmap string pyval.

Lemma alloc_fresh d h : h !! (fst (alloc d h)) = None.
Proof.
  unfold alloc. simpl. apply not_elem_of_dom. apply is_fresh.
Qed.

Lemma alloc_lookup_new d h : snd (alloc d h) !! fst (alloc d h) = Some d.
Proof. unfold alloc. simpl. apply lookup_insert_eq. Qed.

Lemma alloc_lookup_old d h l d0 :
  h !! l = Some d0 -> snd (alloc d h) !! l = Some d0.
Proof.
  intros Hl. unfold alloc. simpl. rewrite lookup_insert_ne; [exact Hl|].
  intros E. pose proof (alloc_fresh d h) as F. unfold alloc in F. simpl in F.
  rewrite E in F. congruence.
Qed.

Lemma alloc_distinct d h l d0 : h !! l = Some d0 -> fst (alloc d h) <> l.
Proof.
  intros Hl E. pose proof (alloc_fresh d h) as F. rewrite E in F. congruence.
Qed.

Lemma setitem_other l l' k v h : l' <> l -> setitem l' k v h !! l = h !! l.
Proof. intros Hne. unfold setitem. apply lookup_alter_ne. exact Hne. Qed.

Lemma setitem_same l k v h d :
  h !! l = Some d -> setitem l k v h !! l = Some (<[k := v]> d).
Proof. intros Hl. unfold setitem. rewrite lookup_alter_eq, Hl. reflexivity. Qed.

Lemma alloc_copy_attached fc l d h :
  h !! l = Some d ->
  copy_attached fc (set_position fc (fst (alloc d h))) l d (snd (alloc d h)).
Proof.
  intros Hl. exists (fst (alloc d h)).
  pose proof (alloc_distinct d h l d Hl) as Hne.
  pose proof (alloc_lookup_new d h) as Hnew.
  pose proof (alloc_lookup_old d h l d Hl) as Hold.
  repeat split; auto.
  - intros k v. rewrite setitem_other; auto.
  - intros k v. apply setitem_same. exact Hnew.
Qed.

Lemma table_okb_sound table keys h :
  table_okb table keys h = true -> table_ok table keys h.
Proof.
  unfold table_okb, table_ok. intros Hb k l Hkl.
  rewrite forallb_forall in Hb.
  specialize (Hb (k, l)). simpl in Hb.
  assert (Hin : In (k, l) (map_to_list table)).
  { apply list_elem_of_In. apply elem_of_map_to_list. exact Hkl. }
  specialize (Hb Hin).
  destruct (h !! l) as [d|]; [|discriminate].
  exists d. split; [reflexivity|].
  destruct (read_keys d keys) as [[]|e]; [reflexivity|discriminate].
Qed.

Lemma catalog_okb_sound m h : catalog_okb m h = true -> catalog_ok m h.
Proof.
  unfold catalog_okb, catalog_ok. intros Hb.
  apply andb_prop in Hb as [H1 H2].
  split; apply table_okb_sound; assumption.
Qed.

Lemma extends_refl h : extends h h.
Proof. intros l d Hl. exact Hl. Qed.

Lemma extends_trans h1 h2 h3 : extends h2 h1 -> extends h3 h2 -> extends h3 h1.
Proof. intros H12 H23 l d Hl. apply H23, H12, Hl. Qed.

Lemma extends_alloc d h : extends (snd (alloc d h)) h.
Proof. intros l d0 Hl. apply alloc_lookup_old. exact Hl. Qed.

Lemma table_ok_extends table keys h h' :
  extends h' h -> table_ok table keys h -> table_ok table keys h'.
Proof.
  intros He Hok k l Hkl. destruct (Hok k l Hkl) as [d [Hd Hr]].
  exists d. split; [apply He; exact Hd | exact Hr].
Qed.

Lemma catalog_ok_extends m h h' :
  extends h' h -> catalog_ok m h -> catalog_ok m h'.
Proof.
  intros He [H1 H2]. split; eapply table_ok_extends; eauto.
Qed.

(** ** [apply_position] and [apply_universal_positioning] *)

Lemma apply_position_configured all_placements placement_type fc h l d :
  all_placements !! placement_type = Some l ->
  h !! l = Some d ->
  dict_truthy d = true ->
  apply_position all_placements placement_type fc h =
  (set_position fc (fst (alloc d h)), snd (alloc d h)).
Proof.
  intros Hcat Hl Ht. unfold apply_position. rewrite Hcat, Hl, Ht.
  reflexivity.
Qed.

Lemma apply_position_unconfigured all_placements placement_type fc h :
  all_placements !! placement_type = None ->
  apply_position all_placements placement_type fc h = (fc, h).
Proof. intros Hcat. unfold apply_position. rewrite Hcat. reflexivity. Qed.

Lemma attach_copy_ok l keys fc h d :
  h !! l = Some d ->
  read_keys d keys = Ok tt ->
  attach_copy l keys fc h =
  (Ok (set_position fc (fst (alloc d h))), snd (alloc d h)).
Proof.
  intros Hl Hk. unfold attach_copy. rewrite Hl, Hk. reflexivity.
Qed.

(** Whatever the tables hold, [apply_position] keeps the type, the URL
    and the options of the configuration and only extends the store. *)
Lemma apply_position_frame all_placements placement_type fc h :
  let r := apply_position all_placements placement_type fc h in
  fc_type (fst r) = fc_type fc /\ fc_url (fst r) = fc_url fc
  /\ fc_options (fst r) = fc_options fc /\ extends (snd r) h.
Proof.
  intros r. subst r. unfold apply_position.
  destruct (all_placements !! placement_type) as [l|];
    [|simpl; auto using extends_refl].
  destruct (h !! l) as [d|]; [|simpl; auto using extends_refl].
  destruct (dict_truthy d); simpl; auto using extends_refl.
  repeat split. apply extends_alloc.
Qed.

(** On a well-formed catalog [apply_universal_positioning] returns. *)
Lemma apply_universal_positioning_ok m placement_type fc h :
  catalog_ok m h ->
  exists fc' h',
    apply_universal_positioning m placement_type fc h = (Ok fc', h')
    /\ fc_type fc' = fc_type fc /\ fc_url fc' = fc_url fc
    /\ fc_options fc' = fc_options fc /\ extends h' h.
Proof.
  intros [Hs Hc]. unfold apply_universal_positioning.
  destruct (UNIVERSAL_SLEEVE_OFFSET m !! placement_type) as [l|] eqn:Es.
  - destruct (Hs _ _ Es) as [d [Hd Hk]].
    rewrite (attach_copy_ok _ _ _ _ _ Hd Hk).
    eexists _, _. repeat split. apply extends_alloc.
  - destruct (UNIVERSAL_CHEST_OFFSET m !! placement_type) as [l|] eqn:Ec.
    + destruct (Hc _ _ Ec) as [d [Hd Hk]].
      rewrite (attach_copy_ok _ _ _ _ _ Hd Hk).
      eexists _, _. repeat split. apply extends_alloc.
    + eexists _, _. repeat split. apply extends_refl.
Qed.



(** ** The generic rule on three slots *)

(** C7.  For a product type handled by the generic rule whose catalog
    entry has three placement slots [p0], [p1], [p2] (design, logo, back
    print), with a logo URL present and the upscaled URL absent, placement
    resolution returns exactly two file configurations: the one of the
    design slot with the primary URL and the one of the logo slot with the
    logo URL; the third slot is left out.  This holds for
    [_build_files_config] of the clean builder (where the generic rule
    applies to the product types other than the two hats) and for
    [create_variant_files_config] of [placement_config.py] (on a
    well-formed catalog). *)
Theorem C7_generic_three_slots
  (products : list (string * product)) (all_placements : gmap string loc)
  (m : placement_config_module) (product_type : string)
  (p0 p1 p2 : placement) (u : urls) (logo : string) h :
  get_product_placements products product_type = Ok [p0; p1; p2] ->
  logo_url u = Some logo ->
  Py.truthy (Some logo) = true ->
  Py.truthy (upscaled_url u) = false ->
  (String.eqb product_type "yupoong_6089m" = false ->
   String.eqb product_type "as_colour_1120" = false ->
   exists fc0 fc1 h',
     _build_files_config products all_placements product_type u h
     = (Ok [fc0; fc1], h')
     /\ fc_type fc0 = p_type p0 /\ fc_url fc0 = design_url u
     /\ fc_type fc1 = p_type p1 /\ fc_url fc1 = logo)
  /\
  (catalog_okb m h = true ->
   exists fc0 fc1 h',
     create_variant_files_config products m product_type
       (design_url u) (logo_url u) (upscaled_url u) h
     = (Ok [fc0; fc1], h')
     /\ fc_type fc0 = p_type p0 /\ fc_url fc0 = design_url u
     /\ fc_type fc1 = p_type p1 /\ fc_url fc1 = logo).
Proof.
  intros Hpl Hlogo Htl Hup. split.
  - intros Hy Ha.
    unfold _build_files_config. rewrite Hpl.
    unfold core_files_loop, core_select_url. rewrite Hy, Ha.
    change (0 =? 0) with true. change (1 =? 0) with false.
    change (1 =? 1) with true. change (2 =? 0) with false.
    change (2 =? 1) with false. cbv iota.
    rewrite Hlogo, Htl, Hup. cbv iota. rewrite !andb_false_r.
    simpl andb. cbv iota.
    pose proof (apply_position_frame all_placements (p_type p0)
                  (base_config p0 (design_url u)) h) as F0.
    destruct (apply_position all_placements (p_type p0)
                (base_config p0 (design_url u)) h) as [fc0 h1].
    pose proof (apply_position_frame all_placements (p_type p1)
                  (base_config p1 logo) h1) as F1.
    destruct (apply_position all_placements (p_type p1)
                (base_config p1 logo) h1) as [fc1 h2].
    simpl in F0, F1.
    exists fc0, fc1, h2. intuition.
  - intros Hok. apply catalog_okb_sound in Hok.
    unfold create_variant_files_config. rewrite Hpl.
    unfold modular_files_loop, modular_select_url.
    change (0 =? 0) with true. change (1 =? 0) with false.
    change (1 =? 1) with true. change (2 =? 0) with false.
    change (2 =? 1) with false. cbv iota.
    rewrite Hlogo, Htl, Hup. cbv iota. rewrite !andb_false_r.
    simpl andb. cbv iota.
    destruct (apply_universal_positioning_ok m (p_type p0)
                (base_config p0 (design_url u)) h Hok)
      as [fc0 [h1 [E0 [T0 [U0 [_ X0]]]]]].
    rewrite E0.
    destruct (apply_universal_positioning_ok m (p_type p1)
                (base_config p1 logo) h1 (catalog_ok_extends _ _ _ X0 Hok))
      as [fc1 [h2 [E1 [T1 [U1 [_ X1]]]]]].
    rewrite E1.
    exists fc0, fc1, h2. simpl in *. intuition.
Qed.

(** The Gildan 5000 T-shirt with a design and a logo, on the loaded
    catalog. *)
Lemma C7_generic_three_slots_witness :
  let u := {| design_url := "https://img/design.png";
              logo_url := Some "https://img/logo.png";
              upscaled_url := None; logo_black_url := None |} in
  (exists fc0 fc1 h',
     _build_files_config PRODUCTS (ALL_PLACEMENTS loaded_pm) "gildan_5000" u
                         loaded_objs
     = (Ok [fc0; fc1], h')
     /\ fc_type fc0 = "embroidery_chest_left"
     /\ fc_url fc0 = "https://img/design.png"
     /\ fc_type fc1 = "embroidery_sleeve_left_top"
     /\ fc_url fc1 = "https://img/logo.png")
  /\
  (exists fc0 fc1 h',
     create_variant_files_config PRODUCT_PLACEMENTS loaded_pcm "gildan_5000"
       "https://img/design.png" (Some "https://img/logo.png") None loaded_objs
     = (Ok [fc0; fc1], h')
     /\ fc_type fc0 = "embroidery_chest_left"
     /\ fc_url fc0 = "https://img/design.png"
     /\ fc_type fc1 = "embroidery_sleeve_left_top"
     /\ fc_url fc1 = "https://img/logo.png").
Proof.
  intros u.
  split.
  - refine (proj1 (C7_generic_three_slots PRODUCTS (ALL_PLACEMENTS loaded_pm)
             loaded_pcm "gildan_5000"
             (slot "embroidery_chest_left" "Ricamo petto sinistro" "embroidery")
             (slot "embroidery_sleeve_left_top" "Ricamo manica sinistra"
                   "embroidery")
             (slot "back" "Stampa DTG retro" "dtg")
             u "https://img/logo.png" loaded_objs _ _ _ _) _ _);
      reflexivity.
  - refine (proj2 (C7_generic_three_slots PRODUCT_PLACEMENTS
             (ALL_PLACEMENTS loaded_pm) loaded_pcm "gildan_5000"
             (slot "embroidery_chest_left" "Ricamo petto sinistro" "embroidery")
             (slot "embroidery_sleeve_left_top" "Ricamo manica sinistra"
                   "embroidery")
             (slot "back" "Stampa DTG retro" "dtg")
             u "https://img/logo.png" loaded_objs _ _ _ _) _);
      reflexivity.
Defined.

(** ** [update_hat_position] *)

Lemma write_both_shared pm placement key v h l d :
  HAT_PLACEMENTS pm !! placement = Some l ->
  ALL_PLACEMENTS pm !! placement = Some l ->
  h !! l = Some d ->
  fst (write_both pm placement key v h) = Ok tt
  /\ snd (write_both pm placement key v h) !! l = Some (updated key v d)
  /\ (forall l', l' <> l ->
        snd (write_both pm placement key v h) !! l' = h !! l').
Proof.
  intros Hhat Hall Hl. unfold write_both, updated.
  destruct v as [q|]; [|auto].
  rewrite Hhat, Hall. cbn [fst snd]. split; [reflexivity|]. split.
  - rewrite (setitem_same l key (PFloat q) _ (<[key := PFloat q]> d)).
    + rewrite insert_insert_eq. reflexivity.
    + apply setitem_same. exact Hl.
  - intros l' Hne. rewrite !setitem_other by (intros ->; congruence).
    reflexivity.
Qed.

Lemma update_hat_position_shared pm placement top left h l d :
  HAT_PLACEMENTS pm !! placement = Some l ->
  ALL_PLACEMENTS pm !! placement = Some l ->
  h !! l = Some d ->
  fst (update_hat_position pm placement top left h) = Ok tt
  /\ snd (update_hat_position pm placement top left h) !! l
     = Some (updated "left" left (updated "top" top d))
  /\ (forall l', l' <> l ->
        snd (update_hat_position pm placement top left h) !! l' = h !! l').
Proof.
  intros Hhat Hall Hl. unfold update_hat_position. rewrite Hhat.
  destruct (write_both_shared pm placement "top" top h l d Hhat Hall Hl)
    as [T1 [T2 T3]].
  destruct (write_both pm placement "top" top h) as [[[]|e] h1];
    cbn [fst snd] in T1, T2, T3; [|discriminate].
  destruct (write_both_shared pm placement "left" left h1 l _ Hhat Hall T2)
    as [L1 [L2 L3]].
  split; [exact L1|]. split; [exact L2|].
  intros l' Hne. rewrite (L3 l' Hne). apply T3, Hne.
Qed.

(** X19.  [update_hat_position] changes the one box that [HAT_PLACEMENTS]
    and [ALL_PLACEMENTS] share for a hat placement: afterwards the box has
    the given [top] and [left] (a value that is not given is kept), and no
    other object of the store has changed.  For a placement that is not a
    hat placement it raises [ValueError] and changes nothing, also when
    the placement is a sleeve or chest placement of [ALL_PLACEMENTS]. *)
Theorem update_hat_position_writes_the_shared_box
  (pm : placements_module) (placement : string)
  (top left : option QArith_base.Q) h :
  (forall l d,
      HAT_PLACEMENTS pm !! placement = Some l ->
      ALL_PLACEMENTS pm !! placement = Some l ->
      h !! l = Some d ->
      fst (update_hat_position pm placement top left h) = Ok tt
      /\ snd (update_hat_position pm placement top left h) !! l
         = Some (updated "left" left (updated "top" top d))
      /\ (forall l', l' <> l ->
            snd (update_hat_position pm placement top left h) !! l'
            = h !! l'))
  /\ (HAT_PLACEMENTS pm !! placement = None ->
      update_hat_position pm placement top left h
      = (Raise (ValueError
                  (String.append "Placement "
                     (String.append placement
                        " non è un placement cappello"))), h)).
Proof.
  split.
  - intros l d Hhat Hall Hl.
    apply update_hat_position_shared; assumption.
  - intros Hhat. unfold update_hat_position. rewrite Hhat. reflexivity.
Qed.

Lemma update_hat_position_writes_the_shared_box_witness :
  (fst (update_hat_position loaded_pm "embroidery_front"
          (Some (QArith_base.Qmake 30 10)) None loaded_objs) = Ok tt
   /\ snd (update_hat_position loaded_pm "embroidery_front"
             (Some (QArith_base.Qmake 30 10)) None loaded_objs) !! 1%positive
      = Some (updated "left" None
                (updated "top" (Some (QArith_base.Qmake 30 10))
                   (position_dict 120 80 50 40 25 15 true)))
   /\ (forall l', l' <> 1%positive ->
         snd (update_hat_position loaded_pm "embroidery_front"
                (Some (QArith_base.Qmake 30 10)) None loaded_objs) !! l'
         = loaded_objs !! l'))
  /\ update_hat_position loaded_pm "embroidery_chest_left"
       (Some (QArith_base.Qmake 30 10)) None loaded_objs
     = (Raise (ValueError
                 "Placement embroidery_chest_left non è un placement cappello"),
        loaded_objs).
Proof.
  destruct (update_hat_position_writes_the_shared_box loaded_pm
              "embroidery_front" (Some (QArith_base.Qmake 30 10)) None
              loaded_objs) as [Hhat _].
  destruct (update_hat_position_writes_the_shared_box loaded_pm
              "embroidery_chest_left" (Some (QArith_base.Qmake 30 10)) None
              loaded_objs) as [_ Hother].
  split.
  - apply (Hhat 1%positive (position_dict 120 80 50 40 25 15 true));
      vm_compute; reflexivity.
  - apply Hother. vm_compute. reflexivity.
Defined.

Lemma updated_truthy key v d :
  dict_truthy d = true -> dict_truthy (updated key v d) = true.
Proof.
  intros Hd. destruct v as [q|]; [|exact Hd]. unfold updated, dict_truthy.
  rewrite bool_decide_eq_false_2; [reflexivity|]. apply insert_non_empty.
Qed.

(** X20.  A position attached to a file configuration is a copy, so a
    later [update_hat_position] does not reach it: a configuration
    resolved before the update keeps the old box, one resolved after it
    gets the updated box, and the two are different objects. *)
Theorem hat_update_reaches_later_copies_only
  (pm : placements_module) (placement : string)
  (top left : option QArith_base.Q) (fc : file_config) h l d :
  HAT_PLACEMENTS pm !! placement = Some l ->
  ALL_PLACEMENTS pm !! placement = Some l ->
  h !! l = Some d ->
  dict_truthy d = true ->
  let r1 := apply_position (ALL_PLACEMENTS pm) placement fc h in
  let r2 := update_hat_position pm placement top left (snd r1) in
  let r3 := apply_position (ALL_PLACEMENTS pm) placement fc (snd r2) in
  exists l1 l3,
    fc_position (fst r1) = Some l1
    /\ fc_position (fst r3) = Some l3
    /\ l1 <> l3
    /\ snd r3 !! l1 = Some d
    /\ snd r3 !! l3 = Some (updated "left" left (updated "top" top d)).
Proof.
  intros Hhat Hall Hl Ht r1 r2 r3. subst r1 r2 r3.
  rewrite (apply_position_configured _ _ fc h l d Hall Hl Ht). cbn [fst snd].
  set (l1 := fst (alloc d h)). set (h1 := snd (alloc d h)).
  assert (H1l : h1 !! l = Some d) by (apply alloc_lookup_old; exact Hl).
  assert (H1c : h1 !! l1 = Some d) by apply alloc_lookup_new.
  assert (Hne : l1 <> l) by (eapply alloc_distinct; exact Hl).
  destruct (update_hat_position_shared pm placement top left h1 l d
              Hhat Hall H1l) as [_ [U2 U3]].
  set (h2 := snd (update_hat_position pm placement top left h1)) in *.
  set (d' := updated "left" left (updated "top" top d)) in *.
  assert (Ht' : dict_truthy d' = true)
    by (apply updated_truthy, updated_truthy, Ht).
  rewrite (apply_position_configured _ _ fc h2 l d' Hall U2 Ht').
  cbn [fst snd].
  assert (H2c : h2 !! l1 = Some d) by (rewrite (U3 l1 Hne); exact H1c).
  exists l1, (fst (alloc d' h2)).
  split; [reflexivity|]. split; [reflexivity|].
  split; [intros E; apply (alloc_distinct d' h2 l1 d H2c); symmetry; exact E|].
  split; [apply alloc_lookup_old; exact H2c|apply alloc_lookup_new].
Qed.

Lemma hat_update_reaches_later_copies_only_witness :
  let fc := base_config (slot "embroidery_front" "Ricamo frontale"
                           "embroidery") "https://img/design.png" in
  let r1 := apply_position (ALL_PLACEMENTS loaded_pm) "embroidery_front" fc
              loaded_objs in
  let r2 := update_hat_position loaded_pm "embroidery_front"
              (Some (QArith_base.Qmake 30 10)) None (snd r1) in
  let r3 := apply_position (ALL_PLACEMENTS loaded_pm) "embroidery_front" fc
              (snd r2) in
  exists l1 l3,
    fc_position (fst r1) = Some l1
    /\ fc_position (fst r3) = Some l3
    /\ l1 <> l3
    /\ snd r3 !! l1 = Some (position_dict 120 80 50 40 25 15 true)
    /\ snd r3 !! l3
       = Some (updated "left" None
                 (updated "top" (Some (QArith_base.Qmake 30 10))
                    (position_dict 120 80 50 40 25 15 true))).
Proof.
  intros fc.
  apply (hat_update_reaches_later_copies_only loaded_pm "embroidery_front"
           (Some (QArith_base.Qmake 30 10)) None fc loaded_objs 1%positive
           (position_dict 120 80 50 40 25 15 true));
    vm_compute; reflexivity.
Defined.

(** ** The two resolvers *)

Lemma attach_copy_frame l keys fc h :
  extends (snd (attach_copy l keys fc h)) h
  /\ forall fc', fst (attach_copy l keys fc h) = Ok fc' ->
       fc_type fc' = fc_type fc /\ fc_url fc' = fc_url fc
       /\ fc_options fc' = fc_options fc.
Proof.
  unfold attach_copy. destruct (h !! l) as [d|].
  - pose proof (extends_alloc d h) as E. destruct (alloc d h) as [l' h'].
    destruct (read_keys d keys); cbn [fst snd] in *.
    + split; [exact E|]. intros fc' [= <-]. repeat split.
    + split; [exact E|]. intros fc' [=].
  - split; [apply extends_refl|]. intros fc' [=].
Qed.

Lemma apply_universal_positioning_frame m placement_type fc h :
  extends (snd (apply_universal_positioning m placement_type fc h)) h
  /\ forall fc',
       fst (apply_universal_positioning m placement_type fc h) = Ok fc' ->
       fc_type fc' = fc_type fc /\ fc_url fc' = fc_url fc
       /\ fc_options fc' = fc_options fc.
Proof.
  unfold apply_universal_positioning.
  destruct (UNIVERSAL_SLEEVE_OFFSET m !! placement_type) as [l|];
    [apply attach_copy_frame|].
  destruct (UNIVERSAL_CHEST_OFFSET m !! placement_type) as [l|];
    [apply attach_copy_frame|].
  split; [apply extends_refl|]. intros fc' [= <-]. repeat split.
Qed.

Lemma core_files_loop_views all pt u pls : forall i h,
  extends (snd (core_files_loop all pt u i pls h)) h
  /\ sublist (map file_view (fst (core_files_loop all pt u i pls h)))
             (map slot_view pls).
Proof.
  induction pls as [|pl rest IH]; intros i h.
  - split; [apply extends_refl|constructor].
  - cbn [core_files_loop map].
    destruct (core_select_url pt i pl u) as [url|].
    + pose proof (apply_position_frame all (p_type pl) (base_config pl url) h)
        as F. cbv zeta in F. destruct F as [F1 [_ [F3 F4]]].
      destruct (apply_position all (p_type pl) (base_config pl url) h)
        as [fc h1]. cbn [fst snd] in *.
      destruct (IH (S i) h1) as [E Hs].
      destruct (core_files_loop all pt u (S i) rest h1) as [fcs h2].
      cbn [fst snd map] in *. split.
      * eapply extends_trans; eassumption.
      * replace (file_view fc) with (slot_view pl)
          by (unfold file_view, slot_view; rewrite F1, F3; reflexivity).
        constructor. exact Hs.
    + destruct (IH (S i) h) as [E Hs]. split; [exact E|].
      constructor. exact Hs.
Qed.

Lemma modular_files_loop_views m design logo upscaled pls : forall i h,
  extends (snd (modular_files_loop m design logo upscaled i pls h)) h
  /\ forall fcs,
       fst (modular_files_loop m design logo upscaled i pls h) = Ok fcs ->
       sublist (map file_view fcs) (map slot_view pls).
Proof.
  induction pls as [|pl rest IH]; intros i h.
  - split; [apply extends_refl|]. intros fcs [= <-]. constructor.
  - cbn [modular_files_loop map].
    destruct (modular_select_url i pl design logo upscaled) as [url|].
    + destruct (apply_universal_positioning_frame m (p_type pl)
                  (base_config pl url) h) as [F4 F].
      destruct (apply_universal_positioning m (p_type pl)
                  (base_config pl url) h) as [[fc|e] h1];
        cbn [fst snd] in *.
      * destruct (F fc eq_refl) as [F1 [_ F3]].
        destruct (IH (S i) h1) as [E Hs].
        destruct (modular_files_loop m design logo upscaled (S i) rest h1)
          as [[fcs|e] h2]; cbn [fst snd] in *.
        -- split; [eapply extends_trans; eassumption|].
           intros fcs' [= <-]. cbn [map].
           replace (file_view fc) with (slot_view pl)
             by (unfold file_view, slot_view; rewrite F1, F3; reflexivity).
           constructor. apply Hs. reflexivity.
        -- split; [eapply extends_trans; eassumption|]. intros fcs' [=].
      * split; [exact F4|]. intros fcs' [=].
    + destruct (IH (S i) h) as [E Hs]. split; [exact E|].
      intros fcs Hf. constructor. apply Hs, Hf.
Qed.

(** X21.  What the two resolvers never do, whatever the product, the
    assets and the store: they never change an object that is already in
    the store (the catalog boxes stay as they are, only copies are
    allocated), and the file configurations they return follow the slots
    of the product in catalog order, at most one per slot, each with the
    placement type of its slot and with the embroidery options exactly
    when the slot is an embroidery slot. *)
Theorem resolvers_follow_the_slots
  (products : list (string * product)) (all_placements : gmap string loc)
  (m : placement_config_module) (product_type : string) (u : urls) h :
  (extends (snd (_build_files_config products all_placements product_type
                   u h)) h
   /\ forall pls fcs,
        get_product_placements products product_type = Ok pls ->
        fst (_build_files_config products all_placements product_type u h)
        = Ok fcs ->
        sublist (map file_view fcs) (map slot_view pls))
  /\
  (extends (snd (create_variant_files_config products m product_type
                   (design_url u) (logo_url u) (upscaled_url u) h)) h
   /\ forall pls fcs,
        get_product_placements products product_type = Ok pls ->
        fst (create_variant_files_config products m product_type
               (design_url u) (logo_url u) (upscaled_url u) h) = Ok fcs ->
        sublist (map file_view fcs) (map slot_view pls)).
Proof.
  unfold _build_files_config, create_variant_files_config.
  destruct (get_product_placements products product_type) as [pls|e].
  - split.
    + destruct (core_files_loop_views all_placements product_type u pls 0 h)
        as [E Hs].
      destruct (core_files_loop all_placements product_type u 0 pls h)
        as [fcs h']. cbn [fst snd] in *. split; [exact E|].
      intros pls' fcs' [= <-] [= <-]. exact Hs.
    + destruct (modular_files_loop_views m (design_url u) (logo_url u)
                  (upscaled_url u) pls 0 h) as [E Hs].
      split; [exact E|]. intros pls' fcs' [= <-] Hf. apply Hs, Hf.
  - split; (split; [apply extends_refl|intros pls fcs [=]]).
Qed.

Lemma resolvers_follow_the_slots_witness :
  let u := {| design_url := "https://img/design.png";
              logo_url := Some "https://img/logo.png";
              upscaled_url := None; logo_black_url := None |} in
  exists fcs,
    fst (_build_files_config PRODUCTS (ALL_PLACEMENTS loaded_pm)
           "gildan_5000" u loaded_objs) = Ok fcs
    /\ sublist (map file_view fcs)
         (map slot_view
            (shirt_slots "embroidery_sleeve_left_top"
               "Ricamo manica sinistra")).
Proof.
  intros u.
  destruct (resolvers_follow_the_slots PRODUCTS (ALL_PLACEMENTS loaded_pm)
              loaded_pcm "gildan_5000" u loaded_objs) as [[_ Hc] _].
  assert (E : exists fcs,
             fst (_build_files_config PRODUCTS (ALL_PLACEMENTS loaded_pm)
                    "gildan_5000" u loaded_objs) = Ok fcs).
  { vm_compute. eexists. reflexivity. }
  destruct E as [fcs E]. exists fcs. split; [exact E|].
  apply (Hc (shirt_slots "embroidery_sleeve_left_top"
               "Ricamo manica sinistra") fcs); [reflexivity|exact E].
Defined.

Lemma core_rest_without_assets all pt u rest :
  String.eqb pt "yupoong_6089m" = false ->
  String.eqb pt "as_colour_1120" = false ->
  Py.truthy (logo_url u) = false ->
  Py.truthy (upscaled_url u) = false ->
  forall i h, 1 <= i -> core_files_loop all pt u i rest h = ([], h).
Proof.
  intros Hy Hb Hl Hu. induction rest as [|pl rest IH]; intros i h Hi.
  - reflexivity.
  - cbn [core_files_loop]. unfold core_select_url.
    rewrite Hy, Hb, Hl, Hu, !andb_false_r.
    replace (i =? 0) with false by (symmetry; apply Nat.eqb_neq; lia).
    apply IH. lia.
Qed.

Lemma modular_rest_without_assets m design logo upscaled rest :
  Py.truthy logo = false ->
  Py.truthy upscaled = false ->
  forall i h, 1 <= i ->
    modular_files_loop m design logo upscaled i rest h = (Ok [], h).
Proof.
  intros Hl Hu. induction rest as [|pl rest IH]; intros i h Hi.
  - reflexivity.
  - cbn [modular_files_loop]. unfold modular_select_url.
    rewrite Hl, Hu, !andb_false_r.
    replace (i =? 0) with false by (symmetry; apply Nat.eqb_neq; lia).
    apply IH. lia.
Qed.

(** X22.  With the design as the only asset (no logo and no upscaled
    design, or empty URLs for them), a product other than the cap and the
    beanie gets exactly one file configuration, whatever the number of its
    slots: the design on the first slot of the catalog, with the
    embroidery options when that slot is an embroidery slot.  This holds
    for both resolvers, for the second one on a well-formed catalog. *)
Theorem only_the_design_gives_one_file
  (products : list (string * product)) (all_placements : gmap string loc)
  (m : placement_config_module) (product_type : string)
  (p0 : placement) (rest : list placement) (u : urls) h :
  get_product_placements products product_type = Ok (p0 :: rest) ->
  Py.truthy (logo_url u) = false ->
  Py.truthy (upscaled_url u) = false ->
  (String.eqb product_type "yupoong_6089m" = false ->
   String.eqb product_type "as_colour_1120" = false ->
   exists fc h',
     _build_files_config products all_placements product_type u h
     = (Ok [fc], h')
     /\ fc_url fc = design_url u /\ file_view fc = slot_view p0)
  /\
  (catalog_okb m h = true ->
   exists fc h',
     create_variant_files_config products m product_type
       (design_url u) (logo_url u) (upscaled_url u) h
     = (Ok [fc], h')
     /\ fc_url fc = design_url u /\ file_view fc = slot_view p0).
Proof.
  intros Hpl Hl Hu. split.
  - intros Hy Hb. unfold _build_files_config. rewrite Hpl.
    cbn [core_files_loop]. unfold core_select_url at 1. rewrite Hy, Hb.
    cbn [Nat.eqb].
    pose proof (apply_position_frame all_placements (p_type p0)
                  (base_config p0 (design_url u)) h) as F.
    cbv zeta in F. destruct F as [F1 [F2 [F3 _]]].
    destruct (apply_position all_placements (p_type p0)
                (base_config p0 (design_url u)) h) as [fc h1].
    cbn [fst] in F1, F2, F3.
    rewrite (core_rest_without_assets all_placements product_type u rest
               Hy Hb Hl Hu 1 h1 (le_n 1)).
    exists fc, h1. split; [reflexivity|]. split; [exact F2|].
    unfold file_view, slot_view. rewrite F1, F3. reflexivity.
  - intros Hok. apply catalog_okb_sound in Hok.
    unfold create_variant_files_config. rewrite Hpl.
    cbn [modular_files_loop]. unfold modular_select_url at 1.
    cbn [Nat.eqb].
    destruct (apply_universal_positioning_ok m (p_type p0)
                (base_config p0 (design_url u)) h Hok)
      as [fc [h1 [E [F1 [F2 [F3 _]]]]]].
    rewrite E.
    rewrite (modular_rest_without_assets m (design_url u) (logo_url u)
               (upscaled_url u) rest Hl Hu 1 h1 (le_n 1)).
    exists fc, h1. split; [reflexivity|]. split; [exact F2|].
    unfold file_view, slot_view. rewrite F1, F3. reflexivity.
Qed.

Lemma only_the_design_gives_one_file_witness :
  let u := {| design_url := "https://img/design.png";
              logo_url := None; upscaled_url := Some EmptyString;
              logo_black_url := None |} in
  let p0 := slot "embroidery_chest_left" "Ricamo petto sinistro"
              "embroidery" in
  (exists fc h',
     _build_files_config PRODUCTS (ALL_PLACEMENTS loaded_pm) "gildan_5000"
       u loaded_objs = (Ok [fc], h')
     /\ fc_url fc = design_url u /\ file_view fc = slot_view p0)
  /\
  (exists fc h',
     create_variant_files_config PRODUCTS loaded_pcm "gildan_5000"
       (design_url u) (logo_url u) (upscaled_url u) loaded_objs
     = (Ok [fc], h')
     /\ fc_url fc = design_url u /\ file_view fc = slot_view p0).
Proof.
  intros u p0.
  destruct (only_the_design_gives_one_file PRODUCTS
              (ALL_PLACEMENTS loaded_pm) loaded_pcm "gildan_5000" p0
              [slot "embroidery_sleeve_left_top" "Ricamo manica sinistra"
                 "embroidery";
               slot "back" "Stampa DTG retro" "dtg"]
              u loaded_objs eq_refl eq_refl eq_refl) as [Hc Hm].
  split; [apply Hc; reflexivity|apply Hm; vm_compute; reflexivity].
Defined.

End PlacementFacts.

(* ===================================================================== *)
(** * Facts about the gateways *)
(* ===================================================================== *)

Module GatewayFacts.
Import Gateway.

Lemma exchanges_app s1 s2 : exchanges (s1 ++ s2) = exchanges s1 + exchanges s2.
Proof. unfold exchanges. rewrite List.filter_app, length_app. reflexivity. Qed.

Lemma after_fst s r : fst (after s r) = fst r.
Proof. reflexivity. Qed.

Lemma after_exchanges s r :
  exchanges (snd (after s r)) = exchanges s + exchanges (snd r).
Proof. unfold after. simpl. apply exchanges_app. Qed.

Section Modular.
Variable net : nat -> outcome.
Variable method : string.
Variable retries : nat.
Hypothesis Hmethod : supported method = true.

(** [make_request] from attempt [a] on, when the attempts before [k] fail
    in a transient way and attempt [k] receives a parsed body. *)
Lemma modular_attempts_returns k status retry_after body :
  net k = Response status retry_after (Some body) ->
  forall n a,
    a + n = retries -> a <= k -> k < retries ->
    (forall j, a <= j -> j < k -> transient (net j) = true) ->
    fst (modular_attempts net method retries (seq a n)) = Ok body
    /\ exchanges (snd (modular_attempts net method retries (seq a n)))
       = S (k - a).
Proof.
  intros Hk. induction n as [|n IH]; intros a Han Hak Hkr Htr.
  - lia.
  - simpl seq. simpl modular_attempts. rewrite Hmethod. simpl negb. cbv iota.
    destruct (Nat.eq_dec a k) as [->|Hne].
    + rewrite Hk. simpl. split; [reflexivity|].
      replace (k - k) with 0 by lia. reflexivity.
    + assert (Hlt : a < k) by lia.
      assert (Hretry : (a <? retries - 1) = true)
        by (apply Nat.ltb_lt; lia).
      rewrite Hretry.
      specialize (IH (S a) ltac:(lia) ltac:(lia) Hkr
                     (fun j H1 H2 => Htr j ltac:(lia) H2)).
      destruct IH as [IH1 IH2].
      pose proof (Htr a (Nat.le_refl a) Hlt) as Ta.
      destruct (net a) as [| |st ra [j|]]; simpl in Ta; try discriminate;
        rewrite after_fst, after_exchanges, IH1, IH2;
        (split; [reflexivity|]);
        change (exchanges [RateLimitWait; Exchange a; Wait ((a + 1) * 2)])
          with 1 ||
        change (exchanges [RateLimitWait; Exchange a; Wait 1]) with 1;
        lia.
Qed.

End Modular.

Lemma core_retries_nil net a : core_retries net a a = [].
Proof. unfold core_retries. rewrite Nat.sub_diag. reflexivity. Qed.

Lemma core_retries_cons net a k :
  a < k ->
  core_retries net a k
  = ([Exchange a; Wait (core_pause a (net a))] ++ core_retries net (S a) k)%list.
Proof.
  intros Hk. unfold core_retries.
  replace (k - a) with (S (k - S a)) by lia. reflexivity.
Qed.

Lemma modular_retries_nil net a : modular_retries net a a = [].
Proof. unfold modular_retries. rewrite Nat.sub_diag. reflexivity. Qed.

Lemma modular_retries_cons net a k :
  a < k ->
  modular_retries net a k
  = ([RateLimitWait; Exchange a; Wait (modular_pause a (net a))]
     ++ modular_retries net (S a) k)%list.
Proof.
  intros Hk. unfold modular_retries.
  replace (k - a) with (S (k - S a)) by lia. reflexivity.
Qed.

Section CoreRuns.
Variable net : nat -> outcome.
Variable method : string.
Variable retries : nat.
Hypothesis Hmethod : supported method = true.

Lemma failed_no_rate_limit_error last o :
  core_failed last o = true -> rate_limit_error last o = None.
Proof.
  destruct o as [| |st ra parsed]; [reflexivity..|].
  unfold core_failed. destruct (rate_limit_error last _); [discriminate|].
  reflexivity.
Qed.

Lemma good_not_failed last st ra body :
  is_http_error st = false ->
  core_failed last (Response st ra (Some body)) = false
  /\ rate_limit_error last (Response st ra (Some body)) = None.
Proof.
  intros Hst. unfold core_failed, rate_limit_error.
  destruct (st =? 429)%Z eqn:E.
  - apply Z.eqb_eq in E. subst st. discriminate.
  - rewrite Hst. split; reflexivity.
Qed.

(** One iteration of the loop of [request]: the attempt ends the call with
    a [ValueError] of the rate-limit branch, or fails in a way the
    handlers deal with (and is retried, or is the last), or returns. *)
Lemma core_attempts_cons a rest :
  let last := negb (a <? retries - 1) in
  (exists e,
      rate_limit_error last (net a) = Some e
      /\ core_attempts net method retries (a :: rest)
         = (Raise e, [Exchange a]))
  \/ (core_failed last (net a) = true /\
      (((a <? retries - 1) = true /\
        core_attempts net method retries (a :: rest)
        = after [Exchange a; Wait (core_pause a (net a))]
                (core_attempts net method retries rest))
       \/ ((a <? retries - 1) = false /\
           core_attempts net method retries (a :: rest)
           = (Raise (core_error (net a)), [Exchange a]))))
  \/ (exists st ra j,
        net a = Response st ra (Some j)
        /\ is_http_error st = false
        /\ core_attempts net method retries (a :: rest)
           = (Ok j, [Exchange a])).
Proof.
  cbv zeta. simpl core_attempts. rewrite Hmethod.
  cbv beta iota delta [negb].
  destruct (net a) as [| |st ra parsed].
  - right. left. split; [reflexivity|].
    destruct (a <? retries - 1); [left|right]; split; reflexivity.
  - right. left. split; [reflexivity|].
    destruct (a <? retries - 1); [left|right]; split; reflexivity.
  - unfold core_failed, rate_limit_error, core_pause, is_rate_limited,
      retry_after_of.
    destruct (st =? 429)%Z eqn:E429.
    + apply Z.eqb_eq in E429. subst st.
      change (is_http_error 429) with true. cbv beta iota.
      destruct ra as [|z|]; cbn [wait_time_of].
      * right. left.
        destruct (a <? retries - 1); cbn [negb andb];
          (split; [reflexivity|]); [left|right]; split; reflexivity.
      * destruct (a <? retries - 1); cbn [negb andb].
        -- destruct (z <? 0)%Z.
           ++ left. eexists. split; reflexivity.
           ++ right. left. split; [reflexivity|]. left. split; reflexivity.
        -- right. left. split; [reflexivity|]. right. split; reflexivity.
      * left. eexists. split; reflexivity.
    + cbv beta iota. destruct (is_http_error st) eqn:Est.
      * right. left. split; [reflexivity|].
        destruct (a <? retries - 1); [left|right]; split; reflexivity.
      * destruct parsed as [j|].
        -- right. right. exists st, ra, j. auto.
        -- right. left. split; [reflexivity|].
           destruct (a <? retries - 1); [left|right]; split; reflexivity.
Qed.

(** The whole run of [request] from attempt [a] on: some attempt [k]
    receives a good answer after failures that are retried, or some
    attempt [k] ends the call with the [ValueError] of a rate-limit
    header, or every attempt fails. *)
Lemma core_run n : forall a, a + n = retries ->
  (exists k body st ra,
      a <= k /\ k < retries
      /\ (forall j, a <= j -> j < k -> core_retryable (net j) = true)
      /\ net k = Response st ra (Some body) /\ is_http_error st = false
      /\ core_attempts net method retries (seq a n)
         = (Ok body, (core_retries net a k ++ [Exchange k])%list))
  \/ (exists k e,
      a <= k /\ k < retries
      /\ (forall j, a <= j -> j < k -> core_retryable (net j) = true)
      /\ rate_limit_error (negb (k <? retries - 1)) (net k) = Some e
      /\ core_attempts net method retries (seq a n)
         = (Raise e, (core_retries net a k ++ [Exchange k])%list))
  \/ ((forall j, a <= j -> j < retries - 1 -> core_retryable (net j) = true)
      /\ (n <> 0 -> core_gives_up (net (retries - 1)) = true)
      /\ core_attempts net method retries (seq a n)
         = match n with
           | 0 => (Raise (Exception "Tutti i tentativi falliti"), [])
           | S m => (Raise (core_error (net (a + m))),
                     (core_retries net a (a + m) ++ [Exchange (a + m)])%list)
           end).
Proof.
  induction n as [|n IH]; intros a Han.
  - right. right. split; [intros; lia|]. split; [congruence|reflexivity].
  - simpl seq.
    destruct (core_attempts_cons a (seq (S a) n))
      as [[e [Hf E]]|[[Hr [[Hlt E]|[Hge E]]]|[st [ra [j [Ea [Est E]]]]]]].
    + right. left. exists a, e.
      repeat split; try assumption; try lia.
      rewrite E, core_retries_nil. reflexivity.
    + rewrite Hlt in Hr. cbn [negb] in Hr. apply Nat.ltb_lt in Hlt.
      destruct (IH (S a) ltac:(lia))
        as [[k [body [st [ra [H1 [H2 [H3 [H4 [H5 H6]]]]]]]]]
           |[[k [e [H1 [H2 [H3 [H4 H6]]]]]]|[Hall [Hlast He]]]].
      * left. exists k, body, st, ra.
        repeat split; try assumption; try lia.
        -- intros j Haj Hjk. destruct (Nat.eq_dec j a) as [->|]; [assumption|].
           apply H3; lia.
        -- rewrite E, H6. unfold after. simpl fst. simpl snd.
           rewrite (core_retries_cons net a k) by lia.
           rewrite <- app_assoc. reflexivity.
      * right. left. exists k, e.
        repeat split; try assumption; try lia.
        -- intros j Haj Hjk. destruct (Nat.eq_dec j a) as [->|]; [assumption|].
           apply H3; lia.
        -- rewrite E, H6. unfold after. simpl fst. simpl snd.
           rewrite (core_retries_cons net a k) by lia.
           rewrite <- app_assoc. reflexivity.
      * right. right. split; [|split].
        -- intros j Haj Hjr. destruct (Nat.eq_dec j a) as [->|]; [assumption|].
           apply Hall; lia.
        -- intros _. apply Hlast. lia.
        -- rewrite E, He. destruct n as [|m]; [lia|].
           unfold after. simpl fst. simpl snd.
           rewrite (core_retries_cons net a (a + S m)) by lia.
           replace (a + S m) with (S a + m) by lia.
           rewrite <- app_assoc. reflexivity.
    + rewrite Hge in Hr. cbn [negb] in Hr.
      apply Nat.ltb_ge in Hge. assert (n = 0) by lia. subst n.
      right. right. split; [|split].
      * intros j Haj Hjr. lia.
      * intros _. replace (retries - 1) with a by lia. exact Hr.
      * rewrite E. rewrite Nat.add_0_r, core_retries_nil. reflexivity.
    + left. exists a, j, st, ra.
      repeat split; try assumption; try lia.
      rewrite E, core_retries_nil. reflexivity.
Qed.

End CoreRuns.

Section ModularRuns.
Variable net : nat -> outcome.
Variable method : string.
Variable retries : nat.
Hypothesis Hmethod : supported method = true.

(** One iteration of the loop of [make_request]. *)
Lemma modular_attempts_cons a rest :
  (transient (net a) = true /\
     (((a <? retries - 1) = true /\
       modular_attempts net method retries (a :: rest)
       = after [RateLimitWait; Exchange a; Wait (modular_pause a (net a))]
               (modular_attempts net method retries rest))
      \/ ((a <? retries - 1) = false /\
          modular_attempts net method retries (a :: rest)
          = (Raise (modular_error (net a)), [RateLimitWait; Exchange a]))))
  \/ (transient (net a) = false /\
      exists st ra j, net a = Response st ra (Some j)
        /\ modular_attempts net method retries (a :: rest)
           = (Ok j, [RateLimitWait; Exchange a])).
Proof.
  simpl modular_attempts. rewrite Hmethod. cbv beta iota delta [negb].
  destruct (net a) as [| |st ra [j|]]; simpl transient.
  - left. split; [reflexivity|].
    destruct (a <? retries - 1); [left|right]; split; eauto.
  - left. split; [reflexivity|].
    destruct (a <? retries - 1); [left|right]; split; eauto.
  - right. split; [reflexivity|]. exists st, ra, j. auto.
  - left. split; [reflexivity|].
    destruct (a <? retries - 1); [left|right]; split; eauto.
Qed.

Lemma modular_run n : forall a, a + n = retries ->
  (exists k body st ra,
      a <= k /\ k < retries
      /\ (forall j, a <= j -> j < k -> transient (net j) = true)
      /\ net k = Response st ra (Some body)
      /\ modular_attempts net method retries (seq a n)
         = (Ok body,
            (modular_retries net a k ++ [RateLimitWait; Exchange k])%list))
  \/ ((forall j, a <= j -> j < retries -> transient (net j) = true)
      /\ modular_attempts net method retries (seq a n)
         = match n with
           | 0 => (Raise (Exception "Tutti i tentativi falliti"), [])
           | S m => (Raise (modular_error (net (a + m))),
                     (modular_retries net a (a + m)
                      ++ [RateLimitWait; Exchange (a + m)])%list)
           end).
Proof.
  induction n as [|n IH]; intros a Han.
  - right. split; [intros; lia|]. reflexivity.
  - simpl seq.
    destruct (modular_attempts_cons a (seq (S a) n))
      as [[Hr [[Hlt E]|[Hge E]]]|[Hr [st [ra [j [Ea E]]]]]].
    + apply Nat.ltb_lt in Hlt.
      destruct (IH (S a) ltac:(lia))
        as [[k [body [st [ra [H1 [H2 [H3 [H4 H6]]]]]]]]|[Hall He]].
      * left. exists k, body, st, ra.
        repeat split; try assumption; try lia.
        -- intros j Haj Hjk. destruct (Nat.eq_dec j a) as [->|]; [assumption|].
           apply H3; lia.
        -- rewrite E, H6. unfold after. simpl fst. simpl snd.
           rewrite (modular_retries_cons net a k) by lia.
           rewrite <- app_assoc. reflexivity.
      * right. split.
        -- intros j Haj Hjr. destruct (Nat.eq_dec j a) as [->|]; [assumption|].
           apply Hall; lia.
        -- rewrite E, He. destruct n as [|m]; [lia|].
           unfold after. simpl fst. simpl snd.
           rewrite (modular_retries_cons net a (a + S m)) by lia.
           replace (a + S m) with (S a + m) by lia.
           rewrite <- app_assoc. reflexivity.
    + apply Nat.ltb_ge in Hge. assert (n = 0) by lia. subst n.
      right. split.
      * intros j Haj Hjr. replace j with a by lia. assumption.
      * rewrite E. rewrite Nat.add_0_r, modular_retries_nil. reflexivity.
    + left. exists a, j, st, ra.
      repeat split; try assumption; try lia.
      rewrite E, modular_retries_nil. reflexivity.
Qed.

End ModularRuns.

(** An unsupported method: the clean gateway lets the [ValueError] out of
    its first iteration; the modular one catches it in its generic
    handler, sleeps a second and tries again. *)
Lemma core_unsupported net method retries a rest :
  supported method = false ->
  core_attempts net method retries (a :: rest)
  = (Raise (ValueError "Metodo HTTP non supportato"), []).
Proof. intros Hm. simpl. rewrite Hm. reflexivity. Qed.

Lemma modular_unsupported net method retries :
  supported method = false ->
  forall n a, a + n = retries ->
    modular_attempts net method retries (seq a n)
    = match n with
      | 0 => (Raise (Exception "Tutti i tentativi falliti"), [])
      | S m => (Raise (ValueError "Metodo HTTP non supportato"),
                (flat_map (fun _ => [RateLimitWait; Wait 1]) (seq a m)
                 ++ [RateLimitWait])%list)
      end.
Proof.
  intros Hm. induction n as [|n IH]; intros a Han; [reflexivity|].
  simpl seq. simpl modular_attempts. rewrite Hm. cbv beta iota delta [negb].
  destruct n as [|m].
  - replace (a <? retries - 1) with false
      by (symmetry; apply Nat.ltb_ge; lia).
    reflexivity.
  - replace (a <? retries - 1) with true
      by (symmetry; apply Nat.ltb_lt; lia).
    rewrite (IH (S a)) by lia. reflexivity.
Qed.

(** Projections of the retry prefixes. *)
Lemma waits_app s1 s2 : waits (s1 ++ s2) = (waits s1 ++ waits s2)%list.
Proof. unfold waits. apply flat_map_app. Qed.

Lemma filter_core_retries net k : forall a,
  List.filter is_exchange (core_retries net a k) = map Exchange (seq a (k - a)).
Proof.
  intros a. unfold core_retries. generalize (k - a) as n. intros n. revert a.
  induction n as [|n IH]; intros a; [reflexivity|].
  simpl. f_equal. apply IH.
Qed.

Lemma filter_modular_retries net k : forall a,
  List.filter is_exchange (modular_retries net a k)
  = map Exchange (seq a (k - a)).
Proof.
  intros a. unfold modular_retries. generalize (k - a) as n. intros n. revert a.
  induction n as [|n IH]; intros a; [reflexivity|].
  simpl. f_equal. apply IH.
Qed.

Lemma waits_core_retries net k : forall a,
  waits (core_retries net a k)
  = map (fun j => core_pause j (net j)) (seq a (k - a)).
Proof.
  intros a. unfold core_retries. generalize (k - a) as n. intros n. revert a.
  induction n as [|n IH]; intros a; [reflexivity|].
  simpl seq. simpl flat_map. unfold waits in *. simpl. f_equal. apply IH.
Qed.

Lemma waits_modular_retries net k : forall a,
  waits (modular_retries net a k)
  = map (fun j => modular_pause j (net j)) (seq a (k - a)).
Proof.
  intros a. unfold modular_retries. generalize (k - a) as n. intros n. revert a.
  induction n as [|n IH]; intros a; [reflexivity|].
  simpl seq. simpl flat_map. unfold waits in *. simpl. f_equal. apply IH.
Qed.

Lemma filter_core_returned net k :
  List.filter is_exchange (core_retries net 0 k ++ [Exchange k])
  = map Exchange (seq 0 (S k)).
Proof.
  rewrite List.filter_app, filter_core_retries, Nat.sub_0_r, seq_S, map_app.
  reflexivity.
Qed.

Lemma filter_modular_returned net k :
  List.filter is_exchange
    (modular_retries net 0 k ++ [RateLimitWait; Exchange k])
  = map Exchange (seq 0 (S k)).
Proof.
  rewrite List.filter_app, filter_modular_retries, Nat.sub_0_r, seq_S, map_app.
  reflexivity.
Qed.

Lemma sum_powers k : list_sum (map (fun j => 2 ^ j) (seq 0 k)) = 2 ^ k - 1.
Proof.
  induction k as [|k IH]; [reflexivity|].
  rewrite seq_S, map_app, list_sum_app, IH. simpl map. simpl list_sum.
  rewrite Nat.pow_succ_r'.
  assert (0 < 2 ^ k) by (apply Nat.neq_0_lt_0, Nat.pow_nonzero; lia).
  lia.
Qed.

Lemma sum_evens k :
  list_sum (map (fun j => (j + 1) * 2) (seq 0 k)) = k * (k + 1).
Proof.
  induction k as [|k IH]; [reflexivity|].
  rewrite seq_S, map_app, list_sum_app, IH. simpl map. simpl list_sum. nia.
Qed.

Lemma map_seq_ext {A} (f g : nat -> A) a n :
  (forall j, a <= j -> j < a + n -> f j = g j) ->
  map f (seq a n) = map g (seq a n).
Proof.
  intros Hfg. apply map_ext_in. intros j Hj. apply in_seq in Hj.
  apply Hfg; lia.
Qed.

(** Which of the three ways a call of [request] ends is fixed by the
    outcomes of its attempts. *)
Section CoreOutcomes.
Variable net : nat -> outcome.
Variable method : string.
Variable retries : nat.
Hypothesis Hmethod : supported method = true.

Lemma not_last k : k < retries - 1 -> negb (k <? retries - 1) = false.
Proof. intros Hk. apply Nat.ltb_lt in Hk. rewrite Hk. reflexivity. Qed.

Lemma retried_is_not_good j st ra body :
  core_retryable (net j) = true ->
  net j = Response st ra (Some body) -> is_http_error st = false -> False.
Proof.
  intros Hr Hn Hs. unfold core_retryable in Hr.
  rewrite Hn, (proj1 (good_not_failed false st ra body Hs)) in Hr.
  discriminate.
Qed.

Lemma retried_is_not_fatal j e :
  j < retries - 1 ->
  core_retryable (net j) = true ->
  rate_limit_error (negb (j <? retries - 1)) (net j) = Some e -> False.
Proof.
  intros Hj Hr Hf. rewrite (not_last j Hj) in Hf.
  rewrite (failed_no_rate_limit_error _ _ Hr) in Hf. discriminate.
Qed.

Lemma fatal_is_not_good last j e st ra body :
  rate_limit_error last (net j) = Some e ->
  net j = Response st ra (Some body) -> is_http_error st = false -> False.
Proof.
  intros Hf Hn Hs.
  rewrite Hn, (proj2 (good_not_failed last st ra body Hs)) in Hf.
  discriminate.
Qed.

Lemma given_up_is_not_good st ra body :
  core_gives_up (net (retries - 1)) = true ->
  net (retries - 1) = Response st ra (Some body) ->
  is_http_error st = false -> False.
Proof.
  intros Hg Hn Hs. unfold core_gives_up in Hg.
  rewrite Hn, (proj1 (good_not_failed true st ra body Hs)) in Hg.
  discriminate.
Qed.

(** The outcome of a call that meets a good answer at attempt [k]. *)
Lemma core_request_returns k st ra body :
  k < retries ->
  (forall j, j < k -> core_retryable (net j) = true) ->
  net k = Response st ra (Some body) ->
  is_http_error st = false ->
  request net method retries
  = (Ok body, (core_retries net 0 k ++ [Exchange k])%list).
Proof.
  intros Hk Hbefore Hnet Hst. unfold request, Py.range.
  destruct (core_run net method retries Hmethod retries 0 eq_refl)
    as [[k' [body' [st' [ra' [_ [Hk' [Hb' [Hn' [Hs' E]]]]]]]]]
       |[[k' [e [_ [Hk' [Hb' [Hf' E]]]]]]|[Hall [Hlast _]]]].
  - assert (k' = k).
    { destruct (Nat.lt_trichotomy k' k) as [Hlt|[Heq|Hgt]]; [|exact Heq|].
      - destruct (retried_is_not_good k' st' ra' body' (Hbefore k' Hlt) Hn' Hs').
      - destruct (retried_is_not_good k st ra body
                    (Hb' k ltac:(lia) Hgt) Hnet Hst). }
    subst k'. rewrite Hnet in Hn'. injection Hn' as _ _ <-. exact E.
  - exfalso. destruct (Nat.lt_trichotomy k' k) as [Hlt|[Heq|Hgt]].
    + apply (retried_is_not_fatal k' e ltac:(lia) (Hbefore k' Hlt) Hf').
    + subst k'. apply (fatal_is_not_good _ k e st ra body Hf' Hnet Hst).
    + apply (retried_is_not_good k st ra body (Hb' k ltac:(lia) Hgt) Hnet Hst).
  - exfalso. destruct (Nat.eq_dec k (retries - 1)) as [->|Hne].
    + apply (given_up_is_not_good st ra body (Hlast ltac:(lia)) Hnet Hst).
    + apply (retried_is_not_good k st ra body
               (Hall k ltac:(lia) ltac:(lia)) Hnet Hst).
Qed.

(** The outcome of a call ended by a rate-limit header at attempt [k]. *)
Lemma core_request_fatal k e :
  k < retries ->
  (forall j, j < k -> core_retryable (net j) = true) ->
  rate_limit_error (negb (k <? retries - 1)) (net k) = Some e ->
  request net method retries
  = (Raise e, (core_retries net 0 k ++ [Exchange k])%list).
Proof.
  intros Hk Hbefore Hf. unfold request, Py.range.
  destruct (core_run net method retries Hmethod retries 0 eq_refl)
    as [[k' [body' [st' [ra' [_ [Hk' [Hb' [Hn' [Hs' E]]]]]]]]]
       |[[k' [e' [_ [Hk' [Hb' [Hf' E]]]]]]|[Hall [Hlast _]]]].
  - exfalso. destruct (Nat.lt_trichotomy k' k) as [Hlt|[Heq|Hgt]].
    + apply (retried_is_not_good k' st' ra' body' (Hbefore k' Hlt) Hn' Hs').
    + subst k'. apply (fatal_is_not_good _ k e st' ra' body' Hf Hn' Hs').
    + apply (retried_is_not_fatal k e ltac:(lia) (Hb' k ltac:(lia) Hgt) Hf).
  - assert (k' = k).
    { destruct (Nat.lt_trichotomy k' k) as [Hlt|[Heq|Hgt]]; [|exact Heq|].
      - destruct (retried_is_not_fatal k' e' ltac:(lia) (Hbefore k' Hlt) Hf').
      - destruct (retried_is_not_fatal k e ltac:(lia)
                    (Hb' k ltac:(lia) Hgt) Hf). }
    subst k'. rewrite Hf in Hf'. injection Hf' as <-. exact E.
  - exfalso. destruct (Nat.eq_dec k (retries - 1)) as [->|Hne].
    + replace (negb (retries - 1 <? retries - 1)) with true in Hf
        by (rewrite Nat.ltb_irrefl; reflexivity).
      specialize (Hlast ltac:(lia)). unfold core_gives_up in Hlast.
      rewrite (failed_no_rate_limit_error _ _ Hlast) in Hf. discriminate.
    + apply (retried_is_not_fatal k e ltac:(lia)
               (Hall k ltac:(lia) ltac:(lia)) Hf).
Qed.

(** The outcome of a call all of whose attempts fail. *)
Lemma core_request_exhausted :
  0 < retries ->
  (forall j, j < retries - 1 -> core_retryable (net j) = true) ->
  core_gives_up (net (retries - 1)) = true ->
  request net method retries
  = (Raise (core_error (net (retries - 1))),
     (core_retries net 0 (retries - 1) ++ [Exchange (retries - 1)])%list).
Proof.
  intros Hr Hbefore Hlast. unfold request, Py.range.
  destruct (core_run net method retries Hmethod retries 0 eq_refl)
    as [[k' [body' [st' [ra' [_ [Hk' [Hb' [Hn' [Hs' E]]]]]]]]]
       |[[k' [e' [_ [Hk' [Hb' [Hf' E]]]]]]|[_ [_ E]]]].
  - exfalso. destruct (Nat.eq_dec k' (retries - 1)) as [->|Hne].
    + apply (given_up_is_not_good st' ra' body' Hlast Hn' Hs').
    + apply (retried_is_not_good k' st' ra' body'
               (Hbefore k' ltac:(lia)) Hn' Hs').
  - exfalso. destruct (Nat.eq_dec k' (retries - 1)) as [->|Hne].
    + replace (negb (retries - 1 <? retries - 1)) with true in Hf'
        by (rewrite Nat.ltb_irrefl; reflexivity).
      unfold core_gives_up in Hlast.
      rewrite (failed_no_rate_limit_error _ _ Hlast) in Hf'. discriminate.
    + apply (retried_is_not_fatal k' e' ltac:(lia)
               (Hbefore k' ltac:(lia)) Hf').
  - rewrite E. destruct retries as [|m]; [lia|].
    replace (S m - 1) with (0 + m) by lia. reflexivity.
Qed.

End CoreOutcomes.

Lemma modular_request_returns net method retries k st ra body :
  supported method = true ->
  k < retries ->
  (forall j, j < k -> transient (net j) = true) ->
  net k = Response st ra (Some body) ->
  make_request net method retries
  = (Ok body, (modular_retries net 0 k ++ [RateLimitWait; Exchange k])%list).
Proof.
  intros Hm Hk Hbefore Hnet. unfold make_request, Py.range.
  destruct (modular_run net method retries Hm retries 0 eq_refl)
    as [[k' [body' [st' [ra' [_ [Hk' [Hb' [Hn' E]]]]]]]]|[Hall _]].
  - assert (k' = k).
    { destruct (Nat.lt_trichotomy k' k) as [Hlt|[Heq|Hgt]]; [|exact Heq|].
      - pose proof (Hbefore k' Hlt) as Hr.
        rewrite Hn' in Hr. discriminate.
      - pose proof (Hb' k ltac:(lia) Hgt) as Hr.
        rewrite Hnet in Hr. discriminate. }
    subst k'. rewrite Hnet in Hn'. injection Hn' as _ _ <-. exact E.
  - pose proof (Hall k ltac:(lia) Hk) as Hr.
    rewrite Hnet in Hr. discriminate.
Qed.


Lemma exchanges_core_returned net k :
  exchanges (core_retries net 0 k ++ [Exchange k]) = S k.
Proof.
  unfold exchanges. rewrite filter_core_returned, length_map, length_seq.
  reflexivity.
Qed.

Lemma exchanges_modular_returned net k :
  exchanges (modular_retries net 0 k ++ [RateLimitWait; Exchange k]) = S k.
Proof.
  unfold exchanges. rewrite filter_modular_returned, length_map, length_seq.
  reflexivity.
Qed.

(** A body is returned only by an attempt that received it. *)
Lemma core_returns_inv net method retries body :
  fst (request net method retries) = Ok body ->
  supported method = true
  /\ exists k st ra,
       k < retries
       /\ (forall j, j < k -> core_retryable (net j) = true)
       /\ net k = Response st ra (Some body)
       /\ is_http_error st = false.
Proof.
  intros Hret. destruct (supported method) eqn:Hm.
  - split; [reflexivity|]. revert Hret. unfold request, Py.range.
    destruct (core_run net method retries Hm retries 0 eq_refl)
      as [[k [body' [st [ra [_ [Hk [Hb [Hn [Hs E]]]]]]]]]
         |[[k [e [_ [_ [_ [_ E]]]]]]|[_ [_ E]]]];
      rewrite E.
    + simpl. intros [= <-]. exists k, st, ra.
      repeat split; try assumption. intros j Hj. apply Hb; lia.
    + discriminate.
    + destruct retries; discriminate.
  - exfalso. revert Hret. unfold request, Py.range.
    destruct retries as [|m]; [discriminate|].
    simpl seq. rewrite core_unsupported by exact Hm. discriminate.
Qed.

Lemma modular_returns_inv net method retries body :
  fst (make_request net method retries) = Ok body ->
  supported method = true
  /\ exists k st ra,
       k < retries
       /\ (forall j, j < k -> transient (net j) = true)
       /\ net k = Response st ra (Some body).
Proof.
  intros Hret. destruct (supported method) eqn:Hm.
  - split; [reflexivity|]. revert Hret. unfold make_request, Py.range.
    destruct (modular_run net method retries Hm retries 0 eq_refl)
      as [[k [body' [st [ra [_ [Hk [Hb [Hn E]]]]]]]]|[_ E]];
      rewrite E.
    + simpl. intros [= <-]. exists k, st, ra.
      repeat split; try assumption. intros j Hj. apply Hb; lia.
    + destruct retries; discriminate.
  - exfalso. revert Hret. unfold make_request, Py.range.
    rewrite (modular_unsupported net method retries Hm retries 0 eq_refl).
    destruct retries; discriminate.
Qed.

Lemma filter_unsupported_retries (l : list nat) :
  List.filter is_exchange
    (flat_map (fun _ => [RateLimitWait; Wait 1]) l ++ [RateLimitWait]) = [].
Proof. induction l as [|x l IH]; [reflexivity|exact IH]. Qed.

Lemma waits_unsupported_retries a m :
  waits (flat_map (fun _ => [RateLimitWait; Wait 1]) (seq a m)
         ++ [RateLimitWait]) = repeat 1 m.
Proof.
  revert a. induction m as [|m IH]; intros a; [reflexivity|].
  simpl seq. simpl flat_map. simpl app. unfold waits in *. simpl.
  f_equal. apply IH.
Qed.

(** ** Error payloads *)

Lemma http_error_failed last st ra parsed :
  is_http_error st = true ->
  (st = 429%Z -> waitable (Response st ra parsed) = true) ->
  core_failed last (Response st ra parsed) = true.
Proof.
  intros Hst Hw. unfold core_failed, rate_limit_error.
  destruct (st =? 429)%Z eqn:E; [|rewrite Hst; reflexivity].
  apply Z.eqb_eq in E. specialize (Hw E). rewrite Hst.
  destruct ra as [|z|]; cbn [wait_time_of]; [| |discriminate].
  - change (60 <? 0)%Z with false. rewrite andb_false_r. reflexivity.
  - simpl in Hw. apply Z.leb_le in Hw.
    replace (z <? 0)%Z with false by (symmetry; apply Z.ltb_ge; lia).
    rewrite andb_false_r. reflexivity.
Qed.




(** X1.  Neither gateway makes more than [retries] exchanges, whatever the
    network answers and whatever the method: the exchanges of one call are
    those of the attempts [0], [1], ..., [m - 1] in this order, for some
    [m <= retries]; no attempt is repeated or skipped. *)
Theorem attempts_are_consecutive
  (net : nat -> outcome) (method : string) (retries : nat) :
  (exists m, m <= retries
     /\ List.filter is_exchange (snd (request net method retries))
        = map Exchange (seq 0 m))
  /\ (exists m, m <= retries
     /\ List.filter is_exchange (snd (make_request net method retries))
        = map Exchange (seq 0 m)).
Proof.
  unfold request, make_request, Py.range.
  destruct (supported method) eqn:Hm.
  - split.
    + destruct (core_run net method retries Hm retries 0 eq_refl)
        as [[k [body [st [ra [_ [Hk [_ [_ [_ E]]]]]]]]]
           |[[k [e [_ [Hk [_ [_ E]]]]]]|[_ [_ E]]]]; rewrite E.
      * exists (S k). split; [lia|]. apply filter_core_returned.
      * exists (S k). split; [lia|]. apply filter_core_returned.
      * destruct retries as [|m]; [exists 0; split; [lia|reflexivity]|].
        exists (S m). split; [lia|]. apply filter_core_returned.
    + destruct (modular_run net method retries Hm retries 0 eq_refl)
        as [[k [body [st [ra [_ [Hk [_ [_ E]]]]]]]]|[_ E]]; rewrite E.
      * exists (S k). split; [lia|]. apply filter_modular_returned.
      * destruct retries as [|m]; [exists 0; split; [lia|reflexivity]|].
        exists (S m). split; [lia|]. apply filter_modular_returned.
  - split; exists 0; (split; [lia|]).
    + destruct retries as [|m]; [reflexivity|].
      simpl seq. rewrite core_unsupported by exact Hm. reflexivity.
    + rewrite (modular_unsupported net method retries Hm retries 0 eq_refl).
      destruct retries as [|m]; [reflexivity|].
      simpl snd. apply filter_unsupported_retries.
Qed.



(** X3.  When the modular gateway returns.  [make_request] returns a body
    exactly when the method is supported and some attempt [k < retries]
    receives a response whose body is JSON, every earlier attempt having
    ended in a timeout, a transport error or a body that is not JSON; the
    HTTP status plays no part. *)
Theorem make_request_returns_iff
  (net : nat -> outcome) (method : string) (retries : nat) (body : json) :
  fst (make_request net method retries) = Ok body
  <->
  supported method = true
  /\ exists k st ra,
       k < retries
       /\ (forall j, j < k -> transient (net j) = true)
       /\ net k = Response st ra (Some body).
Proof.
  split; [apply modular_returns_inv|].
  intros [Hm [k [st [ra [Hk [Hb Hn]]]]]].
  rewrite (modular_request_returns net method retries k st ra body Hm Hk Hb Hn).
  reflexivity.
Qed.

Lemma make_request_returns_iff_witness :
  fst (make_request (failing_until 1 Timeout (always_500 0)) "POST" 3)
  = Ok (JDict [("code", JInt 500)]).
Proof.
  apply (proj2 (make_request_returns_iff
                  (failing_until 1 Timeout (always_500 0))
                  "POST" 3 (JDict [("code", JInt 500)]))).
  split; [reflexivity|]. exists 1, 500%Z, Absent.
  split; [lia|]. split; [|reflexivity].
  intros j Hj. destruct j as [|j]; [reflexivity|lia].
Defined.

(** X4.  A method other than GET, POST, PUT and DELETE is never sent.  The
    clean gateway raises [ValueError] at once, with no exchange and no
    pause.  The modular gateway raises the same [ValueError] only after
    going through all its attempts, sleeping one second after each but the
    last, still without any exchange. *)
Theorem unsupported_method_is_never_sent
  (net : nat -> outcome) (method : string) (retries : nat) :
  supported method = false ->
  0 < retries ->
  request net method retries
  = (Raise (ValueError "Metodo HTTP non supportato"), [])
  /\ fst (make_request net method retries)
     = Raise (ValueError "Metodo HTTP non supportato")
  /\ exchanges (snd (make_request net method retries)) = 0
  /\ waits (snd (make_request net method retries)) = repeat 1 (retries - 1).
Proof.
  intros Hm Hr. unfold request, make_request, Py.range.
  rewrite (modular_unsupported net method retries Hm retries 0 eq_refl).
  destruct retries as [|m]; [lia|].
  simpl seq. rewrite core_unsupported by exact Hm.
  repeat split.
  - unfold exchanges. simpl snd. rewrite filter_unsupported_retries.
    reflexivity.
  - simpl snd. rewrite waits_unsupported_retries. f_equal. lia.
Qed.

Lemma unsupported_method_is_never_sent_witness :
  request always_500 "PATCH" 3
  = (Raise (ValueError "Metodo HTTP non supportato"), [])
  /\ fst (make_request always_500 "PATCH" 3)
     = Raise (ValueError "Metodo HTTP non supportato")
  /\ exchanges (snd (make_request always_500 "PATCH" 3)) = 0
  /\ waits (snd (make_request always_500 "PATCH" 3)) = repeat 1 (3 - 1).
Proof.
  apply (unsupported_method_is_never_sent always_500 "PATCH" 3).
  - reflexivity.
  - lia.
Defined.

(** X5.  Backoff of the clean gateway.  When the first [k] attempts end in
    a timeout or a transport error and attempt [k] receives a good answer,
    [request] returns its body after sleeping 1, 2, 4, ... seconds between
    the attempts, [2 ^ k - 1] seconds in all. *)
Theorem request_backoff
  (net : nat -> outcome) (method : string) (retries k : nat)
  (st : Z) (ra : retry_after_header) (body : json) :
  supported method = true ->
  k < retries ->
  (forall j, j < k -> transport_failure (net j) = true) ->
  net k = Response st ra (Some body) ->
  is_http_error st = false ->
  fst (request net method retries) = Ok body
  /\ waits (snd (request net method retries))
     = map (fun j => 2 ^ j) (seq 0 k)
  /\ total_wait (snd (request net method retries)) = 2 ^ k - 1.
Proof.
  intros Hm Hk Hb Hn Hs.
  assert (Hretry : forall j, j < k -> core_retryable (net j) = true).
  { intros j Hj. specialize (Hb j Hj). destruct (net j); [reflexivity..|discriminate]. }
  rewrite (core_request_returns net method retries Hm k st ra body Hk Hretry Hn Hs).
  assert (Hw : waits (core_retries net 0 k ++ [Exchange k])
               = map (fun j => 2 ^ j) (seq 0 k)).
  { rewrite waits_app, waits_core_retries, Nat.sub_0_r, app_nil_r.
    apply map_seq_ext. intros j _ Hj. specialize (Hb j ltac:(lia)).
    destruct (net j); [reflexivity..|discriminate]. }
  split; [reflexivity|]. split; [exact Hw|].
  unfold total_wait. simpl snd. rewrite Hw. apply sum_powers.
Qed.

Lemma request_backoff_witness :
  fst (request (failing_until 2 Timeout ok_200) "GET" 3)
  = Ok (JDict [("code", JInt 200)])
  /\ waits (snd (request (failing_until 2 Timeout ok_200) "GET" 3))
     = map (fun j => 2 ^ j) (seq 0 2)
  /\ total_wait (snd (request (failing_until 2 Timeout ok_200) "GET" 3))
     = 2 ^ 2 - 1.
Proof.
  apply (request_backoff (failing_until 2 Timeout ok_200) "GET" 3 2
           200%Z Absent (JDict [("code", JInt 200)])).
  - reflexivity.
  - lia.
  - intros j Hj. destruct j as [|[|j]]; [reflexivity|reflexivity|lia].
  - reflexivity.
  - reflexivity.
Defined.

(** X6.  Backoff of the modular gateway.  When the first [k] attempts end
    in a timeout or a transport error and attempt [k] receives a JSON
    body, [make_request] returns it after sleeping 2, 4, 6, ... seconds
    between the attempts, [k * (k + 1)] seconds in all: the pauses grow
    linearly, not exponentially. *)
Theorem make_request_backoff
  (net : nat -> outcome) (method : string) (retries k : nat)
  (st : Z) (ra : retry_after_header) (body : json) :
  supported method = true ->
  k < retries ->
  (forall j, j < k -> transport_failure (net j) = true) ->
  net k = Response st ra (Some body) ->
  fst (make_request net method retries) = Ok body
  /\ waits (snd (make_request net method retries))
     = map (fun j => (j + 1) * 2) (seq 0 k)
  /\ total_wait (snd (make_request net method retries)) = k * (k + 1).
Proof.
  intros Hm Hk Hb Hn.
  assert (Hretry : forall j, j < k -> transient (net j) = true).
  { intros j Hj. specialize (Hb j Hj). destruct (net j); [reflexivity..|discriminate]. }
  rewrite (modular_request_returns net method retries k st ra body Hm Hk Hretry Hn).
  assert (Hw : waits (modular_retries net 0 k ++ [RateLimitWait; Exchange k])
               = map (fun j => (j + 1) * 2) (seq 0 k)).
  { rewrite waits_app, waits_modular_retries, Nat.sub_0_r, app_nil_r.
    apply map_seq_ext. intros j _ Hj. specialize (Hb j ltac:(lia)).
    unfold modular_pause. rewrite Hb. reflexivity. }
  split; [reflexivity|]. split; [exact Hw|].
  unfold total_wait. simpl snd. rewrite Hw. apply sum_evens.
Qed.

Lemma make_request_backoff_witness :
  fst (make_request (failing_until 2 ConnectionError ok_200) "PUT" 3)
  = Ok (JDict [("code", JInt 200)])
  /\ waits (snd (make_request (failing_until 2 ConnectionError ok_200) "PUT" 3))
     = map (fun j => (j + 1) * 2) (seq 0 2)
  /\ total_wait
       (snd (make_request (failing_until 2 ConnectionError ok_200) "PUT" 3))
     = 2 * (2 + 1).
Proof.
  apply (make_request_backoff (failing_until 2 ConnectionError ok_200) "PUT"
           3 2 200%Z Absent (JDict [("code", JInt 200)])).
  - reflexivity.
  - lia.
  - intros j Hj. destruct j as [|[|j]]; [reflexivity|reflexivity|lia].
  - reflexivity.
Defined.





(** X9.  [test_connection] of the modular gateway answers [True] exactly
    when, within three attempts, the first response with a JSON body is a
    dictionary whose [code] field is 200 or 201.  It looks at the body,
    not at the HTTP status, and it turns every failure (also a body that
    is not a dictionary) into [False]. *)
Theorem test_connection_iff (net : nat -> outcome) :
  test_connection net = true
  <->
  exists k st ra body c,
    k < 3
    /\ (forall j, j < k -> transient (net j) = true)
    /\ net k = Response st ra (Some body)
    /\ Py.get body "code" = Ok c
    /\ Py.in_200_201 c = true.
Proof.
  unfold test_connection. split.
  - destruct (fst (make_request net "GET" 3)) as [body|e] eqn:E;
      [|discriminate].
    apply modular_returns_inv in E.
    destruct E as [_ [k [st [ra [Hk [Hb Hn]]]]]].
    destruct (Py.get body "code") as [c|e] eqn:G; [|discriminate].
    intros Hc. exists k, st, ra, body, c. auto.
  - intros [k [st [ra [body [c [Hk [Hb [Hn [G Hc]]]]]]]]].
    assert (E : fst (make_request net "GET" 3) = Ok body).
    { rewrite (modular_request_returns net "GET" 3 k st ra body
                 eq_refl Hk Hb Hn).
      reflexivity. }
    rewrite E, G. exact Hc.
Qed.

Lemma test_connection_iff_witness :
  test_connection
    (failing_until 1 (Response 200 Absent None)
       (Response 500 Absent (Some (JDict [("code", JInt 200)])))) = true.
Proof.
  apply (proj2 (test_connection_iff
                  (failing_until 1 (Response 200 Absent None)
                     (Response 500 Absent (Some (JDict [("code", JInt 200)])))))).
  exists 1, 500%Z, Absent, (JDict [("code", JInt 200)]), (JInt 200).
  split; [lia|]. split; [|repeat split; reflexivity].
  intros j Hj. destruct j as [|j]; [reflexivity|lia].
Defined.

End GatewayFacts.

(* ===================================================================== *)
(** * Facts about the asset-URL cache *)
(* ===================================================================== *)

Module FileManagerFacts.
Import Placements Sys FileManager.

Section Cache.
Context {X : Type} `{World X}.
Implicit Types p : process X.

(** The two ways a request ends. *)
Lemma upload_with_cache_hit path p url :
  cache p !! path = Some url ->
  _upload_with_cache path p = (Ok url, p).
Proof. intros Hc. unfold _upload_with_cache. rewrite Hc. reflexivity. Qed.

Lemma upload_with_cache_miss path p :
  cache p !! path = None ->
  _upload_with_cache path p =
  let r := fst (upload_image path (ext p)) in
  let x := snd (upload_image path (ext p)) in
  (r,
   {| ext := x; fs := fs p; objs := objs p;
      cache := match r with
               | Ok url => <[path := url]> (cache p)
               | Raise _ => cache p
               end;
      trace := (trace p ++ [Upload path r])%list |}).
Proof.
  intros Hc. unfold _upload_with_cache. rewrite Hc.
  unfold bind, uploader_upload_image, bind, with_ext, log, lift, cache_store,
    ret. simpl.
  destruct (upload_image path (ext p)) as [[url|e] x]; reflexivity.
Qed.

Lemma successful_uploads_app path tr1 tr2 :
  successful_uploads path (tr1 ++ tr2)
  = successful_uploads path tr1 + successful_uploads path tr2.
Proof.
  unfold successful_uploads. rewrite List.filter_app, length_app. reflexivity.
Qed.

Lemma uploads_app path tr1 tr2 :
  uploads path (tr1 ++ tr2) = (uploads path tr1 ++ uploads path tr2)%list.
Proof. unfold uploads. apply List.filter_app. Qed.

(** One request: cached entries stay, a returned URL is the cached one
    afterwards, and the uploader is reached only for a path that is not
    cached. *)
Lemma upload_with_cache_step path p :
  let r := fst (_upload_with_cache path p) in
  let p1 := snd (_upload_with_cache path p) in
  (forall q u, cache p !! q = Some u -> cache p1 !! q = Some u)
  /\ (forall u, r = Ok u -> cache p1 !! path = Some u)
  /\ (forall q, is_Some (cache p !! q) ->
        uploads q (trace p1) = uploads q (trace p))
  /\ (forall q,
        successful_uploads q (trace p1)
        <= successful_uploads q (trace p)
           + match cache p1 !! q with Some _ => 1 | None => 0 end - match cache p !! q with Some _ => 1 | None => 0 end
        /\ (successful_uploads q (trace p) <= successful_uploads q (trace p1))).
Proof.
  destruct (cache p !! path) as [url|] eqn:Hc.
  - rewrite (upload_with_cache_hit _ _ _ Hc). simpl.
    repeat split; auto.
    + intros u [= <-]. exact Hc.
    + destruct (cache p !! q); lia.
  - rewrite (upload_with_cache_miss _ _ Hc). simpl.
    destruct (upload_image path (ext p)) as [[url|e] x]; simpl.
    + repeat split.
      * intros q u Hq. rewrite lookup_insert_ne; [exact Hq|].
        intros <-. congruence.
      * intros u [= <-]. apply lookup_insert_eq.
      * intros q [u Hq]. rewrite uploads_app. simpl.
        destruct (String.eqb_spec path q) as [->|Hne]; [congruence|].
        apply app_nil_r.
      * rewrite successful_uploads_app.
        unfold successful_uploads at 2. simpl.
        destruct (String.eqb_spec path q) as [->|Hne].
        -- rewrite lookup_insert_eq, Hc. simpl. lia.
        -- rewrite lookup_insert_ne by exact Hne. simpl.
           destruct (cache p !! q); lia.
      * rewrite successful_uploads_app. lia.
    + repeat split; auto.
      * intros u [=].
      * intros q [u Hq]. rewrite uploads_app. simpl.
        destruct (String.eqb_spec path q) as [->|Hne]; [congruence|].
        apply app_nil_r.
      * rewrite successful_uploads_app.
        unfold successful_uploads at 2. simpl.
        destruct (cache p !! q); lia.
      * rewrite successful_uploads_app. lia.
Qed.

(** A session of requests. *)
Lemma session_spec paths : forall p,
  let rs := fst (session paths p) in
  let p' := snd (session paths p) in
  (forall q u, cache p !! q = Some u -> cache p' !! q = Some u)
  /\ (forall i path u, paths !! i = Some path -> rs !! i = Some (Ok u) ->
        cache p' !! path = Some u)
  /\ (forall q, is_Some (cache p !! q) ->
        uploads q (trace p') = uploads q (trace p))
  /\ (forall q,
        successful_uploads q (trace p')
        <= successful_uploads q (trace p)
           + match cache p' !! q with Some _ => 1 | None => 0 end - match cache p !! q with Some _ => 1 | None => 0 end
        /\ successful_uploads q (trace p) <= successful_uploads q (trace p')).
Proof.
  induction paths as [|path rest IH]; intros p.
  - simpl. repeat split; auto.
    + intros i path u Hi. rewrite lookup_nil in Hi. discriminate.
    + destruct (cache p !! q); lia.
  - simpl session.
    pose proof (upload_with_cache_step path p) as S.
    destruct (_upload_with_cache path p) as [r p1]. simpl in S.
    destruct S as [S1 [S2 [S3 S4]]].
    specialize (IH p1).
    destruct (session rest p1) as [rs p2]. simpl in IH. simpl.
    destruct IH as [I1 [I2 [I3 I4]]].
    repeat split.
    + intros q u Hq. apply I1, S1, Hq.
    + intros [|i] q u Hi Hr; simpl in Hi, Hr.
      * injection Hi as <-. injection Hr as ->. apply I1, S2. reflexivity.
      * eapply I2; eauto.
    + intros q [u Hq]. rewrite I3, S3; eauto.
    + destruct (S4 q) as [A1 A2]. destruct (I4 q) as [B1 B2].
      destruct (cache p !! q) as [u|] eqn:Ep.
      * rewrite (S1 _ _ Ep) in A1, B1. rewrite (I1 _ _ (S1 _ _ Ep)) in B1 |- *.
        lia.
      * destruct (cache p1 !! q) as [u|] eqn:E1.
        -- rewrite (I1 _ _ E1) in B1 |- *. lia.
        -- destruct (cache p2 !! q); lia.
    + destruct (S4 q) as [A1 A2]. destruct (I4 q) as [B1 B2]. lia.
Qed.

(** C9, as the code has it.  In a session of upload requests made through
    [_upload_with_cache], all the URLs returned for one path are the same
    URL; the uploader returns a URL at most once per path; and a path
    that is cached is answered from the cache, without reaching the
    uploader.  (An upload that raises leaves no entry in the cache, and
    the next request for that path reaches the uploader again.) *)
Theorem C9_one_url_per_path (paths : list string) (p : process X) :
  let rs := fst (session paths p) in
  let p' := snd (session paths p) in
  (forall i j path u1 u2,
      paths !! i = Some path -> paths !! j = Some path ->
      rs !! i = Some (Ok u1) -> rs !! j = Some (Ok u2) -> u1 = u2)
  /\ (forall path,
         successful_uploads path (trace p')
         <= successful_uploads path (trace p) + 1)
  /\ (forall path u,
         cache p !! path = Some u ->
         uploads path (trace p') = uploads path (trace p)
         /\ forall i, paths !! i = Some path -> rs !! i = Some (Ok u)).
Proof.
  intros rs p'. subst rs p'.
  pose proof (session_spec paths p) as S. simpl in S.
  destruct S as [S1 [S2 [S3 S4]]].
  repeat split.
  - intros i j path u1 u2 Hi Hj Ri Rj.
    pose proof (S2 _ _ _ Hi Ri) as C1. pose proof (S2 _ _ _ Hj Rj) as C2.
    congruence.
  - intros path. destruct (S4 path) as [A _].
    destruct (cache (snd (session paths p)) !! path);
      destruct (cache p !! path); lia.
  - apply S3. eauto.
  - revert p S1 S2 S3 S4 H0. induction paths as [|q rest IH];
      intros p S1 S2 S3 S4 Hc i Hi.
    + rewrite lookup_nil in Hi. discriminate.
    + simpl session.
      destruct i as [|i]; simpl in Hi.
      * injection Hi as ->. rewrite (upload_with_cache_hit _ _ _ Hc).
        destruct (session rest p) as [rs p2]. simpl. eauto.
      * destruct (String.eqb_spec q path) as [->|Hne].
        -- rewrite (upload_with_cache_hit _ _ _ Hc).
           pose proof (session_spec rest p) as T. simpl in T.
           destruct T as [T1 [T2 [T3 T4]]].
           specialize (IH p T1 T2 T3 T4 Hc i Hi).
           destruct (session rest p) as [rs p2]. simpl in *. exact IH.
        -- pose proof (upload_with_cache_step q p) as U.
           destruct (_upload_with_cache q p) as [r p1]. simpl in U.
           destruct U as [U1 _].
           pose proof (session_spec rest p1) as T. simpl in T.
           destruct T as [T1 [T2 [T3 T4]]].
           specialize (IH p1 T1 T2 T3 T4 (U1 _ _ Hc) i Hi).
           destruct (session rest p1) as [rs p2]. simpl in *. exact IH.
Qed.

End Cache.

Import Script.

(** Two requests for one design: the second is answered from the cache. *)
Lemma C9_one_url_per_path_witness :
  let x := {| Script.api_replies := [];
              Script.upload_replies := [Ok "https://img/a.png"];
              Script.unreadable_images := []; Script.variant_table := [] |} in
  let p := Script.start x ["ricamo/a.png"] in
  let rs := fst (session ["ricamo/a.png"; "ricamo/a.png"] p) in
  rs !! 0 = Some (Ok "https://img/a.png")
  /\ rs !! 1 = Some (Ok "https://img/a.png")
  /\ "https://img/a.png" = "https://img/a.png".
Proof.
  intros x p rs.
  assert (R0 : rs !! 0 = Some (Ok "https://img/a.png")) by reflexivity.
  assert (R1 : rs !! 1 = Some (Ok "https://img/a.png")) by reflexivity.
  split; [exact R0|]. split; [exact R1|].
  exact (proj1 (C9_one_url_per_path ["ricamo/a.png"; "ricamo/a.png"] p)
           0 1 "ricamo/a.png" "https://img/a.png" "https://img/a.png"
           eq_refl eq_refl R0 R1).
Defined.

(** A first upload that fails is not cached: the second request for the
    same path invokes the uploader again, so that the uploader has been
    invoked twice for that path. *)
Lemma C9_failed_upload_is_repeated :
  let x := {| Script.api_replies := [];
              Script.upload_replies :=
                [Raise (Exception "Errore rete Cloudinary");
                 Ok "https://img/a.png"];
              Script.unreadable_images := []; Script.variant_table := [] |} in
  let p := Script.start x ["ricamo/a.png"] in
  fst (session ["ricamo/a.png"; "ricamo/a.png"] p)
  = [Raise (Exception "Errore rete Cloudinary"); Ok "https://img/a.png"]
  /\ uploads "ricamo/a.png"
       (trace (snd (session ["ricamo/a.png"; "ricamo/a.png"] p)))
     = [Upload "ricamo/a.png" (Raise (Exception "Errore rete Cloudinary"));
        Upload "ricamo/a.png" (Ok "https://img/a.png")]
  /\ ~ (length (uploads "ricamo/a.png"
          (trace (snd (session ["ricamo/a.png"; "ricamo/a.png"] p)))) <= 1).
Proof.
  intros x p. split; [reflexivity|]. split; [reflexivity|].
  vm_compute. lia.
Qed.

End FileManagerFacts.

(* ===================================================================== *)
(** * Facts about the builders *)
(* ===================================================================== *)

Module BuilderFacts.
Import Placements Sys FileManager.

Section Steps.
Context {X : Type} `{World X}.
Implicit Types p : process X.

(** ** Sequencing *)

Lemma bind_ok {A B} (c : M X A) (k : A -> M X B) p a p' :
  c p = (Ok a, p') -> bind c k p = k a p'.
Proof. intros E. unfold bind. rewrite E. reflexivity. Qed.

Lemma bind_raise {A B} (c : M X A) (k : A -> M X B) p e p' :
  c p = (Raise e, p') -> bind c k p = (Raise e, p').
Proof. intros E. unfold bind. rewrite E. reflexivity. Qed.

Lemma try_except_ok {A} (c : M X A) (handler : exn -> M X A) p a p' :
  c p = (Ok a, p') -> try_except c handler p = (Ok a, p').
Proof. intros E. unfold try_except. rewrite E. reflexivity. Qed.

Lemma try_except_raise {A} (c : M X A) (handler : exn -> M X A) p e p' :
  c p = (Raise e, p') -> try_except c handler p = handler e p'.
Proof. intros E. unfold try_except. rewrite E. reflexivity. Qed.

Lemma lift_run {A} (r : result A) p : lift r p = (r, p).
Proof. reflexivity. Qed.

Lemma read_ext_run {A} (f : X -> A) p : read_ext f p = (Ok (f (ext p)), p).
Proof. reflexivity. Qed.

(** ** The creation call *)

Lemma modular_create_initial_run pcm name pt variants u p entries p0
      response p1 :
  map_m (fun v => ModularBuilder._create_variant_payload pcm v pt u)
        (Planner.modular_initial_batch variants) p = (Ok entries, p0) ->
  ModularBuilder.send (POST StoreProducts) name (design_url u) entries p0
  = (Ok response, p1) ->
  ModularBuilder.create_initial pcm name pt variants u p =
  (match Py.get response "code" with
   | Ok c =>
       if Py.in_200_201 c then ModularBuilder.product_id_of response
       else Raise (Exception "Errore creazione prodotto")
   | Raise e => Raise e
   end, p1).
Proof.
  intros E1 E2.
  unfold ModularBuilder.create_initial, ModularBuilder._create_initial_product.
  unfold bind at 1. unfold bind at 1. rewrite E1.
  unfold bind at 1. rewrite E2.
  unfold bind, lift, raise, ret.
  destruct (Py.get response "code") as [c|e]; [|reflexivity].
  destruct (Py.in_200_201 c); reflexivity.
Qed.

Lemma core_create_initial_run pm name pt variants u p entries p0
      response p1 :
  CoreBuilder._build_variants_payload pm pt
    (Planner.core_initial_batch variants) u p = (Ok entries, p0) ->
  CoreBuilder.send (POST StoreProducts) name (design_url u) entries p0
  = (Ok response, p1) ->
  CoreBuilder.create_initial pm name pt variants u p =
  (match Py.get response "code" with
   | Ok c =>
       if Py.in_200_201 c then CoreBuilder.product_id_of response
       else Raise (Exception "Creazione fallita")
   | Raise e => Raise e
   end, p1).
Proof.
  intros E1 E2.
  unfold CoreBuilder.create_initial.
  unfold bind at 1. rewrite E1.
  unfold bind at 1. rewrite E2.
  unfold bind, lift, raise, ret.
  destruct (Py.get response "code") as [c|e]; [|reflexivity].
  destruct (Py.in_200_201 c); reflexivity.
Qed.

(** A creation step that raises fails the build (clean builder). *)
Lemma core_build_fails_in_create_initial pm design_file pt p nm variants u pa
      e pb :
  get_product_name PRODUCTS pt = Ok nm ->
  load_product_variants pt (ext p) = Ok variants ->
  CoreBuilder._prepare_urls_for_product design_file pt p = (Ok u, pa) ->
  CoreBuilder.create_initial pm
    (String.append (Py.design_name_of design_file) (String.append " - " nm))
    pt variants u pa = (Raise e, pb) ->
  CoreBuilder.build pm design_file pt p
  = (Ok (CoreBuilder.Failed e pt), pb).
Proof.
  intros E1 E2 E3 E4.
  unfold CoreBuilder.build, CoreBuilder.create, CoreBuilder._create_product.
  unfold try_except, bind, lift, read_ext, ret.
  rewrite E1, E2, E3, E4. reflexivity.
Qed.

(** The same for the modular builder. *)
Lemma modular_build_fails_in_create_initial pcm design_file pt p variants nm
      u pa e pb :
  load_product_variants pt (ext p) = Ok variants ->
  get_product_info pt (ext p) = Some nm ->
  validate_product_compatibility PRODUCT_PLACEMENTS pt = true ->
  ModularBuilder._prepare_product_urls design_file p = (Ok u, pa) ->
  ModularBuilder.create_initial pcm
    (String.append (Py.design_name_of design_file) (String.append " - " nm))
    pt variants u pa = (Raise e, pb) ->
  ModularBuilder.build_single_product pcm design_file pt p
  = (Ok (ModularBuilder.Failed e pt design_file), pb).
Proof.
  intros E1 E2 E3 E4 E5.
  unfold ModularBuilder.build_single_product, ModularBuilder.create.
  unfold try_except, bind, lift, read_ext, ret, raise.
  rewrite E1, E2, E3. cbv beta iota delta [negb].
  rewrite E4, E5. reflexivity.
Qed.


(** ** The final read-back *)

Lemma modular_verify_run pid design_file pt variants u p r p' :
  api_call (GET (StoreProduct pid)) p = (r, p') ->
  ModularBuilder.verify pid design_file pt variants u p =
  match r with
  | Raise e => (Raise e, p')
  | Ok final_info =>
      match Py.get final_info "code" with
      | Raise e => (Raise e, p')
      | Ok c =>
          if Py.in_200_201 c
          then
            (Py.result_bind (Py.subscript final_info "result") (fun fin =>
             Py.result_bind (Py.get_default fin "sync_product" (JDict []))
               (fun sp =>
             Py.result_bind (Py.get_default fin "sync_variants" (JList []))
               (fun sv =>
             Py.result_bind (Py.len sv) (fun n =>
             Ok (ModularBuilder.Built pid sp sv pt design_file
                   (length variants) n u))))), p')
          else (Ok (ModularBuilder.FinalStateError final_info pt), p')
      end
  end.
Proof.
  intros E. unfold ModularBuilder.verify. unfold bind at 1. rewrite E.
  destruct r as [final_info|e]; [|reflexivity].
  unfold bind, lift, ret.
  destruct (Py.get final_info "code") as [c|e]; [|reflexivity].
  destruct (Py.in_200_201 c); simpl; [|reflexivity].
  destruct (Py.subscript final_info "result") as [fin|e]; [|reflexivity].
  simpl.
  destruct (Py.get_default fin "sync_product" (JDict [])) as [sp|e];
    [|reflexivity].
  simpl.
  destruct (Py.get_default fin "sync_variants" (JList [])) as [sv|e];
    [|reflexivity].
  simpl. destruct (Py.len sv); reflexivity.
Qed.

Lemma modular_build_run pcm design_file pt p variants nm u pa pid pb :
  load_product_variants pt (ext p) = Ok variants ->
  get_product_info pt (ext p) = Some nm ->
  validate_product_compatibility PRODUCT_PLACEMENTS pt = true ->
  ModularBuilder._prepare_product_urls design_file p = (Ok u, pa) ->
  ModularBuilder.create pcm design_file pt variants (Some nm) u pa
  = (Ok pid, pb) ->
  ModularBuilder.build_single_product pcm design_file pt p =
  try_except (ModularBuilder.verify pid design_file pt variants u)
    (fun e => ret (ModularBuilder.Failed e pt design_file)) pb.
Proof.
  intros E1 E2 E3 E4 E5.
  unfold ModularBuilder.build_single_product.
  unfold try_except, bind, lift, read_ext, ret, raise.
  rewrite E1, E2, E3. cbv beta iota delta [negb].
  rewrite E4, E5. reflexivity.
Qed.

Lemma core_build_run pm design_file pt p pid name pb :
  CoreBuilder.create pm design_file pt p = (Ok (pid, name), pb) ->
  CoreBuilder.build pm design_file pt p =
  try_except (CoreBuilder.verify pid name pt)
    (fun e => ret (CoreBuilder.Failed e pt)) pb.
Proof.
  intros E. unfold CoreBuilder.build, try_except, bind. rewrite E.
  reflexivity.
Qed.


(** ** Asset preparation makes no vendor call *)

Lemma quiet_refl p : quiet p p.
Proof. split; reflexivity. Qed.

Lemma quiet_trans p1 p2 p3 : quiet p1 p2 -> quiet p2 p3 -> quiet p1 p3.
Proof. intros [A1 A2] [B1 B2]. split; congruence. Qed.

Lemma api_events_app tr1 tr2 :
  api_events (tr1 ++ tr2) = (api_events tr1 ++ api_events tr2)%list.
Proof. unfold api_events. apply List.filter_app. Qed.

Lemma quiet_ret {A} (a : A) : quiet_run (ret a : M X A).
Proof. intros p. apply quiet_refl. Qed.

Lemma quiet_bind {A B} (c : M X A) (k : A -> M X B) :
  quiet_run c -> (forall a, quiet_run (k a)) -> quiet_run (bind c k).
Proof.
  intros Hc Hk p. unfold bind. specialize (Hc p).
  destruct (c p) as [[a|e] p1]; simpl in Hc; [|exact Hc].
  eapply quiet_trans; [exact Hc | apply Hk].
Qed.

Lemma quiet_path_exists path : quiet_run (path_exists path : M X bool).
Proof. intros p. apply quiet_refl. Qed.

Lemma quiet_upload_with_cache path : quiet_run (_upload_with_cache path).
Proof.
  intros p. destruct (cache p !! path) as [url|] eqn:Hc.
  - rewrite (FileManagerFacts.upload_with_cache_hit _ _ _ Hc).
    apply quiet_refl.
  - rewrite (FileManagerFacts.upload_with_cache_miss _ _ Hc). simpl.
    split; [reflexivity|]. simpl. rewrite api_events_app. simpl.
    apply app_nil_r.
Qed.

Lemma quiet_prepare_urls design_file : quiet_run (prepare_urls design_file).
Proof.
  unfold prepare_urls.
  apply quiet_bind; [apply quiet_upload_with_cache | intros design].
  apply quiet_bind; [apply quiet_path_exists | intros has_logo].
  apply quiet_bind.
  { destruct has_logo; [|apply quiet_ret].
    apply quiet_bind; [apply quiet_upload_with_cache | intros; apply quiet_ret]. }
  intros logo.
  apply quiet_bind; [apply quiet_path_exists | intros has_upscaled].
  apply quiet_bind.
  { destruct has_upscaled; [|apply quiet_ret].
    apply quiet_bind; [apply quiet_upload_with_cache | intros; apply quiet_ret]. }
  intros upscaled. apply quiet_ret.
Qed.

(** ** The beanie precondition *)

Lemma beanie_prepare_raises design_file p :
  CoreBuilder.ricami_path (Py.design_name_of design_file) ∉ fs p ->
  exists e p',
    CoreBuilder._prepare_urls_for_product design_file "as_colour_1120" p
    = (Raise e, p')
    /\ quiet p p'
    /\ (forall u pa,
          prepare_urls design_file p = (Ok u, pa) ->
          e = Exception "File ottimizzato per beanie non trovato"
          /\ p' = pa).
Proof.
  intros Hmissing.
  change (CoreBuilder._prepare_urls_for_product design_file "as_colour_1120" p)
    with (bind (prepare_urls design_file)
            (fun urls0 =>
               bind (path_exists
                       (CoreBuilder.ricami_path (Py.design_name_of design_file)))
                 (fun present =>
                    if negb present
                    then raise (Exception "File ottimizzato per beanie non trovato")
                    else
                      bind (read_ext
                              (image_open
                                 (CoreBuilder.ricami_path
                                    (Py.design_name_of design_file))))
                        (fun r =>
                           bind (lift r) (fun _ =>
                           bind (image_save
                                   (String.append "ricami/"
                                      (String.append
                                         (Py.design_name_of design_file)
                                         "_beanie_scaled.png")))
                             (fun _ =>
                           bind (_upload_with_cache
                                   (String.append "ricami/"
                                      (String.append
                                         (Py.design_name_of design_file)
                                         "_beanie_scaled.png")))
                             (fun url =>
                           bind (os_remove
                                   (String.append "ricami/"
                                      (String.append
                                         (Py.design_name_of design_file)
                                         "_beanie_scaled.png")))
                             (fun _ =>
                           ret (CoreBuilder.set_design_url urls0 url))))))))
            p).
  pose proof (quiet_prepare_urls design_file p) as Q.
  unfold bind at 1.
  destruct (prepare_urls design_file p) as [[u|e] p1]; simpl in Q.
  - unfold bind, path_exists.
    destruct Q as [Qfs Qapi].
    rewrite bool_decide_eq_false_2 by (rewrite Qfs; exact Hmissing).
    simpl. eexists _, _. split; [reflexivity|].
    split; [split; assumption|].
    intros u' pa [= <- <-]. split; reflexivity.
  - eexists _, _. split; [reflexivity|]. split; [exact Q|].
    intros u pa [=].
Qed.

(** C5, as the code has it.  For the beanie product type
    [as_colour_1120], when [ricami/<design_name>.png] does not exist the
    build ends as a failed BuildResult (never as a success with the
    placement skipped) and issues no vendor API call: no product is
    created.  The standard asset preparation ([prepare_urls]: the upload
    of the design, and of the logo and the upscaled design when present)
    runs before the check; when it and the variant loading succeed, the
    error reported is the precondition error. *)
Theorem C5_missing_beanie_asset
  (pm : placements_module) (design_file : string) (p : process X) :
  CoreBuilder.ricami_path (Py.design_name_of design_file) ∉ fs p ->
  let r := CoreBuilder.build pm design_file "as_colour_1120" p in
  (exists e, fst r = Ok (CoreBuilder.Failed e "as_colour_1120"))
  /\ api_events (trace (snd r)) = api_events (trace p)
  /\ (forall variants u pa,
         load_product_variants "as_colour_1120" (ext p) = Ok variants ->
         prepare_urls design_file p = (Ok u, pa) ->
         r = (Ok (CoreBuilder.Failed
                    (Exception "File ottimizzato per beanie non trovato")
                    "as_colour_1120"), pa)).
Proof.
  intros Hmissing r. subst r.
  destruct (beanie_prepare_raises design_file p Hmissing)
    as [e [p' [E [[Qfs Qapi] Hprec]]]].
  unfold CoreBuilder.build, CoreBuilder.create, try_except, bind, lift,
    read_ext, ret.
  change (get_product_name PRODUCTS "as_colour_1120")
    with (Ok "AS Colour 1120 - Beanie" : result string).
  cbv beta iota.
  destruct (load_product_variants "as_colour_1120" (ext p)) as [variants|e0]
    eqn:El; cbv beta iota.
  - rewrite E. simpl.
    split; [eauto|]. split; [exact Qapi|].
    intros variants' u pa _ Hu.
    destruct (Hprec u pa Hu) as [-> ->]. reflexivity.
  - simpl.
    split; [eauto|]. split; [reflexivity|].
    intros variants u pa [=].
Qed.

(** ** Payloads on a well-formed catalog *)

Lemma modular_files_loop_ok m design logo upscaled pls : forall i h,
  catalog_ok m h ->
  exists fcs h',
    modular_files_loop m design logo upscaled i pls h = (Ok fcs, h')
    /\ extends h' h.
Proof.
  induction pls as [|pl rest IH]; intros i h Hok.
  - exists [], h. split; [reflexivity | apply PlacementFacts.extends_refl].
  - simpl. destruct (modular_select_url i pl design logo upscaled) as [url|].
    + destruct (PlacementFacts.apply_universal_positioning_ok m (p_type pl)
                  (base_config pl url) h Hok)
        as [fc [h1 [E [_ [_ [_ X1]]]]]].
      rewrite E.
      destruct (IH (S i) h1 (PlacementFacts.catalog_ok_extends _ _ _ X1 Hok))
        as [fcs [h2 [E2 X2]]].
      rewrite E2. exists (fc :: fcs), h2. split; [reflexivity|].
      eapply PlacementFacts.extends_trans; eauto.
    + apply IH. exact Hok.
Qed.

Lemma same_outside_refl p : same_outside p p.
Proof. repeat split. apply PlacementFacts.extends_refl. Qed.

Lemma same_outside_trans p1 p2 p3 :
  same_outside p1 p2 -> same_outside p2 p3 -> same_outside p1 p3.
Proof.
  intros [A1 [A2 A3]] [B1 [B2 B3]]. repeat split; try congruence.
  eapply PlacementFacts.extends_trans; eauto.
Qed.

Lemma create_variant_payload_ok pcm v pt u p pls :
  get_product_placements PRODUCT_PLACEMENTS pt = Ok pls ->
  catalog_ok pcm (objs p) ->
  exists entry p',
    ModularBuilder._create_variant_payload pcm v pt u p = (Ok entry, p')
    /\ is_new entry /\ same_outside p p'.
Proof.
  intros Hpl Hok.
  unfold ModularBuilder._create_variant_payload, store_op, bind, with_objs,
    lift, ret, create_variant_files_config.
  rewrite Hpl.
  destruct (modular_files_loop_ok pcm (design_url u) (logo_url u)
              (upscaled_url u) pls 0 (objs p) Hok) as [fcs [h' [E Xt]]].
  rewrite E. eexists _, _. split; [reflexivity|].
  split; [exact I|]. repeat split. exact Xt.
Qed.

Lemma payloads_ok pcm pt u pls vs : forall p,
  get_product_placements PRODUCT_PLACEMENTS pt = Ok pls ->
  catalog_ok pcm (objs p) ->
  exists entries p',
    map_m (fun v => ModularBuilder._create_variant_payload pcm v pt u) vs p
    = (Ok entries, p')
    /\ Forall is_new entries /\ length entries = length vs
    /\ same_outside p p'.
Proof.
  induction vs as [|v rest IH]; intros p Hpl Hok.
  - exists [], p. split; [reflexivity|]. split; [constructor|].
    split; [reflexivity | apply same_outside_refl].
  - simpl map_m.
    destruct (create_variant_payload_ok pcm v pt u p pls Hpl Hok)
      as [entry [p1 [E1 [N1 S1]]]].
    unfold bind at 1. rewrite E1.
    assert (Hok1 : catalog_ok pcm (objs p1)).
    { eapply PlacementFacts.catalog_ok_extends; [apply S1 | exact Hok]. }
    destruct (IH p1 Hpl Hok1) as [entries [p2 [E2 [N2 [L2 S2]]]]].
    unfold bind at 1. rewrite E2.
    exists (entry :: entries), p2. split; [reflexivity|].
    split; [constructor; assumption|].
    split; [simpl; congruence|].
    eapply same_outside_trans; eauto.
Qed.

(** ** Gateway calls *)

Lemma api_call_run req p :
  api_call req p =
  (fst (vendor req (ext p)),
   logged p (snd (vendor req (ext p))) (Api req (fst (vendor req (ext p))))).
Proof.
  unfold api_call, bind, with_ext, log, lift, logged.
  destruct (vendor req (ext p)) as [r x]. simpl.
  destruct r; reflexivity.
Qed.

Lemma send_run mk name thumbnail entries p :
  ModularBuilder.send mk name thumbnail entries p =
  api_call (mk (body_of name thumbnail entries p)) p.
Proof. reflexivity. Qed.

(** ** References and new variants of a body *)

Lemma existing_refs_ids cv :
  ModularBuilder.existing_refs cv =
  Py.result_bind (ModularBuilder.ref_ids_of cv)
    (fun ids => Ok (map ExistingRef ids)).
Proof.
  unfold ModularBuilder.existing_refs, ModularBuilder.ref_ids_of.
  destruct (Py.iter cv) as [items|e]; [|reflexivity]. simpl.
  induction items as [|v items IH]; [reflexivity|].
  simpl. destruct (Py.get v "id") as [id|e]; [|reflexivity]. simpl.
  rewrite IH.
  destruct (Py.result_map (fun v0 => Py.get v0 "id") items); reflexivity.
Qed.

Lemma sent_refs_body name thumbnail ids news p :
  Forall is_new news ->
  ModularBuilder.sent_refs
    (body_of name thumbnail (map ExistingRef ids ++ news) p) = ids.
Proof.
  intros Hnew. unfold ModularBuilder.sent_refs, body_of. simpl.
  rewrite map_app, flat_map_app.
  assert (E1 : forall l, flat_map
                 (fun e => match e with
                           | SentRef id => [id]
                           | SentNew _ _ _ => []
                           end)
                 (map (serialize_entry (objs p)) (map ExistingRef l)) = l).
  { induction l as [|i l IH]; [reflexivity|]. simpl. f_equal. exact IH. }
  rewrite E1.
  assert (E2 : flat_map
                 (fun e => match e with
                           | SentRef id => [id]
                           | SentNew _ _ _ => []
                           end)
                 (map (serialize_entry (objs p)) news) = []).
  { induction Hnew as [|e l He _ IH]; [reflexivity|].
    destruct e; [destruct He|]. simpl. exact IH. }
  rewrite E2. apply app_nil_r.
Qed.

Lemma count_new_body name thumbnail ids news p :
  Forall is_new news ->
  count_new (body_of name thumbnail (map ExistingRef ids ++ news) p)
  = length news.
Proof.
  intros Hnew. unfold count_new, body_of. simpl.
  rewrite map_app, List.filter_app, length_app.
  assert (E1 : forall l, List.filter (fun e => negb (is_ref e))
                 (map (serialize_entry (objs p)) (map ExistingRef l)) = []).
  { induction l as [|i l IH]; [reflexivity|]. simpl. exact IH. }
  rewrite E1. simpl.
  induction Hnew as [|e l He _ IH]; [reflexivity|].
  destruct e; [destruct He|]. simpl. f_equal. exact IH.
Qed.

(** ** The last confirmed list *)

Lemma last_confirmed_snoc tr e :
  ModularBuilder.last_confirmed (tr ++ [e])
  = ModularBuilder.confirm (ModularBuilder.last_confirmed tr) e.
Proof.
  unfold ModularBuilder.last_confirmed. rewrite fold_left_app. reflexivity.
Qed.

Lemma puts_use_confirmed_app evs1 : forall before evs2,
  ModularBuilder.puts_use_confirmed before evs1 ->
  ModularBuilder.puts_use_confirmed (before ++ evs1) evs2 ->
  ModularBuilder.puts_use_confirmed before (evs1 ++ evs2).
Proof.
  induction evs1 as [|e evs1 IH]; intros before evs2 H1 H2.
  - rewrite app_nil_r in H2. exact H2.
  - simpl in *. destruct H1 as [He H1]. split; [exact He|].
    apply IH; [exact H1|].
    rewrite <- app_assoc. exact H2.
Qed.

Lemma put_bodies_app tr1 tr2 :
  ModularBuilder.put_bodies (tr1 ++ tr2)
  = (ModularBuilder.put_bodies tr1 ++ ModularBuilder.put_bodies tr2)%list.
Proof. unfold ModularBuilder.put_bodies. apply flat_map_app. Qed.

(** ** What the entries of a request carry *)

(** The entries built for a list of variants carry their identifiers and
    prices, in order. *)
Lemma map_m_Forall2 {A B} (f : A -> M X B) (R : B -> A -> Prop) :
  (forall x p b p', f x p = (Ok b, p') -> R b x) ->
  forall xs p bs p', map_m f xs p = (Ok bs, p') -> Forall2 R bs xs.
Proof.
  intros Hf. induction xs as [|x xs IH]; intros p bs p' E.
  - simpl in E. unfold ret in E. injection E as <- _. constructor.
  - simpl in E. unfold bind at 1 in E.
    destruct (f x p) as [[b|e] p1] eqn:E1; [|discriminate].
    unfold bind at 1 in E.
    destruct (map_m f xs p1) as [[bs'|e] p2] eqn:E2; [|discriminate].
    unfold ret in E. injection E as <- _.
    constructor; [eapply Hf; exact E1|eapply IH; exact E2].
Qed.

Lemma modular_payload_entry pcm v pt u p e p' :
  ModularBuilder._create_variant_payload pcm v pt u p = (Ok e, p') ->
  exists fcs, e = NewVariant (format_price (price v)) (variant_id v) fcs.
Proof.
  unfold ModularBuilder._create_variant_payload, bind, ret.
  destruct (store_op _ p) as [[fcs|err] p1]; [|discriminate].
  intros E. injection E as <- _. exists fcs. reflexivity.
Qed.

Lemma core_payload_entries pm pt vs u p entries p' :
  CoreBuilder._build_variants_payload pm pt vs u p = (Ok entries, p') ->
  Forall2 (fun e v => exists fcs,
             e = NewVariant (format_price (price v)) (variant_id v) fcs)
          entries vs.
Proof.
  unfold CoreBuilder._build_variants_payload.
  apply map_m_Forall2. clear. intros v p e p'. unfold bind, ret.
  destruct (store_op _ p) as [[fcs|err] p1]; [|discriminate].
  intros E. injection E as <- _. exists fcs. reflexivity.
Qed.

Lemma existing_of_ids current :
  CoreBuilder.existing_of current =
  Py.result_bind (CoreBuilder.current_ids current)
    (fun ids => Ok (map ExistingRef ids)).
Proof.
  unfold CoreBuilder.existing_of, CoreBuilder.current_ids.
  destruct (Py.subscript current "result") as [res|e]; [|reflexivity]. simpl.
  destruct (Py.subscript res "sync_variants") as [sv|e]; [|reflexivity].
  simpl.
  destruct (Py.iter sv) as [items|e]; [|reflexivity]. simpl.
  induction items as [|v items IH]; [reflexivity|].
  simpl. destruct (Py.subscript v "id") as [id|e]; [|reflexivity]. simpl.
  rewrite IH.
  destruct (Py.result_map (fun v0 => Py.subscript v0 "id") items);
    reflexivity.
Qed.

Lemma core_sent_refs_body name thumbnail ids news (vs : list variant) p :
  Forall2 (fun e v => exists fcs,
             e = NewVariant (format_price (price v)) (variant_id v) fcs)
          news vs ->
  CoreBuilder.sent_refs
    (body_of name thumbnail (map ExistingRef ids ++ news) p) = ids
  /\ sent_variant_ids
       (body_of name thumbnail (map ExistingRef ids ++ news) p)
     = map variant_id vs.
Proof.
  intros Hnew.
  unfold CoreBuilder.sent_refs, sent_variant_ids, body_of. cbn [b_variants].
  rewrite map_app, !flat_map_app.
  induction ids as [|i ids [IH1 IH2]].
  - simpl. clear - Hnew. induction Hnew as [|e v news vs [fcs ->] _ [IH1 IH2]].
    + split; reflexivity.
    + simpl. rewrite IH2. split; [exact IH1|reflexivity].
  - simpl. rewrite IH1. split; [reflexivity|exact IH2].
Qed.

(** One append batch of the clean builder. *)
Lemma core_add_variants_batch_unfold pm id name pt batch u p :
  CoreBuilder._add_variants_batch pm id name pt batch u p =
  let get := GET (StoreProduct id) in
  let p1 := logged p (snd (vendor get (ext p)))
              (Api get (fst (vendor get (ext p)))) in
  match fst (vendor get (ext p)) with
  | Raise e => (Raise e, p1)
  | Ok cur =>
      match CoreBuilder.current_ids cur with
      | Raise e => (Raise e, p1)
      | Ok ids =>
          match CoreBuilder._build_variants_payload pm pt batch u p1 with
          | (Raise e, p2) => (Raise e, p2)
          | (Ok news, p2) =>
              let put := PUT (StoreProduct id)
                           (body_of name (design_url u)
                              (map ExistingRef ids ++ news) p2) in
              (match fst (vendor put (ext p2)) with
               | Ok _ => Ok tt
               | Raise e => Raise e
               end,
               logged p2 (snd (vendor put (ext p2)))
                 (Api put (fst (vendor put (ext p2)))))
          end
      end
  end.
Proof.
  unfold CoreBuilder._add_variants_batch. cbv zeta. unfold bind at 1.
  rewrite api_call_run.
  destruct (fst (vendor (GET (StoreProduct id)) (ext p))) as [cur|e];
    [|reflexivity].
  unfold bind at 1, lift at 1. rewrite existing_of_ids.
  destruct (CoreBuilder.current_ids cur) as [ids|e]; [|reflexivity].
  cbn [Py.result_bind]. unfold bind at 1.
  destruct (CoreBuilder._build_variants_payload pm pt batch u _)
    as [[news|e] p2]; [|reflexivity].
  unfold bind at 1.
  change (CoreBuilder.send (PUT (StoreProduct id)) name (design_url u)
            (map ExistingRef ids ++ news) p2)
    with (api_call (PUT (StoreProduct id)
                      (body_of name (design_url u)
                         (map ExistingRef ids ++ news) p2)) p2).
  rewrite api_call_run.
  destruct (fst (vendor _ (ext p2))); reflexivity.
Qed.

(** ** The append loop of the modular builder *)

Section Append.
Variable pcm : placement_config_module.
Variable product_id : json.
Variable remaining : list variant.
Variable pt : string.
Variable u : urls.
Variables name design : string.
Variable pls : list placement.
Hypothesis Hcoop : ModularBuilder.cooperative X.
Hypothesis Hpl : get_product_placements PRODUCT_PLACEMENTS pt = Ok pls.

Lemma append_batch_step k cv p :
  ModularBuilder.loop_inv pcm p cv ->
  exists cv' p' evs,
    ModularBuilder.append_batch pcm product_id remaining pt u name design
      k cv p = (Ok cv', p')
    /\ trace p' = (trace p ++ evs)%list
    /\ ModularBuilder.loop_inv pcm p' cv'
    /\ ModularBuilder.puts_use_confirmed (trace p) evs
    /\ map count_new (ModularBuilder.put_bodies evs)
       = [length (Planner.modular_batch remaining k)]
    /\ map sent_variant_ids (ModularBuilder.put_bodies evs)
       = [map variant_id (Planner.modular_batch remaining k)].
Proof.
  intros [Hcat [Hlast [ids Hids]]].
  destruct (payloads_ok pcm pt u pls (Planner.modular_batch remaining k) p
              Hpl Hcat) as [news [p1 [E1 [N1 [L1 [Sx [St So]]]]]]].
  pose proof (map_m_Forall2 _ _
                (fun v q e q' => modular_payload_entry pcm v pt u q e q')
                _ _ _ _ E1) as F1.
  assert (Hcat1 : catalog_ok pcm (objs p1))
    by (eapply PlacementFacts.catalog_ok_extends; eauto).
  unfold ModularBuilder.append_batch.
  unfold bind at 1. rewrite E1.
  unfold bind at 1. rewrite lift_run, existing_refs_ids, Hids.
  cbn [Py.result_bind].
  unfold bind at 1. rewrite send_run, api_call_run.
  set (body := body_of name design (map ExistingRef ids ++ news) p1).
  set (put := PUT (StoreProduct product_id) body).
  pose proof (Hcoop put (ext p1)) as Aput.
  destruct (vendor put (ext p1)) as [rput x2]. cbn [fst snd] in *.
  destruct rput as [resp|e]; [|destruct Aput].
  destruct Aput as [c [Hc _]].
  set (p2 := logged p1 x2 (Api put (Ok resp))).
  assert (Hput : ModularBuilder.puts_use_confirmed (trace p)
                   [Api put (Ok resp)]).
  { simpl. split; [|exact I]. exists cv. split; [exact Hlast|].
    unfold body. rewrite (sent_refs_body _ _ _ _ _ N1). exact Hids. }
  assert (Hcount : count_new body = length (Planner.modular_batch remaining k)).
  { unfold body. rewrite (count_new_body _ _ _ _ _ N1). exact L1. }
  assert (Hsent : sent_variant_ids body
                  = map variant_id (Planner.modular_batch remaining k)).
  { unfold body. apply (core_sent_refs_body _ _ _ _ _ _ F1). }
  unfold bind at 1. rewrite lift_run, Hc.
  destruct (Py.in_200_201 c) eqn:Hcode; cbn [negb].
  - (* the update succeeded: the product is read again *)
    unfold bind at 1. rewrite api_call_run.
    set (get := GET (StoreProduct product_id)).
    pose proof (Hcoop get (ext p2)) as Aget.
    destruct (vendor get (ext p2)) as [rget x3]. cbn [fst snd] in *.
    destruct rget as [info|e]; [|destruct Aget].
    destruct Aget as [c' [Hc' Hshape]].
    set (p3 := logged p2 x3 (Api get (Ok info))).
    unfold bind at 1. rewrite lift_run, Hc'.
    destruct (Py.in_200_201 c') eqn:Hcode'.
    + destruct (Hshape eq_refl) as [sv [ids' [Hsv Hids']]].
      unfold bind at 1. rewrite lift_run, Hsv.
      assert (Hconf : ModularBuilder.confirmed_by (Ok info) = Some sv).
      { unfold ModularBuilder.confirmed_by. rewrite Hc', Hcode', Hsv.
        reflexivity. }
      destruct (k <? Planner.total_batches remaining - 1).
      * exists sv, (logged p3 (ext p3) (Sleep 2)),
          [Api put (Ok resp); Api get (Ok info); Sleep 2].
        split; [reflexivity|].
        split; [simpl; rewrite St, <- !app_assoc; reflexivity|].
        split.
        { split; [exact Hcat1|]. split; [|eauto].
          unfold p3, p2, logged, get, put. cbn [trace].
          rewrite ?last_confirmed_snoc, St, Hlast.
          cbn [ModularBuilder.confirm]. rewrite Hconf. reflexivity. }
        split; [|split; simpl; [rewrite Hcount|rewrite Hsent]; reflexivity].
        simpl. simpl in Hput. intuition.
      * exists sv, p3, [Api put (Ok resp); Api get (Ok info)].
        split; [reflexivity|].
        split; [simpl; rewrite St, <- !app_assoc; reflexivity|].
        split.
        { split; [exact Hcat1|]. split; [|eauto].
          unfold p3, p2, logged, get, put. cbn [trace].
          rewrite ?last_confirmed_snoc, St, Hlast.
          cbn [ModularBuilder.confirm]. rewrite Hconf. reflexivity. }
        split; [|split; simpl; [rewrite Hcount|rewrite Hsent]; reflexivity].
        simpl. simpl in Hput. intuition.
    + assert (Hconf : ModularBuilder.confirmed_by (Ok info) = None).
      { unfold ModularBuilder.confirmed_by. rewrite Hc', Hcode'.
        reflexivity. }
      unfold bind at 1. unfold ret at 1.
      destruct (k <? Planner.total_batches remaining - 1).
      * exists cv, (logged p3 (ext p3) (Sleep 2)),
          [Api put (Ok resp); Api get (Ok info); Sleep 2].
        split; [reflexivity|].
        split; [simpl; rewrite St, <- !app_assoc; reflexivity|].
        split.
        { split; [exact Hcat1|]. split; [|eauto].
          unfold p3, p2, logged, get, put. cbn [trace].
          rewrite ?last_confirmed_snoc, St, Hlast.
          cbn [ModularBuilder.confirm]. rewrite Hconf. reflexivity. }
        split; [|split; simpl; [rewrite Hcount|rewrite Hsent]; reflexivity].
        simpl. simpl in Hput. intuition.
      * exists cv, p3, [Api put (Ok resp); Api get (Ok info)].
        split; [reflexivity|].
        split; [simpl; rewrite St, <- !app_assoc; reflexivity|].
        split.
        { split; [exact Hcat1|]. split; [|eauto].
          unfold p3, p2, logged, get, put. cbn [trace].
          rewrite ?last_confirmed_snoc, St, Hlast.
          cbn [ModularBuilder.confirm]. rewrite Hconf. reflexivity. }
        split; [|split; simpl; [rewrite Hcount|rewrite Hsent]; reflexivity].
        simpl. simpl in Hput. intuition.
  - (* the update failed: on to the next batch with the same list *)
    exists cv, p2, [Api put (Ok resp)].
    split; [reflexivity|].
    split; [simpl; rewrite St; reflexivity|].
    split.
    { split; [exact Hcat1|]. split; [|eauto].
      unfold p2, logged, put. cbn [trace].
      rewrite last_confirmed_snoc, St, Hlast. reflexivity. }
    split; [exact Hput|].
    split; simpl; [rewrite Hcount|rewrite Hsent]; reflexivity.
Qed.

Lemma append_loop ks : forall cv p,
  ModularBuilder.loop_inv pcm p cv ->
  exists cv' p' evs,
    for_each ks
      (ModularBuilder.append_batch pcm product_id remaining pt u name design)
      cv p = (Ok cv', p')
    /\ trace p' = (trace p ++ evs)%list
    /\ ModularBuilder.loop_inv pcm p' cv'
    /\ ModularBuilder.puts_use_confirmed (trace p) evs
    /\ map count_new (ModularBuilder.put_bodies evs)
       = map (fun k => length (Planner.modular_batch remaining k)) ks
    /\ map sent_variant_ids (ModularBuilder.put_bodies evs)
       = map (fun k => map variant_id (Planner.modular_batch remaining k)) ks.
Proof.
  induction ks as [|k ks IH]; intros cv p Hinv.
  - exists cv, p, []. split; [reflexivity|].
    split; [symmetry; apply app_nil_r|]. split; [exact Hinv|].
    split; [exact I | split; reflexivity].
  - destruct (append_batch_step k cv p Hinv)
      as [cv1 [p1 [evs1 [E1 [T1 [I1 [P1 [C1 V1]]]]]]]].
    destruct (IH cv1 p1 I1)
      as [cv2 [p2 [evs2 [E2 [T2 [I2 [P2 [C2 V2]]]]]]]].
    exists cv2, p2, (evs1 ++ evs2)%list.
    split; [simpl; unfold bind; rewrite E1; exact E2|].
    split; [rewrite T2, T1, app_assoc; reflexivity|].
    split; [exact I2|].
    split; [|split].
    + apply puts_use_confirmed_app; [exact P1|]. rewrite <- T1. exact P2.
    + rewrite put_bodies_app, map_app, C1, C2. reflexivity.
    + rewrite put_bodies_app, map_app, V1, V2. reflexivity.
Qed.

End Append.


End Steps.

Import Script.





(** A beanie build for a design without its file in [ricami/]. *)
Lemma C5_missing_beanie_asset_witness :
  let p := start (world [] [Ok "https://img/leone.png"] (beanies 2))
                 ["ricamo/leone.png"] in
  let r := CoreBuilder.build loaded_pm "ricamo/leone.png" "as_colour_1120" p in
  (exists e, fst r = Ok (CoreBuilder.Failed e "as_colour_1120"))
  /\ api_events (trace (snd r)) = api_events (trace p).
Proof.
  intros p r.
  assert (Hmissing :
            CoreBuilder.ricami_path (Py.design_name_of "ricamo/leone.png")
            ∉ fs p).
  { refine (bool_decide_unpack _ _). vm_compute. exact I. }
  destruct (C5_missing_beanie_asset loaded_pm "ricamo/leone.png" p Hmissing)
    as [R1 [R2 _]].
  split; [exact R1 | exact R2].
Defined.

(** In that build the design has been uploaded to the asset store before
    the precondition error is raised: the error does not come before any
    network call. *)
Lemma C5_upload_precedes_the_precondition_error :
  let p := start (world [] [Ok "https://img/leone.png"] (beanies 2))
                 ["ricamo/leone.png"] in
  let r := CoreBuilder.build loaded_pm "ricamo/leone.png" "as_colour_1120" p in
  fst r = Ok (CoreBuilder.Failed
                (Exception "File ottimizzato per beanie non trovato")
                "as_colour_1120")
  /\ trace (snd r)
     = [Upload "ricamo/leone.png" (Ok "https://img/leone.png")]
  /\ trace (snd r) <> [].
Proof.
  intros p r. split; [vm_compute; reflexivity|].
  split; [vm_compute; reflexivity|]. vm_compute. discriminate.
Qed.

(** ** The simulated vendor is cooperative *)

Import Vendor.

Lemma ref_ids_of_numbered (ns : list nat) :
  ModularBuilder.ref_ids_of
    (JList (map (fun i => JDict [("id", JInt (Z.of_nat i))]) ns))
  = Ok (map (fun i => JInt (Z.of_nat i)) ns).
Proof.
  unfold ModularBuilder.ref_ids_of. simpl.
  induction ns as [|n ns IH]; [reflexivity|].
  simpl. rewrite IH. reflexivity.
Qed.

Lemma answer_read_ok req s :
  ModularBuilder.answer_ok req (Ok (Vendor.answer_read s)).
Proof.
  exists (JInt 200). split; [reflexivity|].
  destruct req; [|exact I|exact I].
  intros _. eexists _, _. split; [reflexivity|].
  apply ref_ids_of_numbered.
Qed.

Lemma simulated_vendor_cooperative : ModularBuilder.cooperative Vendor.server.
Proof.
  intros req s. change (vendor req s) with (Vendor.serve req s).
  destruct req as [e|e b|e b]; unfold Vendor.serve.
  - apply (answer_read_ok (GET e) s).
  - exists (JInt 200). split; [reflexivity | exact I].
  - destruct (Vendor.outages s) as [|[|] rest]; cbn [fst].
    + apply (answer_read_ok (PUT e b)).
    + exists (JInt 500). split; [reflexivity | exact I].
    + apply (answer_read_ok (PUT e b)).
Qed.


(** What the simulated vendor sees in a build of 45 variants whose first
    update fails: the second batch is sent with the 20 references of the
    last confirmed list, and 35 of the 45 variants exist at the end. *)
Lemma append_loop_after_a_failed_update :
  let p := Vendor.start {| Vendor.remote := 0; Vendor.outages := [true] |} in
  let r := ModularBuilder.build_single_product loaded_pcm "ricamo/leone.png"
             "gildan_5000" p in
  calls (trace (snd r))
  = [CallUpload "ricamo/leone.png"; CallPost 20; CallGet;
     CallPut 20 10; CallPut 20 10; CallGet; CallPut 30 5; CallGet; CallGet].
Proof. vm_compute. reflexivity. Qed.


End BuilderFacts.

(* ===================================================================== *)
(** * Facts about the preparation of the asset URLs *)
(* ===================================================================== *)

Module PreparationFacts.
Import Placements Sys FileManager.
Import FileManagerFacts.
Import Script.

Section Preparation.
Context {X : Type} `{World X}.
Implicit Types p : process X.

Lemma upload_with_cache_fs path p :
  fs (snd (_upload_with_cache path p)) = fs p.
Proof.
  destruct (cache p !! path) as [url|] eqn:Hc.
  - rewrite (upload_with_cache_hit _ _ _ Hc). reflexivity.
  - rewrite (upload_with_cache_miss _ _ Hc). reflexivity.
Qed.

Lemma upload_with_cache_returned path p url p1 :
  _upload_with_cache path p = (Ok url, p1) ->
  cache p1 !! path = Some url
  /\ fs p1 = fs p
  /\ (forall q u, cache p !! q = Some u -> cache p1 !! q = Some u).
Proof.
  intros E. pose proof (upload_with_cache_step path p) as S.
  pose proof (upload_with_cache_fs path p) as F.
  rewrite E in S, F. simpl in S, F. destruct S as [S1 [S2 _]].
  split; [apply S2; reflexivity|]. split; assumption.
Qed.

(** [prepare_urls] step by step. *)
Lemma prepare_urls_run design_file p :
  prepare_urls design_file p =
  let logo_path := "generate/universal_logo.png" in
  let upscaled_path :=
    String.append "upscaled/"
      (String.append (Py.design_name_of design_file) ".png") in
  match _upload_with_cache design_file p with
  | (Raise e, pa) => (Raise e, pa)
  | (Ok d, pa) =>
      match (if bool_decide (logo_path ∈ fs pa)
             then match _upload_with_cache logo_path pa with
                  | (Ok u, pb) => (Ok (Some u), pb)
                  | (Raise e, pb) => (Raise e, pb)
                  end
             else (Ok None, pa)) with
      | (Raise e, pb) => (Raise e, pb)
      | (Ok l, pb) =>
          match (if bool_decide (upscaled_path ∈ fs pb)
                 then match _upload_with_cache upscaled_path pb with
                      | (Ok u, pc) => (Ok (Some u), pc)
                      | (Raise e, pc) => (Raise e, pc)
                      end
                 else (Ok None, pb)) with
          | (Raise e, pc) => (Raise e, pc)
          | (Ok u, pc) =>
              (Ok {| design_url := d; logo_url := l; upscaled_url := u;
                     logo_black_url := None |}, pc)
          end
      end
  end.
Proof.
  unfold prepare_urls, bind, path_exists, ret. cbv zeta.
  destruct (_upload_with_cache design_file p) as [[d|e] pa]; [|reflexivity].
  destruct (bool_decide (_ ∈ fs pa)).
  - destruct (_upload_with_cache _ pa) as [[l|e] pb]; [|reflexivity].
    destruct (bool_decide (_ ∈ fs pb)); [|reflexivity].
    destruct (_upload_with_cache _ pb) as [[u|e] pc]; reflexivity.
  - destruct (bool_decide (_ ∈ fs pa)); [|reflexivity].
    destruct (_upload_with_cache _ pa) as [[u|e] pc]; reflexivity.
Qed.

(** X10.  Preparing the URLs of a design a second time in the same file
    manager returns the same URLs, reaches the uploader for no file and
    leaves the cache and everything else as it was. *)
Theorem prepare_urls_is_idempotent design_file p u p1 :
  prepare_urls design_file p = (Ok u, p1) ->
  prepare_urls design_file p1 = (Ok u, p1).
Proof.
  intros Hfirst. rewrite prepare_urls_run in Hfirst. cbv zeta in Hfirst.
  rewrite prepare_urls_run. cbv zeta.
  set (logo := "generate/universal_logo.png") in *.
  set (ups := String.append "upscaled/"
                (String.append (Py.design_name_of design_file) ".png")) in *.
  destruct (_upload_with_cache design_file p) as [[d|e] pa] eqn:E1;
    [|discriminate].
  apply upload_with_cache_returned in E1 as (C1 & F1 & M1).
  destruct (bool_decide (logo ∈ fs pa)) eqn:B1.
  - destruct (_upload_with_cache logo pa) as [[l|e] pb] eqn:E2;
      [|discriminate].
    apply upload_with_cache_returned in E2 as (C2 & F2 & M2).
    destruct (bool_decide (ups ∈ fs pb)) eqn:B2.
    + destruct (_upload_with_cache ups pb) as [[v|e] pc] eqn:E3;
        [|discriminate].
      apply upload_with_cache_returned in E3 as (C3 & F3 & M3).
      apply pair_equal_spec in Hfirst as [Hu Hp1].
      injection Hu as Hu. subst u p1.
      rewrite (upload_with_cache_hit design_file pc d) by auto. cbv beta iota.
      rewrite F3, F2, B1, (upload_with_cache_hit logo pc l) by auto. cbv beta iota.
      rewrite F3, B2, (upload_with_cache_hit ups pc v) by auto. cbv beta iota.
      reflexivity.
    + apply pair_equal_spec in Hfirst as [Hu Hp1].
      injection Hu as Hu. subst u p1.
      rewrite (upload_with_cache_hit design_file pb d) by auto. cbv beta iota.
      rewrite F2, B1, (upload_with_cache_hit logo pb l) by auto. cbv beta iota.
      rewrite B2. reflexivity.
  - destruct (bool_decide (ups ∈ fs pa)) eqn:B2.
    + destruct (_upload_with_cache ups pa) as [[v|e] pc] eqn:E3;
        [|discriminate].
      apply upload_with_cache_returned in E3 as (C3 & F3 & M3).
      apply pair_equal_spec in Hfirst as [Hu Hp1].
      injection Hu as Hu. subst u p1.
      rewrite (upload_with_cache_hit design_file pc d) by auto. cbv beta iota.
      rewrite F3, B1. cbv beta iota.
      rewrite F3, B2, (upload_with_cache_hit ups pc v) by auto. cbv beta iota.
      reflexivity.
    + apply pair_equal_spec in Hfirst as [Hu Hp1].
      injection Hu as Hu. subst u p1.
      rewrite (upload_with_cache_hit design_file pa d) by auto. cbv beta iota.
      rewrite B1. cbv beta iota. rewrite B2. reflexivity.
Qed.

Lemma upload_with_cache_exact path p :
  cache_exact p -> cache_exact (snd (_upload_with_cache path p)).
Proof.
  intros Hp. destruct (cache p !! path) as [url|] eqn:Hc.
  - rewrite (upload_with_cache_hit _ _ _ Hc). exact Hp.
  - rewrite (upload_with_cache_miss _ _ Hc). cbv zeta. simpl snd.
    intros q v. cbn [cache trace]. rewrite in_app_iff. simpl In.
    destruct (fst (upload_image path (ext p))) as [url|e].
    + destruct (String.eqb_spec path q) as [<-|Hne].
      * rewrite lookup_insert_eq. split.
        -- intros [= <-]. right. left. reflexivity.
        -- intros [Hin|[[= <-]|[]]]; [|reflexivity].
           apply Hp in Hin. congruence.
      * rewrite lookup_insert_ne by exact Hne. rewrite (Hp q v). split.
        -- intros Hin. left. exact Hin.
        -- intros [Hin|[[= E _]|[]]]; [exact Hin|contradiction].
    + rewrite (Hp q v). split.
      * intros Hin. left. exact Hin.
      * intros [Hin|[[=]|[]]]. exact Hin.
Qed.

(** X11.  In a file manager the cache and the uploader agree: if a path
    is cached with a URL exactly when an upload of that path returned that
    URL, this is still so after [_upload_with_cache] and after
    [prepare_urls], whether they return or raise. *)
Theorem cache_holds_what_the_uploader_returned design_file p :
  cache_exact p ->
  cache_exact (snd (_upload_with_cache design_file p))
  /\ cache_exact (snd (prepare_urls design_file p)).
Proof.
  intros Hp. split; [apply upload_with_cache_exact, Hp|].
  rewrite prepare_urls_run. cbv zeta.
  set (logo := "generate/universal_logo.png").
  set (ups := String.append "upscaled/"
                (String.append (Py.design_name_of design_file) ".png")).
  pose proof (upload_with_cache_exact design_file p Hp) as Ha.
  destruct (_upload_with_cache design_file p) as [[d|e] pa]; [|exact Ha].
  simpl in Ha.
  destruct (bool_decide (logo ∈ fs pa)).
  - pose proof (upload_with_cache_exact logo pa Ha) as Hb.
    destruct (_upload_with_cache logo pa) as [[l|e] pb]; [|exact Hb].
    simpl in Hb.
    destruct (bool_decide (ups ∈ fs pb)); [|exact Hb].
    pose proof (upload_with_cache_exact ups pb Hb) as Hc.
    destruct (_upload_with_cache ups pb) as [[v|e] pc]; exact Hc.
  - destruct (bool_decide (ups ∈ fs pa)); [|exact Ha].
    pose proof (upload_with_cache_exact ups pa Ha) as Hc.
    destruct (_upload_with_cache ups pa) as [[v|e] pc]; exact Hc.
Qed.

(** X12.  In the clean file manager the optional assets are not optional
    once their files exist: when the design is served and the logo file
    exists, an upload of the logo that raises makes [prepare_urls] raise
    the same exception. *)
Theorem failed_logo_upload_fails_prepare_urls design_file p d p1 e :
  _upload_with_cache design_file p = (Ok d, p1) ->
  "generate/universal_logo.png" ∈ fs p ->
  cache p1 !! "generate/universal_logo.png" = None ->
  fst (upload_image "generate/universal_logo.png" (ext p1)) = Raise e ->
  fst (prepare_urls design_file p) = Raise e.
Proof.
  intros E1 Hfs Hc Hup. rewrite prepare_urls_run. cbv zeta. rewrite E1.
  apply upload_with_cache_returned in E1 as (_ & F1 & _).
  rewrite F1, (bool_decide_eq_true_2 _ Hfs).
  rewrite (upload_with_cache_miss _ _ Hc). cbv zeta. rewrite Hup.
  reflexivity.
Qed.


(** The uploader calls, with their event. *)
Lemma uploader_upload_image_run path p :
  uploader_upload_image path p
  = (fst (upload_image path (ext p)),
     {| ext := snd (upload_image path (ext p));
        fs := fs p; objs := objs p; cache := cache p;
        trace := (trace p
                  ++ [Upload path (fst (upload_image path (ext p)))])%list |}).
Proof.
  unfold uploader_upload_image, bind, with_ext, log, lift.
  destruct (upload_image path (ext p)) as [r x]. reflexivity.
Qed.

(** An upload whose failure is only printed. *)
Lemma optional_upload_returns (has : bool) (c : M X string) p :
  exists o p',
    (if has
     then try_except (bind c (fun u => ret (Some u))) (fun _ => ret None)
     else ret None) p = (Ok o, p').
Proof.
  destruct has; [|eexists _, _; reflexivity].
  unfold try_except, bind, ret.
  destruct (c p) as [[u|e] p']; eexists _, _; reflexivity.
Qed.

(** X13.  In the modular builder only the design upload can fail the
    preparation of the URLs: when the uploader returns a URL for the
    design, [_prepare_product_urls] returns with that URL whatever happens
    to the uploads of the logo and of the upscaled design; when it raises,
    the preparation raises [Exception "Errore upload design"] after that
    single upload. *)
Theorem only_the_design_upload_can_fail design_file p :
  match fst (upload_image design_file (ext p)) with
  | Ok d =>
      exists u p',
        ModularBuilder._prepare_product_urls design_file p = (Ok u, p')
        /\ design_url u = d
  | Raise e =>
      ModularBuilder._prepare_product_urls design_file p
      = (Raise (Exception "Errore upload design"),
         {| ext := snd (upload_image design_file (ext p));
            fs := fs p; objs := objs p; cache := cache p;
            trace := (trace p ++ [Upload design_file (Raise e)])%list |})
  end.
Proof.
  unfold ModularBuilder._prepare_product_urls.
  pose proof (uploader_upload_image_run design_file p) as U.
  destruct (fst (upload_image design_file (ext p))) as [d|e].
  - rewrite (BuilderFacts.bind_ok _ _ _ _ _
               (BuilderFacts.try_except_ok _ _ _ _ _ U)).
    cbv zeta. unfold bind at 1. unfold path_exists at 1.
    match goal with |- context [bind (if ?b then ?c else ?d) ?k ?q] =>
      destruct (optional_upload_returns b
                  (uploader_upload_image "generate/universal_logo.png") q)
        as [l [p2 E2]];
      rewrite (BuilderFacts.bind_ok _ k q l p2 E2)
    end.
    unfold bind at 1. unfold path_exists at 1.
    match goal with |- context [bind (if ?b then ?c else ?d) ?k ?q] =>
      destruct (optional_upload_returns b
                  (uploader_upload_image_with_transparency
                     (String.append "upscaled/"
                        (String.append (Py.design_name_of design_file)
                           ".png"))) q)
        as [v [p3 E3]];
      rewrite (BuilderFacts.bind_ok _ k q v p3 E3)
    end.
    eexists _, _. split; reflexivity.
  - rewrite (BuilderFacts.bind_raise _ _ p (Exception "Errore upload design")
               _ (BuilderFacts.try_except_raise _ _ _ _ _ U)).
    reflexivity.
Qed.

End Preparation.

(** A design and the logo, prepared twice. *)
Lemma prepare_urls_is_idempotent_witness :
  let p := Script.start
             (Script.world []
                [Ok "https://img/a.png"; Ok "https://img/logo.png"] [])
             ["ricamo/a.png"; "generate/universal_logo.png"] in
  let u := {| design_url := "https://img/a.png";
              logo_url := Some "https://img/logo.png";
              upscaled_url := None; logo_black_url := None |} in
  prepare_urls "ricamo/a.png" (snd (prepare_urls "ricamo/a.png" p))
  = (Ok u, snd (prepare_urls "ricamo/a.png" p)).
Proof.
  intros p u.
  apply (prepare_urls_is_idempotent "ricamo/a.png" p u
           (snd (prepare_urls "ricamo/a.png" p))).
  vm_compute. reflexivity.
Defined.

Lemma cache_holds_what_the_uploader_returned_witness :
  let p := Script.start
             (Script.world []
                [Ok "https://img/a.png"; Raise (Exception "Errore rete")] [])
             ["ricamo/a.png"; "generate/universal_logo.png"] in
  cache_exact (snd (_upload_with_cache "ricamo/a.png" p))
  /\ cache_exact (snd (prepare_urls "ricamo/a.png" p)).
Proof.
  intros p.
  apply (cache_holds_what_the_uploader_returned "ricamo/a.png" p).
  intros path url. split.
  - intros Hc. change (cache p) with (∅ : gmap string string) in Hc.
    rewrite lookup_empty in Hc. discriminate.
  - intros [].
Defined.

Lemma failed_logo_upload_fails_prepare_urls_witness :
  let p := Script.start
             (Script.world []
                [Ok "https://img/a.png"; Raise (Exception "Errore rete")] [])
             ["ricamo/a.png"; "generate/universal_logo.png"] in
  fst (prepare_urls "ricamo/a.png" p) = Raise (Exception "Errore rete").
Proof.
  intros p.
  apply (failed_logo_upload_fails_prepare_urls "ricamo/a.png" p
           "https://img/a.png" (snd (_upload_with_cache "ricamo/a.png" p))).
  - vm_compute. reflexivity.
  - refine (bool_decide_unpack _ _). vm_compute. exact I.
  - vm_compute. reflexivity.
  - vm_compute. reflexivity.
Defined.

End PreparationFacts.

(* ===================================================================== *)
(** * Facts about the gateway calls of a build *)
(* ===================================================================== *)

Module ProtocolFacts.
Import Placements Sys FileManager.

Section GatewayCalls.
Context {X : Type} `{World X}.
Implicit Types p : process X.

Lemma api_suffix_refl p : api_suffix p p [].
Proof. unfold api_suffix. symmetry. apply app_nil_r. Qed.

Lemma api_suffix_trans p1 p2 p3 l1 l2 :
  api_suffix p1 p2 l1 -> api_suffix p2 p3 l2 ->
  api_suffix p1 p3 (l1 ++ l2).
Proof.
  unfold api_suffix. intros A B. rewrite B, A. symmetry. apply app_assoc.
Qed.

Lemma api_suffix_log p x e :
  api_suffix p (logged p x e) (if is_api e then [e] else []).
Proof.
  unfold api_suffix, logged. cbn [trace].
  rewrite BuilderFacts.api_events_app. simpl. destruct (is_api e); reflexivity.
Qed.

(** ** Computations and the gateway calls they make *)

Lemma emits_only_pure {A} Q (c : M X A) :
  (forall p, trace (snd (c p)) = trace p) -> emits_only Q c.
Proof.
  intros Hc p. exists []. split; [|reflexivity].
  unfold api_suffix. rewrite Hc. symmetry. apply app_nil_r.
Qed.

Lemma emits_only_ret {A} Q (a : A) : emits_only Q (ret a : M X A).
Proof. apply emits_only_pure. reflexivity. Qed.

Lemma emits_only_raise {A} Q e : emits_only Q (raise e : M X A).
Proof. apply emits_only_pure. reflexivity. Qed.

Lemma emits_only_lift {A} Q (r : result A) : emits_only Q (lift r : M X A).
Proof. apply emits_only_pure. reflexivity. Qed.

Lemma emits_only_read_ext {A} Q (f : X -> A) : emits_only Q (read_ext f).
Proof. apply emits_only_pure. reflexivity. Qed.

Lemma emits_only_path_exists Q path :
  emits_only Q (path_exists path : M X bool).
Proof. apply emits_only_pure. reflexivity. Qed.

Lemma emits_only_get_objs Q : emits_only Q (get_objs : M X _).
Proof. apply emits_only_pure. reflexivity. Qed.

Lemma emits_only_bind {A B} Q (c : M X A) (k : A -> M X B) :
  emits_only Q c -> (forall a, emits_only Q (k a)) ->
  emits_only Q (bind c k).
Proof.
  intros Hc Hk p. unfold bind. destruct (Hc p) as [l1 [S1 Q1]].
  destruct (c p) as [[a|e] p1]; simpl in S1.
  - destruct (Hk a p1) as [l2 [S2 Q2]]. exists (l1 ++ l2)%list. split.
    + eapply api_suffix_trans; eassumption.
    + rewrite forallb_app, Q1, Q2. reflexivity.
  - exists l1. split; assumption.
Qed.

Lemma emits_only_try_except {A} Q (c : M X A) (handler : exn -> M X A) :
  emits_only Q c -> (forall e, emits_only Q (handler e)) ->
  emits_only Q (try_except c handler).
Proof.
  intros Hc Hk p. unfold try_except. destruct (Hc p) as [l1 [S1 Q1]].
  destruct (c p) as [[a|e] p1]; simpl in S1.
  - exists l1. split; assumption.
  - destruct (Hk e p1) as [l2 [S2 Q2]]. exists (l1 ++ l2)%list. split.
    + eapply api_suffix_trans; eassumption.
    + rewrite forallb_app, Q1, Q2. reflexivity.
Qed.

Lemma emits_only_store_op {A} Q f : emits_only Q (store_op f : M X A).
Proof.
  apply emits_only_pure. intros p. unfold store_op, bind, with_objs, lift.
  destruct (f (objs p)) as [r h]. reflexivity.
Qed.

Lemma emits_only_log Q e : is_api e = false -> emits_only Q (log e : M X unit).
Proof.
  intros He p. exists []. split; [|reflexivity].
  unfold api_suffix, log. cbn [snd trace].
  rewrite BuilderFacts.api_events_app. simpl. rewrite He. reflexivity.
Qed.

Lemma emits_only_sleep Q n : emits_only Q (sleep n : M X unit).
Proof. apply emits_only_log. reflexivity. Qed.

Lemma emits_only_with_ext {A} Q (f : X -> A * X) : emits_only Q (with_ext f).
Proof.
  apply emits_only_pure. intros p. unfold with_ext.
  destruct (f (ext p)) as [a x]. reflexivity.
Qed.

Lemma emits_only_upload Q path : emits_only Q (uploader_upload_image path).
Proof.
  unfold uploader_upload_image.
  apply emits_only_bind; [apply emits_only_with_ext|intros r].
  apply emits_only_bind; [apply emits_only_log; reflexivity|intros _].
  apply emits_only_lift.
Qed.

Lemma emits_only_upload_transparent Q path :
  emits_only Q (uploader_upload_image_with_transparency path).
Proof.
  unfold uploader_upload_image_with_transparency.
  apply emits_only_bind; [apply emits_only_with_ext|intros r].
  apply emits_only_bind; [apply emits_only_log; reflexivity|intros _].
  apply emits_only_lift.
Qed.

Lemma emits_only_image_save Q path : emits_only Q (image_save path : M X unit).
Proof.
  intros p. exists []. split; [|reflexivity].
  unfold api_suffix, image_save. cbn [snd trace].
  rewrite BuilderFacts.api_events_app. reflexivity.
Qed.

Lemma emits_only_os_remove Q path : emits_only Q (os_remove path : M X unit).
Proof.
  intros p. exists []. split; [|reflexivity].
  unfold api_suffix, os_remove. destruct (bool_decide (path ∈ fs p)).
  - cbn [snd trace]. rewrite BuilderFacts.api_events_app. reflexivity.
  - symmetry. apply app_nil_r.
Qed.

Lemma emits_only_upload_with_cache Q path :
  emits_only Q (_upload_with_cache path).
Proof.
  intros p. exists []. split; [|reflexivity].
  unfold api_suffix.
  rewrite (proj2 (BuilderFacts.quiet_upload_with_cache path p)).
  symmetry. apply app_nil_r.
Qed.

Lemma emits_only_api_call Q req :
  (forall r, Q (Api req r) = true) -> emits_only Q (api_call req).
Proof.
  intros HQ p. unfold api_call, bind, with_ext, log, lift.
  destruct (vendor req (ext p)) as [r x]. cbn [snd trace].
  exists [Api req r]. split.
  - unfold api_suffix. cbn [snd trace]. destruct r; cbn [snd trace];
      rewrite BuilderFacts.api_events_app; reflexivity.
  - simpl. rewrite HQ. reflexivity.
Qed.

Lemma emits_only_for_each {A S} Q (xs : list A) (body : A -> S -> M X S) :
  (forall x s, emits_only Q (body x s)) ->
  forall s, emits_only Q (for_each xs body s).
Proof.
  intros Hb. induction xs as [|x xs IH]; intros s; simpl.
  - apply emits_only_ret.
  - apply emits_only_bind; [apply Hb|exact IH].
Qed.

Lemma emits_only_map_m {A B} Q (f : A -> M X B) (xs : list A) :
  (forall x, emits_only Q (f x)) -> emits_only Q (map_m f xs).
Proof.
  intros Hf. induction xs as [|x xs IH]; simpl.
  - apply emits_only_ret.
  - apply emits_only_bind; [apply Hf|intros b].
    apply emits_only_bind; [exact IH|intros bs]. apply emits_only_ret.
Qed.

Lemma emits_nothing {A} (c : M X A) p :
  emits_only no_call c -> api_suffix p (snd (c p)) [].
Proof.
  intros Hc. destruct (Hc p) as [[|e l] [S Q]]; [exact S|discriminate].
Qed.

(** ** The steps of the builders *)

Lemma creates_run {A} (pre : M X (list sync_entry)) name thumbnail
      (post : json -> result A) :
  emits_only no_call pre ->
  creates (fun p =>
             match pre p with
             | (Ok entries, p1) =>
                 match api_call (POST StoreProducts
                                   (body_of name thumbnail entries p1)) p1 with
                 | (Ok response, p2) => (post response, p2)
                 | (Raise e, p2) => (Raise e, p2)
                 end
             | (Raise e, p1) => (Raise e, p1)
             end).
Proof.
  intros Hpre p. pose proof (emits_nothing pre p Hpre) as S1.
  destruct (pre p) as [[entries|e] p1]; simpl in S1.
  - rewrite BuilderFacts.api_call_run.
    set (req := POST StoreProducts (body_of name thumbnail entries p1)).
    exists [Api req (fst (vendor req (ext p1)))]. split.
    + assert (S2 : api_suffix p
                     (logged p1 (snd (vendor req (ext p1)))
                        (Api req (fst (vendor req (ext p1)))))
                     ([] ++ [Api req (fst (vendor req (ext p1)))])).
      { eapply api_suffix_trans; [exact S1|]. apply (api_suffix_log p1). }
      destruct (fst (vendor req (ext p1))); exact S2.
    + right. eexists _, _. reflexivity.
  - exists []. split; [exact S1|]. left. split; reflexivity.
Qed.

Lemma creates_ext {A} (c c' : M X A) :
  (forall p, c p = c' p) -> creates c' -> creates c.
Proof. intros E Hc p. rewrite E. apply Hc. Qed.

Lemma creates_after {A B} (pre : M X A) (k : A -> M X B) :
  emits_only no_call pre -> (forall a, creates (k a)) ->
  creates (bind pre k).
Proof.
  intros Hpre Hk p. pose proof (emits_nothing pre p Hpre) as S1.
  unfold bind. destruct (pre p) as [[a|e] p1]; simpl in S1.
  - destruct (Hk a p1) as [l [S2 C2]]. exists l. split; [|exact C2].
    apply (api_suffix_trans p p1 _ [] l S1 S2).
  - exists []. split; [exact S1|]. left. split; reflexivity.
Qed.

Lemma creates_then {A B} (c : M X A) (k : A -> M X B) :
  creates c -> (forall a, emits_only no_call (k a)) ->
  creates (bind c k).
Proof.
  intros Hc Hk p. destruct (Hc p) as [l [S1 C1]]. unfold bind.
  destruct (c p) as [[a|e] p1]; simpl in S1, C1.
  - pose proof (emits_nothing (k a) p1 (Hk a)) as S2.
    exists l. split.
    + rewrite <- (app_nil_r l). eapply api_suffix_trans; eassumption.
    + right. destruct C1 as [[_ C1]|C1]; [discriminate|exact C1].
  - exists l. split; [exact S1|].
    destruct C1 as [[-> _]|C1]; [left; split; reflexivity|right; exact C1].
Qed.

Lemma creation_first_nil : creation_first [].
Proof. left. reflexivity. Qed.

Lemma starts_with_creation_then {A B} (c : M X A) (k : A -> M X B) :
  creates c -> (forall a, emits_only is_get_or_put (k a)) ->
  starts_with_creation (bind c k).
Proof.
  intros Hc Hk p. destruct (Hc p) as [l [S1 C1]]. unfold bind.
  destruct (c p) as [[a|e] p1]; simpl in S1, C1.
  - destruct (Hk a p1) as [l2 [S2 Q2]]. exists (l ++ l2)%list. split.
    + eapply api_suffix_trans; eassumption.
    + destruct C1 as [[_ C1]|[b [r ->]]]; [discriminate|].
      right. exists b, r, l2. split; [reflexivity|exact Q2].
  - exists l. split; [exact S1|].
    destruct C1 as [[-> _]|[b [r ->]]]; [left; split; reflexivity|].
    right. exists b, r, []. split; reflexivity.
Qed.

Lemma starts_with_creation_after {A B} (pre : M X A) (k : A -> M X B) :
  emits_only no_call pre -> (forall a, starts_with_creation (k a)) ->
  starts_with_creation (bind pre k).
Proof.
  intros Hpre Hk p. pose proof (emits_nothing pre p Hpre) as S1.
  unfold bind. destruct (pre p) as [[a|e] p1]; simpl in S1.
  - destruct (Hk a p1) as [l [S2 C2]]. exists l. split; [|exact C2].
    apply (api_suffix_trans p p1 _ [] l S1 S2).
  - exists []. split; [exact S1|]. left. split; reflexivity.
Qed.

Lemma starts_with_creation_more {A B} (c : M X A) (k : A -> M X B) :
  starts_with_creation c -> (forall a, emits_only is_get_or_put (k a)) ->
  starts_with_creation (bind c k).
Proof.
  intros Hc Hk p. destruct (Hc p) as [l [S1 C1]]. unfold bind.
  destruct (c p) as [[a|e] p1]; simpl in S1, C1.
  - destruct (Hk a p1) as [l2 [S2 Q2]]. exists (l ++ l2)%list. split.
    + eapply api_suffix_trans; eassumption.
    + destruct C1 as [[_ C1]|[b [r [rest [-> Qr]]]]]; [discriminate|].
      right. exists b, r, (rest ++ l2)%list. split; [reflexivity|].
      rewrite forallb_app, Qr, Q2. reflexivity.
  - exists l. split; [exact S1|].
    destruct C1 as [[-> _]|C1]; [left; split; reflexivity|right; exact C1].
Qed.

Lemma starts_with_creation_emits {A} (c : M X A) :
  starts_with_creation c -> emits creation_first c.
Proof.
  intros Hc p. destruct (Hc p) as [l [S1 C1]]. exists l. split; [exact S1|].
  destruct C1 as [[-> _]|C1]; [left; reflexivity|right; exact C1].
Qed.

Lemma creation_and_read_then {A B} (c : M X A) (k : A -> M X B) :
  creates c -> (forall a, reads (k a)) ->
  emits creation_and_read (bind c k).
Proof.
  intros Hc Hk p. destruct (Hc p) as [l [S1 C1]]. unfold bind.
  destruct (c p) as [[a|e] p1]; simpl in S1, C1.
  - destruct (Hk a p1) as [id [r' S2]].
    exists (l ++ [Api (GET (StoreProduct id)) r'])%list. split.
    + eapply api_suffix_trans; eassumption.
    + destruct C1 as [[_ C1]|[b [r ->]]]; [discriminate|].
      right. right. exists b, r, id, r'. reflexivity.
  - exists l. split; [exact S1|].
    destruct C1 as [[-> _]|[b [r ->]]]; [left; reflexivity|].
    right. left. exists b, r. reflexivity.
Qed.

(** Steps that surround the creation without any gateway call. *)
Lemma emits_after {A B} (P : list event -> Prop) (pre : M X A)
      (k : A -> M X B) :
  emits_only no_call pre -> P [] -> (forall a, emits P (k a)) ->
  emits P (bind pre k).
Proof.
  intros Hpre HP Hk p. pose proof (emits_nothing pre p Hpre) as S1.
  unfold bind. destruct (pre p) as [[a|e] p1]; simpl in S1.
  - destruct (Hk a p1) as [l [S2 C2]]. exists l. split; [|exact C2].
    apply (api_suffix_trans p p1 _ [] l S1 S2).
  - exists []. split; [exact S1|exact HP].
Qed.

Lemma emits_try_except {A} (P : list event -> Prop) (c : M X A)
      (handler : exn -> M X A) :
  emits P c -> (forall e, emits_only no_call (handler e)) ->
  emits P (try_except c handler).
Proof.
  intros Hc Hh p. destruct (Hc p) as [l [S1 C1]]. unfold try_except.
  destruct (c p) as [[a|e] p1]; simpl in S1.
  - exists l. split; assumption.
  - pose proof (emits_nothing (handler e) p1 (Hh e)) as S2.
    exists l. split; [|exact C1].
    rewrite <- (app_nil_r l). eapply api_suffix_trans; eassumption.
Qed.

Lemma emits_silent {A} (P : list event -> Prop) (c : M X A) :
  emits_only no_call c -> P [] -> emits P c.
Proof.
  intros Hc HP p. exists []. split; [apply emits_nothing, Hc|exact HP].
Qed.

Lemma reads_then {A} id (k : json -> M X A) :
  (forall a, emits_only no_call (k a)) ->
  reads (bind (api_call (GET (StoreProduct id))) k).
Proof.
  intros Hk p. unfold bind. rewrite BuilderFacts.api_call_run.
  set (req := GET (StoreProduct id)).
  exists id, (fst (vendor req (ext p))).
  pose proof (api_suffix_log p (snd (vendor req (ext p)))
                (Api req (fst (vendor req (ext p))))) as S1.
  simpl in S1.
  destruct (fst (vendor req (ext p))) as [a|e]; [|exact S1].
  eapply (api_suffix_trans _ _ _ [_] []); [exact S1|].
  apply emits_nothing, Hk.
Qed.

(** ** The modular builder *)

Lemma modular_payload_silent Q pcm v pt u :
  emits_only Q (ModularBuilder._create_variant_payload pcm v pt u).
Proof.
  unfold ModularBuilder._create_variant_payload.
  apply emits_only_bind; [apply emits_only_store_op|intros fc].
  apply emits_only_ret.
Qed.

Lemma modular_send_emits Q mk name thumbnail entries :
  (forall b r, Q (Api (mk b) r) = true) ->
  emits_only Q (ModularBuilder.send mk name thumbnail entries).
Proof.
  intros HQ. unfold ModularBuilder.send.
  apply emits_only_bind; [apply emits_only_get_objs|intros h].
  apply emits_only_api_call. intros r. apply HQ.
Qed.

Lemma modular_prepare_silent design_file :
  emits_only no_call (ModularBuilder._prepare_product_urls design_file).
Proof.
  unfold ModularBuilder._prepare_product_urls.
  apply emits_only_bind.
  { apply emits_only_try_except; [apply emits_only_upload|].
    intros e. apply emits_only_raise. }
  intros design. cbv zeta.
  apply emits_only_bind; [apply emits_only_path_exists|intros has_logo].
  apply emits_only_bind.
  { destruct has_logo; [|apply emits_only_ret].
    apply emits_only_try_except; [|intros e; apply emits_only_ret].
    apply emits_only_bind; [apply emits_only_upload|intros u].
    apply emits_only_ret. }
  intros logo.
  apply emits_only_bind; [apply emits_only_path_exists|intros has_upscaled].
  apply emits_only_bind.
  { destruct has_upscaled; [|apply emits_only_ret].
    apply emits_only_try_except; [|intros e; apply emits_only_ret].
    apply emits_only_bind; [apply emits_only_upload_transparent|intros u].
    apply emits_only_ret. }
  intros upscaled. apply emits_only_ret.
Qed.

Lemma modular_create_initial_creates pcm name pt variants u :
  creates (ModularBuilder.create_initial pcm name pt variants u).
Proof.
  eapply creates_ext;
    [|apply (creates_run
               (map_m (fun v => ModularBuilder._create_variant_payload
                                  pcm v pt u)
                      (Planner.modular_initial_batch variants))
               name (design_url u)
               (fun response =>
                  match Py.get response "code" with
                  | Ok c =>
                      if negb (Py.in_200_201 c)
                      then Raise (Exception "Errore creazione prodotto")
                      else ModularBuilder.product_id_of response
                  | Raise e => Raise e
                  end))].
  - intros p.
    unfold ModularBuilder.create_initial,
      ModularBuilder._create_initial_product, bind.
    destruct (map_m _ _ p) as [[entries|e] p1]; [|reflexivity].
    rewrite BuilderFacts.send_run.
    destruct (api_call _ p1) as [[response|e] p2]; [|reflexivity].
    unfold lift, raise, ret.
    destruct (Py.get response "code") as [c|e]; [|reflexivity].
    destruct (Py.in_200_201 c); reflexivity.
  - apply emits_only_map_m. intros v. apply modular_payload_silent.
Qed.

Lemma modular_append_batch_emits pcm id remaining pt u name design n cv :
  emits_only is_get_or_put
    (ModularBuilder.append_batch pcm id remaining pt u name design n cv).
Proof.
  unfold ModularBuilder.append_batch. cbv zeta.
  apply emits_only_bind.
  { apply emits_only_map_m. intros v. apply modular_payload_silent. }
  intros news.
  apply emits_only_bind; [apply emits_only_lift|intros existing].
  apply emits_only_bind; [apply modular_send_emits; reflexivity|intros resp].
  apply emits_only_bind; [apply emits_only_lift|intros code].
  destruct (negb (Py.in_200_201 code)); [apply emits_only_ret|].
  apply emits_only_bind; [apply emits_only_api_call; reflexivity|intros info].
  apply emits_only_bind; [apply emits_only_lift|intros code'].
  apply emits_only_bind.
  { destruct (Py.in_200_201 code'); [apply emits_only_lift|apply emits_only_ret]. }
  intros cv'.
  apply emits_only_bind; [|intros _; apply emits_only_ret].
  destruct (n <? Planner.total_batches remaining - 1);
    [apply emits_only_sleep|apply emits_only_ret].
Qed.

Lemma modular_add_remaining_emits pcm id remaining pt u name design :
  emits_only is_get_or_put
    (ModularBuilder._add_remaining_variants_batch pcm id remaining pt u
       name design).
Proof.
  unfold ModularBuilder._add_remaining_variants_batch.
  destruct remaining as [|v rest]; [apply emits_only_ret|].
  apply emits_only_bind; [apply emits_only_api_call; reflexivity|intros info].
  apply emits_only_bind; [apply emits_only_lift|intros code].
  destruct (negb (Py.in_200_201 code)); [apply emits_only_raise|].
  apply emits_only_bind; [apply emits_only_lift|intros cv].
  apply emits_only_for_each. intros n s. apply modular_append_batch_emits.
Qed.

Lemma modular_append_emits pcm id name pt variants u :
  emits_only is_get_or_put
    (ModularBuilder.append_remaining pcm id name pt variants u).
Proof.
  unfold ModularBuilder.append_remaining. cbv zeta.
  destruct (Planner.modular_remaining variants) as [|v rest] eqn:E;
    [apply emits_only_ret|].
  apply emits_only_bind; [|intros _; apply emits_only_ret].
  apply modular_add_remaining_emits.
Qed.

Lemma modular_append_silent pcm id name pt variants u :
  length variants <= 20 ->
  emits_only no_call
    (ModularBuilder.append_remaining pcm id name pt variants u).
Proof.
  intros Hn. unfold ModularBuilder.append_remaining. cbv zeta.
  replace (Planner.modular_remaining variants) with (@nil variant).
  - apply emits_only_ret.
  - symmetry. unfold Planner.modular_remaining, Py.slice_from,
      Planner.max_initial.
    apply skipn_all2. exact Hn.
Qed.

Lemma modular_verify_tail_silent id f pt (variants : list variant) u
      final_info :
  emits_only no_call
    (bind (lift (Py.get final_info "code"))
       (fun code =>
          if negb (Py.in_200_201 code)
          then ret (ModularBuilder.FinalStateError final_info pt)
          else
            bind (lift (Py.subscript final_info "result"))
              (fun final_product_info =>
                 bind (lift (Py.get_default final_product_info
                               "sync_product" (JDict [])))
                   (fun sync_product =>
                      bind (lift (Py.get_default final_product_info
                                    "sync_variants" (JList [])))
                        (fun sync_variants =>
                           bind (lift (Py.len sync_variants))
                             (fun created =>
                                ret (ModularBuilder.Built id sync_product
                                       sync_variants pt f
                                       (length variants) created u)))))
        : M X ModularBuilder.build_result)).
Proof.
  apply emits_only_bind; [apply emits_only_lift|intros code].
  destruct (negb (Py.in_200_201 code)); [apply emits_only_ret|].
  repeat (apply emits_only_bind; [apply emits_only_lift|intros ?]).
  apply emits_only_ret.
Qed.

Lemma modular_verify_reads id f pt variants u :
  reads (ModularBuilder.verify id f pt variants u).
Proof.
  unfold ModularBuilder.verify. apply reads_then.
  intros final_info. apply modular_verify_tail_silent.
Qed.

Lemma modular_verify_emits id f pt variants u :
  emits_only is_get_or_put (ModularBuilder.verify id f pt variants u).
Proof.
  intros p. destruct (modular_verify_reads id f pt variants u p)
    as [id' [r S]].
  eexists. split; [exact S|reflexivity].
Qed.

Lemma modular_create_starts pcm f pt variants info u :
  starts_with_creation (ModularBuilder.create pcm f pt variants info u).
Proof.
  unfold ModularBuilder.create. cbv zeta.
  apply starts_with_creation_after.
  { destruct info; [apply emits_only_ret|apply emits_only_raise]. }
  intros info_name.
  apply starts_with_creation_then; [apply modular_create_initial_creates|].
  intros id.
  apply emits_only_bind; [apply modular_append_emits|intros _].
  apply emits_only_ret.
Qed.

Lemma modular_create_creates pcm f pt variants info u :
  length variants <= 20 ->
  creates (ModularBuilder.create pcm f pt variants info u).
Proof.
  intros Hn. unfold ModularBuilder.create. cbv zeta.
  apply creates_after.
  { destruct info; [apply emits_only_ret|apply emits_only_raise]. }
  intros info_name.
  apply creates_then; [apply modular_create_initial_creates|].
  intros id.
  apply emits_only_bind; [apply modular_append_silent, Hn|intros _].
  apply emits_only_ret.
Qed.

Lemma modular_build_emits pcm f pt :
  emits creation_first (ModularBuilder.build_single_product pcm f pt).
Proof.
  unfold ModularBuilder.build_single_product.
  apply emits_try_except; [|intros e; apply emits_only_ret].
  apply emits_after; [apply emits_only_read_ext|apply creation_first_nil|].
  intros r.
  apply emits_after; [apply emits_only_lift|apply creation_first_nil|].
  intros variants.
  apply emits_after; [apply emits_only_read_ext|apply creation_first_nil|].
  intros info.
  destruct (negb _);
    [apply emits_silent; [apply emits_only_ret|apply creation_first_nil]|].
  apply emits_after; [apply modular_prepare_silent|apply creation_first_nil|].
  intros u.
  apply starts_with_creation_emits, starts_with_creation_more;
    [apply modular_create_starts|].
  intros id. apply modular_verify_emits.
Qed.

(** ** The clean builder *)

Lemma core_payloads_silent Q pm pt variants u :
  emits_only Q (CoreBuilder._build_variants_payload pm pt variants u).
Proof.
  unfold CoreBuilder._build_variants_payload.
  apply emits_only_map_m. intros v.
  apply emits_only_bind; [apply emits_only_store_op|intros fc].
  apply emits_only_ret.
Qed.

Lemma core_send_emits Q mk name thumbnail entries :
  (forall b r, Q (Api (mk b) r) = true) ->
  emits_only Q (CoreBuilder.send mk name thumbnail entries).
Proof.
  intros HQ. unfold CoreBuilder.send.
  apply emits_only_bind; [apply emits_only_get_objs|intros h].
  apply emits_only_api_call. intros r. apply HQ.
Qed.

Lemma core_prepare_urls_silent design_file :
  emits_only no_call (prepare_urls design_file).
Proof.
  unfold prepare_urls.
  apply emits_only_bind; [apply emits_only_upload_with_cache|intros design].
  cbv zeta.
  apply emits_only_bind; [apply emits_only_path_exists|intros has_logo].
  apply emits_only_bind.
  { destruct has_logo; [|apply emits_only_ret].
    apply emits_only_bind; [apply emits_only_upload_with_cache|intros u].
    apply emits_only_ret. }
  intros logo.
  apply emits_only_bind; [apply emits_only_path_exists|intros has_upscaled].
  apply emits_only_bind.
  { destruct has_upscaled; [|apply emits_only_ret].
    apply emits_only_bind; [apply emits_only_upload_with_cache|intros u].
    apply emits_only_ret. }
  intros upscaled. apply emits_only_ret.
Qed.

Lemma core_left_aligned_silent image_path :
  emits_only no_call (CoreBuilder.create_left_aligned_image image_path).
Proof.
  unfold CoreBuilder.create_left_aligned_image.
  apply emits_only_bind; [apply emits_only_read_ext|intros r].
  apply emits_only_bind; [apply emits_only_lift|intros _].
  destruct (Py.splitext image_path) as [base ext].
  apply emits_only_bind; [apply emits_only_image_save|intros _].
  apply emits_only_ret.
Qed.

Lemma core_prepare_silent design_file pt :
  emits_only no_call
    (CoreBuilder._prepare_urls_for_product design_file pt).
Proof.
  unfold CoreBuilder._prepare_urls_for_product.
  apply emits_only_bind; [apply core_prepare_urls_silent|intros urls0].
  cbv zeta.
  destruct (String.eqb pt "yupoong_6089m").
  - apply emits_only_bind; [apply emits_only_path_exists|intros optimized].
    apply emits_only_bind.
    { apply emits_only_try_except; [|intros e; apply emits_only_ret].
      apply emits_only_bind; [apply core_left_aligned_silent|intros path].
      apply emits_only_bind; [apply emits_only_upload_with_cache|intros url].
      apply emits_only_try_except; [|intros e; apply emits_only_ret].
      apply emits_only_bind; [apply emits_only_os_remove|intros _].
      apply emits_only_ret. }
    intros urls1.
    apply emits_only_bind; [apply emits_only_path_exists|intros has_black].
    destruct has_black; [|apply emits_only_ret].
    apply emits_only_bind; [apply emits_only_upload_with_cache|intros url].
    apply emits_only_ret.
  - destruct (String.eqb pt "as_colour_1120"); [|apply emits_only_ret].
    apply emits_only_bind; [apply emits_only_path_exists|intros present].
    destruct (negb present); [apply emits_only_raise|].
    apply emits_only_bind; [apply emits_only_read_ext|intros r].
    apply emits_only_bind; [apply emits_only_lift|intros _].
    apply emits_only_bind; [apply emits_only_image_save|intros _].
    apply emits_only_bind; [apply emits_only_upload_with_cache|intros url].
    apply emits_only_bind; [apply emits_only_os_remove|intros _].
    apply emits_only_ret.
Qed.

Lemma core_create_initial_creates pm name pt variants u :
  creates (CoreBuilder.create_initial pm name pt variants u).
Proof.
  eapply creates_ext;
    [|apply (creates_run
               (CoreBuilder._build_variants_payload pm pt
                  (Planner.core_initial_batch variants) u)
               name (design_url u)
               (fun response =>
                  match Py.get response "code" with
                  | Ok c =>
                      if negb (Py.in_200_201 c)
                      then Raise (Exception "Creazione fallita")
                      else CoreBuilder.product_id_of response
                  | Raise e => Raise e
                  end))].
  - intros p. unfold CoreBuilder.create_initial, bind. cbv zeta.
    destruct (CoreBuilder._build_variants_payload _ _ _ _ p)
      as [[entries|e] p1]; [|reflexivity].
    change (CoreBuilder.send (POST StoreProducts) name (design_url u)
              entries p1)
      with (api_call (POST StoreProducts
                        (body_of name (design_url u) entries p1)) p1).
    destruct (api_call _ p1) as [[response|e] p2]; [|reflexivity].
    unfold lift, raise, ret.
    destruct (Py.get response "code") as [c|e]; [|reflexivity].
    destruct (Py.in_200_201 c); reflexivity.
  - apply core_payloads_silent.
Qed.

Lemma core_add_variants_batch_emits pm id name pt batch u :
  emits_only is_get_or_put
    (CoreBuilder._add_variants_batch pm id name pt batch u).
Proof.
  unfold CoreBuilder._add_variants_batch.
  apply emits_only_bind; [apply emits_only_api_call; reflexivity|intros cur].
  apply emits_only_bind; [apply emits_only_lift|intros existing].
  apply emits_only_bind; [apply core_payloads_silent|intros news].
  apply emits_only_bind; [apply core_send_emits; reflexivity|intros _].
  apply emits_only_ret.
Qed.

Lemma core_append_emits pm id name pt variants u :
  emits_only is_get_or_put
    (CoreBuilder.append_remaining pm id name pt variants u).
Proof.
  unfold CoreBuilder.append_remaining.
  apply emits_only_for_each. intros batch [].
  apply emits_only_bind; [apply core_add_variants_batch_emits|intros _].
  apply emits_only_sleep.
Qed.

Lemma core_no_append_batches (variants : list variant) :
  length variants <= 8 -> Planner.core_append_batches variants = [].
Proof.
  intros Hn. unfold Planner.core_append_batches, Planner.core_remaining,
    Py.slice_from.
  rewrite skipn_all2 by exact Hn. reflexivity.
Qed.

Lemma core_append_silent pm id name pt variants u :
  length variants <= 8 ->
  emits_only no_call
    (CoreBuilder.append_remaining pm id name pt variants u).
Proof.
  intros Hn. unfold CoreBuilder.append_remaining.
  rewrite (core_no_append_batches variants Hn). apply emits_only_ret.
Qed.

Lemma core_verify_reads id name pt : reads (CoreBuilder.verify id name pt).
Proof.
  unfold CoreBuilder.verify. apply reads_then. intros final.
  repeat (apply emits_only_bind; [apply emits_only_lift|intros ?]).
  apply emits_only_ret.
Qed.

Lemma core_verify_emits id name pt :
  emits_only is_get_or_put (CoreBuilder.verify id name pt).
Proof.
  intros p. destruct (core_verify_reads id name pt p) as [id' [r S]].
  eexists. split; [exact S|reflexivity].
Qed.

Lemma core_create_product_starts pm name pt variants u :
  starts_with_creation (CoreBuilder._create_product pm name pt variants u).
Proof.
  unfold CoreBuilder._create_product.
  apply starts_with_creation_then; [apply core_create_initial_creates|].
  intros id.
  apply emits_only_bind; [apply core_append_emits|intros _].
  apply emits_only_ret.
Qed.

Lemma core_create_product_creates pm name pt variants u :
  length variants <= 8 ->
  creates (CoreBuilder._create_product pm name pt variants u).
Proof.
  intros Hn. unfold CoreBuilder._create_product.
  apply creates_then; [apply core_create_initial_creates|].
  intros id.
  apply emits_only_bind; [apply core_append_silent, Hn|intros _].
  apply emits_only_ret.
Qed.

Lemma core_create_starts pm f pt :
  starts_with_creation (CoreBuilder.create pm f pt).
Proof.
  unfold CoreBuilder.create. cbv zeta.
  apply starts_with_creation_after; [apply emits_only_lift|intros name].
  apply starts_with_creation_after; [apply emits_only_read_ext|intros r].
  apply starts_with_creation_after; [apply emits_only_lift|intros variants].
  apply starts_with_creation_after; [apply core_prepare_silent|intros u].
  apply starts_with_creation_more; [apply core_create_product_starts|].
  intros id. apply emits_only_ret.
Qed.

Lemma core_build_emits pm f pt :
  emits creation_first (CoreBuilder.build pm f pt).
Proof.
  unfold CoreBuilder.build.
  apply emits_try_except; [|intros e; apply emits_only_ret].
  apply starts_with_creation_emits, starts_with_creation_more;
    [apply core_create_starts|].
  intros created. apply core_verify_emits.
Qed.

(** ** Builds seen from one state *)

Lemma try_except_at {A} (P : list event -> Prop) (c : M X A)
      (handler : exn -> M X A) p :
  (exists l, api_suffix p (snd (c p)) l /\ P l) ->
  (forall e, emits_only no_call (handler e)) ->
  exists l, api_suffix p (snd (try_except c handler p)) l /\ P l.
Proof.
  intros [l [S1 C1]] Hh. unfold try_except.
  destruct (c p) as [[a|e] p1]; simpl in S1.
  - exists l. split; assumption.
  - pose proof (emits_nothing (handler e) p1 (Hh e)) as S2.
    exists l. split; [|exact C1].
    rewrite <- (app_nil_r l). eapply api_suffix_trans; eassumption.
Qed.

Lemma after_lift_at {A B} (P : list event -> Prop) (r : result A)
      (k : A -> M X B) p :
  P [] ->
  (forall a, r = Ok a -> exists l, api_suffix p (snd (k a p)) l /\ P l) ->
  exists l, api_suffix p (snd (bind (lift r) k p)) l /\ P l.
Proof.
  intros HP Hk. unfold bind, lift. destruct r as [a|e].
  - apply Hk. reflexivity.
  - exists []. split; [apply api_suffix_refl|exact HP].
Qed.

Lemma after_read_at {A B} (P : list event -> Prop) (f : X -> result A)
      (k : A -> M X B) p :
  P [] ->
  (forall a, f (ext p) = Ok a ->
     exists l, api_suffix p (snd (k a p)) l /\ P l) ->
  exists l,
    api_suffix p (snd (bind (read_ext f) (fun r => bind (lift r) k) p)) l
    /\ P l.
Proof.
  intros HP Hk. unfold bind at 1. unfold read_ext.
  apply after_lift_at; assumption.
Qed.

Lemma creation_and_read_nil : creation_and_read [].
Proof. left. reflexivity. Qed.

Lemma creates_after_lift_at {A B} (r : result A) (k : A -> M X B) p :
  (forall a, r = Ok a -> creates_at (k a) p) ->
  creates_at (bind (lift r) k) p.
Proof.
  intros Hk. unfold bind, lift. destruct r as [a|e].
  - apply Hk. reflexivity.
  - exists []. split; [apply api_suffix_refl|]. left. split; reflexivity.
Qed.

Lemma creates_after_read_at {A B} (f : X -> result A) (k : A -> M X B) p :
  (forall a, f (ext p) = Ok a -> creates_at (k a) p) ->
  creates_at (bind (read_ext f) (fun r => bind (lift r) k)) p.
Proof.
  intros Hk. unfold bind at 1. unfold read_ext.
  apply creates_after_lift_at. exact Hk.
Qed.

Lemma creation_and_read_then_at {A B} (c : M X A) (k : A -> M X B) p :
  creates_at c p -> (forall a, reads (k a)) ->
  exists l, api_suffix p (snd (bind c k p)) l /\ creation_and_read l.
Proof.
  intros [l [S1 C1]] Hk. unfold bind.
  destruct (c p) as [[a|e] p1]; simpl in S1, C1.
  - destruct (Hk a p1) as [id [r' S2]].
    exists (l ++ [Api (GET (StoreProduct id)) r'])%list. split.
    + eapply api_suffix_trans; eassumption.
    + destruct C1 as [[_ C1]|[b [r ->]]]; [discriminate|].
      right. right. exists b, r, id, r'. reflexivity.
  - exists l. split; [exact S1|].
    destruct C1 as [[-> _]|[b [r ->]]]; [left; reflexivity|].
    right. left. exists b, r. reflexivity.
Qed.

End GatewayCalls.

(** X14.  The gateway calls of a build, in either builder and whatever
    the gateway, the uploader and the catalog return or raise: either
    there is none, or the first is the creation call
    [POST /store/products] and all the later ones are reads and updates
    of a product.  No build calls the gateway a second time for a
    creation, and none reads or updates before its creation call.  This
    counts calls of the methods of the API client; the HTTP requests it
    sends inside one call (up to [retries] of them) are not told apart
    here. *)
Theorem creation_is_the_first_gateway_call
  {X : Type} `{World X} (pm : placements_module)
  (pcm : placement_config_module) (design_file product_type : string)
  (p : process X) :
  (exists l,
      api_events
        (trace (snd (ModularBuilder.build_single_product pcm design_file
                       product_type p)))
      = (api_events (trace p) ++ l)%list
      /\ creation_first l)
  /\ (exists l,
      api_events
        (trace (snd (CoreBuilder.build pm design_file product_type p)))
      = (api_events (trace p) ++ l)%list
      /\ creation_first l).
Proof.
  split.
  - exact (modular_build_emits pcm design_file product_type p).
  - exact (core_build_emits pm design_file product_type p).
Qed.

(** X15.  A build whose catalog holds no more variants than the initial
    batch takes (20 in the modular builder, 8 in the clean one) has no
    append phase: its gateway calls are at most the creation call
    followed by the final read, and it makes no update call. *)
Theorem small_builds_make_two_gateway_calls
  {X : Type} `{World X} (pm : placements_module)
  (pcm : placement_config_module) (design_file product_type : string)
  (p : process X) :
  ((forall variants,
       load_product_variants product_type (ext p) = Ok variants ->
       length variants <= 20) ->
   exists l,
     api_events
       (trace (snd (ModularBuilder.build_single_product pcm design_file
                      product_type p)))
     = (api_events (trace p) ++ l)%list
     /\ creation_and_read l)
  /\
  ((forall variants,
       load_product_variants product_type (ext p) = Ok variants ->
       length variants <= 8) ->
   exists l,
     api_events
       (trace (snd (CoreBuilder.build pm design_file product_type p)))
     = (api_events (trace p) ++ l)%list
     /\ creation_and_read l).
Proof.
  split; intros Hsmall.
  - unfold ModularBuilder.build_single_product.
    apply try_except_at; [|intros e; apply emits_only_ret].
    apply after_read_at; [apply creation_and_read_nil|].
    intros variants Hv. specialize (Hsmall variants Hv).
    apply emits_after;
      [apply emits_only_read_ext|apply creation_and_read_nil|].
    intros info.
    destruct (negb _);
      [apply emits_silent; [apply emits_only_ret|apply creation_and_read_nil]|].
    apply emits_after;
      [apply modular_prepare_silent|apply creation_and_read_nil|].
    intros u.
    apply creation_and_read_then;
      [apply modular_create_creates, Hsmall|].
    intros id. apply modular_verify_reads.
  - unfold CoreBuilder.build.
    apply try_except_at; [|intros e; apply emits_only_ret].
    apply creation_and_read_then_at; [|intros created; apply core_verify_reads].
    unfold CoreBuilder.create. cbv zeta.
    apply creates_after_lift_at. intros name _.
    apply creates_after_read_at. intros variants Hv.
    specialize (Hsmall variants Hv).
    refine (creates_after _ _ _ _ p); [apply core_prepare_silent|].
    intros u.
    apply creates_then; [apply core_create_product_creates, Hsmall|].
    intros id. apply emits_only_ret.
Qed.
Section Requests.
Context {X : Type} `{World X}.
Implicit Types p : process X.

(** ** What the creation request carries *)

Lemma creates_run_body {A} (pre : M X (list sync_entry)) name thumbnail
      (post : json -> result A) p :
  emits_only no_call pre ->
  let c := fun p =>
             match pre p with
             | (Ok entries, p1) =>
                 match api_call (POST StoreProducts
                                   (body_of name thumbnail entries p1)) p1 with
                 | (Ok response, p2) => (post response, p2)
                 | (Raise e, p2) => (Raise e, p2)
                 end
             | (Raise e, p1) => (Raise e, p1)
             end in
  exists l,
    api_suffix p (snd (c p)) l
    /\ ((l = [] /\ Py.is_ok (fst (c p)) = false)
        \/ exists entries p1 r,
             pre p = (Ok entries, p1)
             /\ l = [Api (POST StoreProducts
                            (body_of name thumbnail entries p1)) r]).
Proof.
  intros Hpre c. subst c. cbv beta.
  pose proof (emits_nothing pre p Hpre) as S1.
  destruct (pre p) as [[entries|e] p1]; simpl in S1.
  - rewrite BuilderFacts.api_call_run.
    set (req := POST StoreProducts (body_of name thumbnail entries p1)).
    exists [Api req (fst (vendor req (ext p1)))]. split.
    + assert (S2 : api_suffix p
                     (logged p1 (snd (vendor req (ext p1)))
                        (Api req (fst (vendor req (ext p1)))))
                     ([] ++ [Api req (fst (vendor req (ext p1)))])).
      { eapply api_suffix_trans; [exact S1|]. apply (api_suffix_log p1). }
      destruct (fst (vendor req (ext p1))); exact S2.
    + right. eexists _, _, _. split; reflexivity.
  - exists []. split; [exact S1|]. left. split; reflexivity.
Qed.

Lemma sent_of_new_entries name thumbnail entries (vs : list variant) p :
  Forall2 (fun e v => exists fcs,
             e = NewVariant (format_price (price v)) (variant_id v) fcs)
          entries vs ->
  sent_variant_ids (body_of name thumbnail entries p) = map variant_id vs
  /\ sent_prices (body_of name thumbnail entries p)
     = map (fun v => format_price (price v)) vs
  /\ count_refs (body_of name thumbnail entries p) = 0.
Proof.
  unfold sent_variant_ids, sent_prices, count_refs, body_of. cbn [b_variants].
  induction 1 as [|e v entries vs [fcs ->] _ [IH1 [IH2 IH3]]];
    [repeat split|].
  simpl. rewrite IH1, IH2. repeat split. exact IH3.
Qed.

Lemma modular_create_initial_unfold pcm name pt variants u p :
  ModularBuilder.create_initial pcm name pt variants u p =
  match map_m (fun v => ModularBuilder._create_variant_payload pcm v pt u)
              (Planner.modular_initial_batch variants) p with
  | (Ok entries, p1) =>
      match api_call (POST StoreProducts
                        (body_of name (design_url u) entries p1)) p1 with
      | (Ok response, p2) =>
          (match Py.get response "code" with
           | Ok c =>
               if negb (Py.in_200_201 c)
               then Raise (Exception "Errore creazione prodotto")
               else ModularBuilder.product_id_of response
           | Raise e => Raise e
           end, p2)
      | (Raise e, p2) => (Raise e, p2)
      end
  | (Raise e, p1) => (Raise e, p1)
  end.
Proof.
  unfold ModularBuilder.create_initial,
    ModularBuilder._create_initial_product, bind.
  destruct (map_m _ _ p) as [[entries|e] p1]; [|reflexivity].
  rewrite BuilderFacts.send_run.
  destruct (api_call _ p1) as [[response|e] p2]; [|reflexivity].
  unfold lift, raise, ret.
  destruct (Py.get response "code") as [c|e]; [|reflexivity].
  destruct (Py.in_200_201 c); reflexivity.
Qed.

Lemma core_create_initial_unfold pm name pt variants u p :
  CoreBuilder.create_initial pm name pt variants u p =
  match CoreBuilder._build_variants_payload pm pt
          (Planner.core_initial_batch variants) u p with
  | (Ok entries, p1) =>
      match api_call (POST StoreProducts
                        (body_of name (design_url u) entries p1)) p1 with
      | (Ok response, p2) =>
          (match Py.get response "code" with
           | Ok c =>
               if negb (Py.in_200_201 c)
               then Raise (Exception "Creazione fallita")
               else CoreBuilder.product_id_of response
           | Raise e => Raise e
           end, p2)
      | (Raise e, p2) => (Raise e, p2)
      end
  | (Raise e, p1) => (Raise e, p1)
  end.
Proof.
  unfold CoreBuilder.create_initial, bind. cbv zeta.
  destruct (CoreBuilder._build_variants_payload _ _ _ _ p)
    as [[entries|e] p1]; [|reflexivity].
  change (CoreBuilder.send (POST StoreProducts) name (design_url u)
            entries p1)
    with (api_call (POST StoreProducts
                      (body_of name (design_url u) entries p1)) p1).
  destruct (api_call _ p1) as [[response|e] p2]; [|reflexivity].
  unfold lift, raise, ret.
  destruct (Py.get response "code") as [c|e]; [|reflexivity].
  destruct (Py.in_200_201 c); reflexivity.
Qed.

(** X16.  The creation step of either builder fails before any gateway
    call, or calls the gateway exactly once: [POST /store/products] with
    the product name, the design URL as thumbnail, and as variants the
    first 20 (modular builder) or 8 (clean builder) variants of the
    catalog, in catalog order, each with its catalog identifier and its
    formatted price, and no reference to an existing variant. *)
Theorem creation_request_carries_the_initial_batch
  (pm : placements_module) (pcm : placement_config_module)
  (name product_type : string) (variants : list variant) (u : urls) p :
  (exists l,
      api_suffix p
        (snd (ModularBuilder.create_initial pcm name product_type
                variants u p)) l
      /\ ((l = []
           /\ Py.is_ok (fst (ModularBuilder.create_initial pcm name
                               product_type variants u p)) = false)
          \/ exists b r,
               l = [Api (POST StoreProducts b) r]
               /\ b_name b = name /\ b_thumbnail b = design_url u
               /\ sent_variant_ids b = map variant_id (firstn 20 variants)
               /\ sent_prices b
                  = map (fun v => format_price (price v))
                        (firstn 20 variants)
               /\ count_refs b = 0))
  /\
  (exists l,
      api_suffix p
        (snd (CoreBuilder.create_initial pm name product_type
                variants u p)) l
      /\ ((l = []
           /\ Py.is_ok (fst (CoreBuilder.create_initial pm name
                               product_type variants u p)) = false)
          \/ exists b r,
               l = [Api (POST StoreProducts b) r]
               /\ b_name b = name /\ b_thumbnail b = design_url u
               /\ sent_variant_ids b = map variant_id (firstn 8 variants)
               /\ sent_prices b
                  = map (fun v => format_price (price v))
                        (firstn 8 variants)
               /\ count_refs b = 0)).
Proof.
  split.
  - rewrite modular_create_initial_unfold.
    destruct (creates_run_body
                (map_m (fun v => ModularBuilder._create_variant_payload
                                   pcm v product_type u)
                       (Planner.modular_initial_batch variants))
                name (design_url u)
                (fun response =>
                   match Py.get response "code" with
                   | Ok c =>
                       if negb (Py.in_200_201 c)
                       then Raise (Exception "Errore creazione prodotto")
                       else ModularBuilder.product_id_of response
                   | Raise e => Raise e
                   end) p)
      as [l [S C]].
    { apply emits_only_map_m. intros v. apply modular_payload_silent. }
    exists l. split; [exact S|].
    destruct C as [C|[entries [p1 [r [E ->]]]]]; [left; exact C|].
    right. eexists _, r. split; [reflexivity|].
    split; [reflexivity|]. split; [reflexivity|].
    apply sent_of_new_entries.
    eapply (BuilderFacts.map_m_Forall2 _ _
              (fun v q e q' =>
                 BuilderFacts.modular_payload_entry pcm v product_type u q e
                   q')).
    exact E.
  - rewrite core_create_initial_unfold.
    destruct (creates_run_body
                (CoreBuilder._build_variants_payload pm product_type
                   (Planner.core_initial_batch variants) u)
                name (design_url u)
                (fun response =>
                   match Py.get response "code" with
                   | Ok c =>
                       if negb (Py.in_200_201 c)
                       then Raise (Exception "Creazione fallita")
                       else CoreBuilder.product_id_of response
                   | Raise e => Raise e
                   end) p)
      as [l [S C]].
    { apply core_payloads_silent. }
    exists l. split; [exact S|].
    destruct C as [C|[entries [p1 [r [E ->]]]]]; [left; exact C|].
    right. eexists _, r. split; [reflexivity|].
    split; [reflexivity|]. split; [reflexivity|].
    apply sent_of_new_entries.
    eapply BuilderFacts.core_payload_entries. exact E.
Qed.

(** ** The append phase of the clean builder *)

Lemma core_add_variants_batch_run pm id name pt batch u p :
  exists l,
    api_suffix p
      (snd (CoreBuilder._add_variants_batch pm id name pt batch u p)) l
    /\ ((exists r,
           l = [Api (GET (StoreProduct id)) r]
           /\ Py.is_ok (fst (CoreBuilder._add_variants_batch pm id name pt
                               batch u p)) = false)
        \/ (exists cur b r,
              l = [Api (GET (StoreProduct id)) (Ok cur);
                   Api (PUT (StoreProduct id) b) r]
              /\ CoreBuilder.current_ids cur = Ok (CoreBuilder.sent_refs b)
              /\ sent_variant_ids b = map variant_id batch
              /\ b_name b = name /\ b_thumbnail b = design_url u)).
Proof.
  rewrite BuilderFacts.core_add_variants_batch_unfold. cbv zeta.
  set (get := GET (StoreProduct id)).
  set (p1 := logged p (snd (vendor get (ext p)))
               (Api get (fst (vendor get (ext p))))).
  assert (S1 : api_suffix p p1 [Api get (fst (vendor get (ext p)))])
    by apply (api_suffix_log p).
  destruct (fst (vendor get (ext p))) as [cur|e] eqn:Eget.
  2:{ eexists. split; [exact S1|]. left. eexists. split; reflexivity. }
  destruct (CoreBuilder.current_ids cur) as [ids|e] eqn:Eids.
  2:{ eexists. split; [exact S1|]. left. eexists. split; reflexivity. }
  pose proof (emits_nothing _ p1
                (core_payloads_silent no_call pm pt batch u)) as S2.
  destruct (CoreBuilder._build_variants_payload pm pt batch u p1)
    as [[news|e] p2] eqn:Enew; cbn [snd] in S2.
  2:{ eexists. split; [eapply (api_suffix_trans _ _ _ [_] []); eassumption|].
      left. eexists. split; reflexivity. }
  set (put := PUT (StoreProduct id)
                (body_of name (design_url u) (map ExistingRef ids ++ news) p2)).
  assert (S3 : api_suffix p
                 (logged p2 (snd (vendor put (ext p2)))
                    (Api put (fst (vendor put (ext p2)))))
                 [Api get (Ok cur); Api put (fst (vendor put (ext p2)))]).
  { eapply (api_suffix_trans _ _ _ [_] [_]);
      [eapply (api_suffix_trans _ _ _ [_] []); eassumption|].
    apply (api_suffix_log p2). }
  destruct (BuilderFacts.core_sent_refs_body name (design_url u) ids news
              batch p2
              (BuilderFacts.core_payload_entries _ _ _ _ _ _ _ Enew))
    as [R1 R2].
  exists [Api get (Ok cur); Api put (fst (vendor put (ext p2)))]. split.
  - exact S3.
  - right. exists cur, (body_of name (design_url u)
                          (map ExistingRef ids ++ news) p2),
      (fst (vendor put (ext p2))).
    split; [reflexivity|]. rewrite R1.
    split; [exact Eids|]. split; [exact R2|]. split; reflexivity.
Qed.

Lemma core_append_loop pm id name pt u batches : forall p,
  exists l,
    api_suffix p
      (snd (for_each batches
              (fun batch (_ : unit) =>
                 bind (CoreBuilder._add_variants_batch pm id name pt batch u)
                      (fun _ => sleep 2))
              tt p)) l
    /\ CoreBuilder.read_then_update id l
    /\ length (List.filter is_put l) <= length batches.
Proof.
  induction batches as [|batch rest IH]; intros p.
  - exists []. split; [apply api_suffix_refl|]. split; [exact I|reflexivity].
  - cbn [for_each]. unfold bind at 1. unfold bind at 1.
    destruct (core_add_variants_batch_run pm id name pt batch u p)
      as [l1 [S1 C1]].
    destruct (CoreBuilder._add_variants_batch pm id name pt batch u p)
      as [[[]|e] p1]; cbn [fst snd] in S1, C1.
    + destruct C1 as [[r [_ C1]]|[cur [b [r [-> [Hids _]]]]]]; [discriminate|].
      assert (S2 : api_suffix p1 (snd (sleep 2 p1)) []).
      { apply emits_nothing, emits_only_sleep. }
      destruct (sleep 2 p1) as [[[]|e] p2] eqn:Esleep; cbn [snd] in S2.
      * destruct (IH p2) as [l2 [S3 [R3 N3]]].
        exists ([Api (GET (StoreProduct id)) (Ok cur);
                 Api (PUT (StoreProduct id) b) r] ++ l2)%list.
        split.
        -- eapply api_suffix_trans; [|exact S3].
           eapply (api_suffix_trans _ _ _ [_; _] []); eassumption.
        -- split.
           ++ simpl. split; [reflexivity|]. split; [reflexivity|].
              split; [exists cur; split; [reflexivity|exact Hids]|exact R3].
           ++ simpl. lia.
      * discriminate.
    + exists l1. split; [exact S1|].
      destruct C1 as [[r [-> _]]|[cur [b [r [-> [Hids _]]]]]].
      * split; [simpl; auto|simpl; lia].
      * split; [|simpl; lia].
        simpl. split; [reflexivity|]. split; [reflexivity|].
        split; [exists cur; split; [reflexivity|exact Hids]|exact I].
Qed.

(** X17.  The append phase of the clean builder, whatever the gateway
    returns or raises: its gateway calls are reads of the product, each
    followed by an update of the same product that carries as references
    exactly the identifiers of the variants just read; only the last read
    may be left without its update (when it failed, or no payload could
    be built).  There is at most one update call per append batch. *)
Theorem core_append_reads_before_every_update
  (pm : placements_module) (id : json) (name product_type : string)
  (variants : list variant) (u : urls) p :
  exists l,
    api_suffix p
      (snd (CoreBuilder.append_remaining pm id name product_type
              variants u p)) l
    /\ CoreBuilder.read_then_update id l
    /\ length (List.filter is_put l)
       <= length (Planner.core_append_batches variants).
Proof.
  unfold CoreBuilder.append_remaining. apply core_append_loop.
Qed.

(** X18.  A product type that is not configured is refused before any
    upload and any gateway call, and the state is left as it was.  The
    modular builder consults the variant catalog first: it answers with
    the "not compatible" record when the catalog knows the product, and
    with the failure record of the catalog's exception otherwise.  The
    clean builder answers with the failure record of the [ValueError] of
    [get_product_name]. *)
Theorem unconfigured_product_is_refused
  (pm : placements_module) (pcm : placement_config_module)
  (design_file product_type : string) p :
  Py.assoc product_type PRODUCT_PLACEMENTS = None ->
  Py.assoc product_type PRODUCTS = None ->
  ModularBuilder.build_single_product pcm design_file product_type p
  = (Ok (match load_product_variants product_type (ext p) with
         | Ok _ => ModularBuilder.Incompatible
         | Raise e => ModularBuilder.Failed e product_type design_file
         end), p)
  /\ CoreBuilder.build pm design_file product_type p
     = (Ok (CoreBuilder.Failed (ValueError "Prodotto non configurato")
              product_type), p).
Proof.
  intros Hm Hc. split.
  - unfold ModularBuilder.build_single_product, try_except, bind, read_ext,
      lift, ret, validate_product_compatibility, get_product_placements.
    rewrite Hm.
    destruct (load_product_variants product_type (ext p)); reflexivity.
  - unfold CoreBuilder.build, CoreBuilder.create, try_except, bind, lift,
      ret, get_product_name.
    rewrite Hc. reflexivity.
Qed.

End Requests.

Import Script.

(** Three variants and the two answers of a successful build: each
    builder creates the product and reads it back, and calls the gateway
    for nothing else.  The clean builder is given the answer that carries
    the identifier where it reads it. *)
Lemma small_builds_make_two_gateway_calls_witness :
  let pm := Script.start
              (Script.world [Ok Script.created_42; Ok (Script.product_42 3)]
                 [Ok "https://img/leone.png"] (Script.shirts 3))
              ["ricamo/leone.png"] in
  let pc := Script.start
              (Script.world [Ok Script.created_42_flat;
                             Ok (Script.product_42 3)]
                 [Ok "https://img/leone.png"] (Script.shirts 3))
              ["ricamo/leone.png"] in
  (exists l,
     api_events
       (trace (snd (ModularBuilder.build_single_product loaded_pcm
                      "ricamo/leone.png" "gildan_5000" pm)))
     = (api_events (trace pm) ++ l)%list
     /\ creation_and_read l
     /\ calls l = [CallPost 3; CallGet])
  /\
  (exists l,
     api_events
       (trace (snd (CoreBuilder.build loaded_pm "ricamo/leone.png"
                      "gildan_5000" pc)))
     = (api_events (trace pc) ++ l)%list
     /\ creation_and_read l
     /\ calls l = [CallPost 3; CallGet]).
Proof.
  intros pm pc.
  assert (Hv : forall p variants,
             p = pm \/ p = pc ->
             load_product_variants "gildan_5000" (ext p) = Ok variants ->
             length variants = 3).
  { intros p variants Hp Hv.
    assert (E : Ok variants
                = (Ok (Script.sample_variants 3) : result (list variant))).
    { rewrite <- Hv. destruct Hp as [-> | ->]; reflexivity. }
    injection E as ->. reflexivity. }
  split.
  - destruct (proj1 (small_builds_make_two_gateway_calls loaded_pm loaded_pcm
                       "ricamo/leone.png" "gildan_5000" pm))
      as [l [E C]].
    { intros variants Hl. rewrite (Hv pm variants (or_introl eq_refl) Hl).
      lia. }
    exists l. split; [exact E|]. split; [exact C|].
    vm_compute in E. rewrite <- E. reflexivity.
  - destruct (proj2 (small_builds_make_two_gateway_calls loaded_pm loaded_pcm
                       "ricamo/leone.png" "gildan_5000" pc))
      as [l [E C]].
    { intros variants Hl. rewrite (Hv pc variants (or_intror eq_refl) Hl).
      lia. }
    exists l. split; [exact E|]. split; [exact C|].
    vm_compute in E. rewrite <- E. reflexivity.
Defined.

Lemma unconfigured_product_is_refused_witness :
  let p := Script.start
             (Script.world [Ok Script.created_42]
                [Ok "https://img/leone.png"] (Script.shirts 3))
             ["ricamo/leone.png"] in
  ModularBuilder.build_single_product loaded_pcm "ricamo/leone.png"
    "mug_11oz" p
  = (Ok (match load_product_variants "mug_11oz" (ext p) with
         | Ok _ => ModularBuilder.Incompatible
         | Raise e => ModularBuilder.Failed e "mug_11oz" "ricamo/leone.png"
         end), p)
  /\ CoreBuilder.build loaded_pm "ricamo/leone.png" "mug_11oz" p
     = (Ok (CoreBuilder.Failed (ValueError "Prodotto non configurato")
              "mug_11oz"), p).
Proof.
  intros p.
  apply (unconfigured_product_is_refused loaded_pm loaded_pcm
           "ricamo/leone.png" "mug_11oz" p); reflexivity.
Defined.

End ProtocolFacts.
